(** * Batch text rewriting scripts: console-to-logger migration and
      indentation repair

    A shallow embedding of the six Python scripts of the repository:

    - [scripts/python/migrate_console_to_logger.py],
      [scripts/python/migrate_remaining_console.py] and
      [scripts/python/migrate_remaining_services.py]: ordered tables of
      (pattern, replacement) pairs applied with [re.sub];
    - [scripts/fix-storage-facade-python.py] and
      [scripts/fix-storage-facade-final.py]: [re.sub] with a callable;
    - [scripts/fix-indentation-storage-facade.py]: a line scanner.

    Python's [str] is a sequence of Unicode code points; the functions of
    [str] and of the [re] module that the scripts call are modelled in
    the modules [Py] and [Re]. *)

From Stdlib Require Import String Ascii DecimalString.
From Stdlib Require Import List NArith Arith Bool Lia.
Import ListNotations.
Local Open Scope string_scope.
Local Open Scope list_scope.
Local Open Scope nat_scope.

Set Implicit Arguments.

(* ===================================================================== *)
(** * Python strings *)
(* ===================================================================== *)

Module Py.

(** A character is a code point, a string a list of them. *)
Definition char := N.
Definition str := list char.

(** Source literals are UTF-8; [u] decodes one as the Python parser (or
    [open(..., encoding='utf-8')]) does. [need] counts the continuation
    bytes still expected. *)
Fixpoint utf8_decode (need : nat) (acc : N) (bs : list N) : str :=
  match bs with
  | [] => []
  | b :: bs' =>
    match need with
    | O =>
      if (b <? 128)%N then b :: utf8_decode 0 0%N bs'
      else if (b <? 224)%N then utf8_decode 1 (N.land b 31) bs'
      else if (b <? 240)%N then utf8_decode 2 (N.land b 15) bs'
      else utf8_decode 3 (N.land b 7) bs'
    | S n =>
      let acc' := (acc * 64 + N.land b 63)%N in
      match n with
      | O => acc' :: utf8_decode 0 0%N bs'
      | S _ => utf8_decode n acc' bs'
      end
    end
  end.

Fixpoint bytes_of_string (s : string) : list N :=
  match s with
  | EmptyString => []
  | String a s' => N_of_ascii a :: bytes_of_string s'
  end.

Definition u (s : string) : str := utf8_decode 0 0%N (bytes_of_string s).

Definition nl : char := 10%N.
Definition cr : char := 13%N.

(** A literal that is not raw: Python reads the escapes for newline, tab,
    carriage return, backslash and the quotes, and keeps any other
    backslash. [py] reads the text of such a literal, [u] that of a raw
    one. *)
Fixpoint unescape (s : str) : str :=
  match s with
  | [] => []
  | c :: s' =>
    if (c =? 92)%N then
      match s' with
      | e :: s'' =>
        if (e =? 110)%N then nl :: unescape s''
        else if (e =? 116)%N then 9%N :: unescape s''
        else if (e =? 114)%N then cr :: unescape s''
        else if ((e =? 92) || (e =? 39) || (e =? 34))%N then e :: unescape s''
        else c :: unescape s'
      | [] => [c]
      end
    else c :: unescape s'
  end.

Definition py (s : string) : str := unescape (u s).

Fixpoint str_eqb (a b : str) : bool :=
  match a, b with
  | [], [] => true
  | x :: a', y :: b' => (x =? y)%N && str_eqb a' b'
  | _, _ => false
  end.

(** [Py_UNICODE_ISSPACE]: the characters [str.strip] removes and the
    regular expression class of white space matches. *)
Definition isspace (c : char) : bool :=
  ((9 <=? c) && (c <=? 13) || (28 <=? c) && (c <=? 32)
   || (c =? 133) || (c =? 160) || (c =? 5760)
   || (8192 <=? c) && (c <=? 8202)
   || (c =? 8232) || (c =? 8233) || (c =? 8239) || (c =? 8287)
   || (c =? 12288))%N.

(** [s.startswith(p)] *)
Fixpoint startswith (p s : str) : bool :=
  match p, s with
  | [], _ => true
  | x :: p', y :: s' => (x =? y)%N && startswith p' s'
  | _ :: _, [] => false
  end.

(** [sub in s] *)
Fixpoint contains (sub s : str) : bool :=
  startswith sub s ||
  match s with
  | [] => false
  | _ :: s' => contains sub s'
  end.

Fixpoint lstrip (s : str) : str :=
  match s with
  | [] => []
  | c :: s' => if isspace c then lstrip s' else s
  end.

Definition rstrip (s : str) : str := rev (lstrip (rev s)).

(** [s.strip()] *)
Definition strip (s : str) : str := rstrip (lstrip s).

(** [s.split(sep)] for a separator of one character: never empty, with
    the empty fields kept. *)
Fixpoint split (sep : char) (s : str) : list str :=
  match s with
  | [] => [[]]
  | c :: s' =>
    if (c =? sep)%N then [] :: split sep s'
    else match split sep s' with
         | [] => [[c]]
         | w :: ws => (c :: w) :: ws
         end
  end.

(** [sep.join(l)] *)
Fixpoint join (sep : str) (l : list str) : str :=
  match l with
  | [] => []
  | [x] => x
  | x :: l' => x ++ sep ++ join sep l'
  end.

(** [s.replace(a, b)] for single characters. *)
Definition replace_char (a b : char) (s : str) : str :=
  map (fun c => if (c =? a)%N then b else c) s.

(** [str(n)] for a non-negative [int]. *)
Definition str_of_nat (n : nat) : str :=
  u (NilEmpty.string_of_uint (Nat.to_uint n)).

(** Text files are opened with the default [newline=None]: on reading,
    the line ends [\r\n] and [\r] become [\n]. *)
Fixpoint universal_newlines (s : str) : str :=
  match s with
  | [] => []
  | c :: s' =>
    if (c =? cr)%N then
      match s' with
      | d :: s'' => if (d =? nl)%N then nl :: universal_newlines s''
                    else nl :: universal_newlines s'
      | [] => [nl]
      end
    else c :: universal_newlines s'
  end.

(** [f.readlines()]: the text cut after every [\n], the [\n] kept. *)
Fixpoint readlines (s : str) : list str :=
  match s with
  | [] => []
  | c :: s' =>
    if (c =? nl)%N then [c] :: readlines s'
    else match readlines s' with
         | [] => [[c]]
         | l :: ls => (c :: l) :: ls
         end
  end.

End Py.

Import Py.

(* ===================================================================== *)
(** * The [re] module *)
(* ===================================================================== *)

Module Re.

(** The part of the pattern language the scripts use. [flags=re.MULTILINE]
    and [re.DOTALL] only change what the line anchors and the dot mean;
    every pattern passed with them has neither, so the flags have no
    counterpart here, and [Bol] is the start of the string. *)
Inductive regex : Type :=
| Eps
| Lit (c : char)
| Space                              (* backslash-s *)
| NoneOf (cs : list char)            (* a negated character class *)
| Bol                                (* the caret *)
| Seq (r1 r2 : regex)
| Alt (r1 r2 : regex)
| Star (greedy : bool) (r : regex)
| Group (i : nat) (r : regex).

(** Captured groups, the latest binding of a group first. *)
Definition caps := list (nat * str).

Fixpoint lookup (i : nat) (c : caps) : option str :=
  match c with
  | [] => None
  | (j, s) :: c' => if Nat.eqb i j then Some s else lookup i c'
  end.

Definition mem (c : char) (cs : list char) : bool :=
  existsb (N.eqb c) cs.

Notation "a <|> b" :=
  (match a with Some x => Some x | None => b end)
  (at level 60, right associativity, only parsing).

(** The backtracking matcher, in continuation-passing style: [m r pos s c k]
    matches [r] at the front of [s], which starts at offset [pos] of the
    subject, and hands the rest to [k]; alternatives are tried in the order
    of the pattern, a greedy repetition tries one more round before it
    tries to stop, a lazy one the other way round. *)
Fixpoint m (r : regex) (pos : nat) (s : str) (c : caps)
           (k : nat -> str -> caps -> option (nat * caps)) {struct r}
  : option (nat * caps) :=
  match r with
  | Eps => k pos s c
  | Lit a =>
    match s with
    | x :: s' => if (x =? a)%N then k (S pos) s' c else None
    | [] => None
    end
  | Space =>
    match s with
    | x :: s' => if isspace x then k (S pos) s' c else None
    | [] => None
    end
  | NoneOf cs =>
    match s with
    | x :: s' => if mem x cs then None else k (S pos) s' c
    | [] => None
    end
  | Bol => if Nat.eqb pos 0 then k pos s c else None
  | Seq r1 r2 => m r1 pos s c (fun pos' s' c' => m r2 pos' s' c' k)
  | Alt r1 r2 => m r1 pos s c k <|> m r2 pos s c k
  | Star greedy r' =>
    (fix rounds (n : nat) (pos : nat) (s : str) (c : caps) {struct n}
       : option (nat * caps) :=
       match n with
       | O => k pos s c
       | S n' =>
         if greedy then
           m r' pos s c
             (fun pos' s' c' =>
                if Nat.ltb pos pos' then rounds n' pos' s' c' else None)
           <|> k pos s c
         else
           k pos s c
           <|> m r' pos s c
                 (fun pos' s' c' =>
                    if Nat.ltb pos pos' then rounds n' pos' s' c' else None)
       end) (S (length s)) pos s c
  | Group i r' =>
    m r' pos s c
      (fun pos' s' c' => k pos' s' ((i, firstn (pos' - pos) s) :: c'))
  end.

(** One attempt at offset [pos]; with [must_advance] an empty match is
    refused (the state the engine is in right after an empty match). *)
Definition match_at (r : regex) (must_advance : bool) (pos : nat) (s : str)
  : option (nat * caps) :=
  m r pos s []
    (fun pos' _ c' =>
       if must_advance && Nat.eqb pos' pos then None else Some (pos', c')).

(** A match object. *)
Record match_obj : Type := MatchObj {
  m_start : nat;
  m_end : nat;
  m_text : str;        (* group 0 *)
  m_caps : caps
}.

Definition mk_match (pos e : nat) (s : str) (c : caps) : match_obj :=
  MatchObj pos e (firstn (e - pos) s) c.

(** [mo.group(i)]; a group that took no part in the match has no text. *)
Definition group (mo : match_obj) (i : nat) : str :=
  match i with
  | O => m_text mo
  | _ => match lookup i (m_caps mo) with Some s => s | None => [] end
  end.

(** [re.match]: at the start of the string only. *)
Definition re_match (r : regex) (s : str) : option match_obj :=
  match match_at r false 0 s with
  | Some (e, c) => Some (mk_match 0 e s c)
  | None => None
  end.

(** [re.search]: the leftmost offset at which the pattern matches. *)
Fixpoint search_from (r : regex) (pos : nat) (s : str) : option match_obj :=
  match match_at r false pos s with
  | Some (e, c) => Some (mk_match pos e s c)
  | None =>
    match s with
    | [] => None
    | _ :: s' => search_from r (S pos) s'
    end
  end.

Definition re_search (r : regex) (s : str) : option match_obj :=
  search_from r 0 s.

(** The subject cut into the matches [re.sub] and [re.findall] see, left
    to right and not overlapping, and the characters between them. After
    a match that is not empty the scan resumes at its end ([skip] counts
    the characters still covered by it); after an empty match the next
    attempt at the same offset must advance. *)
Inductive piece : Type :=
| Keep (c : char)
| Hit (mo : match_obj).

Fixpoint scan (r : regex) (skip : nat) (pos : nat) (s : str) {struct s}
  : list piece :=
  match skip with
  | S k =>
    match s with
    | [] => []
    | _ :: s' => scan r k (S pos) s'
    end
  | O =>
    match match_at r false pos s with
    | None =>
      match s with
      | [] => []
      | c :: s' => Keep c :: scan r 0 (S pos) s'
      end
    | Some (e, cs) =>
      if Nat.ltb pos e then
        Hit (mk_match pos e s cs) ::
        match s with
        | [] => []
        | _ :: s' => scan r (e - pos - 1) (S pos) s'
        end
      else
        Hit (mk_match pos e s cs) ::
        match match_at r true pos s with
        | Some (e', cs') =>
          Hit (mk_match pos e' s cs') ::
          match s with
          | [] => []
          | _ :: s' => scan r (e' - pos - 1) (S pos) s'
          end
        | None =>
          match s with
          | [] => []
          | c :: s' => Keep c :: scan r 0 (S pos) s'
          end
        end
    end
  end.

Definition pieces (r : regex) (s : str) : list piece := scan r 0 0 s.

Definition hits (ps : list piece) : list match_obj :=
  flat_map (fun p => match p with Keep _ => [] | Hit mo => [mo] end) ps.

(** [re.findall(r, s)] has one entry for each match. *)
Definition re_findall (r : regex) (s : str) : list match_obj :=
  hits (pieces r s).

(** [re.subn(r, repl, s)]: the new text and the number of substitutions;
    [repl] is the callable, or the expansion of the template. *)
Definition re_subn (r : regex) (repl : match_obj -> str) (s : str)
  : str * nat :=
  let ps := pieces r s in
  (flat_map (fun p => match p with Keep c => [c] | Hit mo => repl mo end) ps,
   length (hits ps)).

Definition re_sub (r : regex) (repl : match_obj -> str) (s : str) : str :=
  fst (re_subn r repl s).

(** ** Compiling a pattern

    [re_compile] reads the source text of a pattern: characters, escaped
    punctuation, the white space class, the escaped newline, negated
    classes, groups, alternation, the caret, and the repeats
    star, plus, question mark and [{n,}], each greedy or (followed by a
    question mark) lazy. Anything else, and every malformed pattern, gives
    [None]: [re.error], or syntax that no script uses. *)

Definition ch (a : ascii) : char := N_of_ascii a.

Definition is_digit (c : char) : bool := ((48 <=? c) && (c <=? 57))%N.

Definition is_alnum (c : char) : bool :=
  (is_digit c || (65 <=? c) && (c <=? 90) || (97 <=? c) && (c <=? 122))%N.

Fixpoint read_number (acc : nat) (s : str) : nat * str :=
  match s with
  | c :: s' =>
    if is_digit c then read_number (10 * acc + N.to_nat (c - 48)) s'
    else (acc, s)
  | [] => (acc, s)
  end.

(** The body of a class, up to the closing bracket. *)
Fixpoint read_class (s : str) : option (list char * str) :=
  match s with
  | [] => None
  | c :: s' =>
    if (c =? ch "]")%N then Some ([], s')
    else if (c =? ch "\")%N then None
    else match read_class s' with
         | Some (cs, rest) => Some (c :: cs, rest)
         | None => None
         end
  end.

Fixpoint repeat_seq (n : nat) (a tail : regex) : regex :=
  match n with
  | O => tail
  | S n' => Seq a (repeat_seq n' a tail)
  end.

(** A repeat after the atom [a], if there is one. *)
Definition lazy_mark (s : str) : bool * str :=
  match s with
  | c :: s' => if (c =? ch "?")%N then (false, s') else (true, s)
  | [] => (true, s)
  end.

Definition parse_repeat (a : regex) (s : str) : option (regex * str) :=
  match s with
  | c :: s' =>
    if (c =? ch "*")%N then
      let (g, s'') := lazy_mark s' in Some (Star g a, s'')
    else if (c =? ch "+")%N then
      let (g, s'') := lazy_mark s' in Some (Seq a (Star g a), s'')
    else if (c =? ch "?")%N then
      let (g, s'') := lazy_mark s' in
      Some (if g then Alt a Eps else Alt Eps a, s'')
    else if (c =? ch "{")%N then
      match s' with
      | d :: _ =>
        if is_digit d then
          let (n, s1) := read_number 0 s' in
          match s1 with
          | c1 :: c2 :: s2 =>
            if ((c1 =? ch ",") && (c2 =? ch "}"))%N then
              let (g, s3) := lazy_mark s2 in
              Some (repeat_seq n a (Star g a), s3)
            else None
          | _ => None
          end
        else Some (a, s)
      | [] => Some (a, s)
      end
    else Some (a, s)
  | [] => Some (a, s)
  end.

Fixpoint parse_alt (fuel : nat) (g : nat) (s : str) {struct fuel}
  : option (regex * nat * str) :=
  match fuel with
  | O => None
  | S f =>
    match parse_seq f g s with
    | Some (r1, g1, s1) =>
      match s1 with
      | c :: s2 =>
        if (c =? ch "|")%N then
          match parse_alt f g1 s2 with
          | Some (r2, g2, s3) => Some (Alt r1 r2, g2, s3)
          | None => None
          end
        else Some (r1, g1, s1)
      | [] => Some (r1, g1, s1)
      end
    | None => None
    end
  end
with parse_seq (fuel : nat) (g : nat) (s : str) {struct fuel}
  : option (regex * nat * str) :=
  match fuel with
  | O => None
  | S f =>
    match s with
    | [] => Some (Eps, g, s)
    | c :: s' =>
      if ((c =? ch ")") || (c =? ch "|"))%N then Some (Eps, g, s)
      else
        let atom : option (regex * nat * str) :=
          if (c =? ch "(")%N then
            match s' with
            | q :: _ =>
              if (q =? ch "?")%N then None
              else
                match parse_alt f (S g) s' with
                | Some (r, g1, s1) =>
                  match s1 with
                  | c1 :: s2 =>
                    if (c1 =? ch ")")%N then Some (Group (S g) r, g1, s2)
                    else None
                  | [] => None
                  end
                | None => None
                end
            | [] => None
            end
          else if (c =? ch "[")%N then
            match s' with
            | c1 :: s1 =>
              if (c1 =? ch "^")%N then
                match read_class s1 with
                | Some (cs, s2) => Some (NoneOf cs, g, s2)
                | None => None
                end
              else None
            | [] => None
            end
          else if (c =? ch "\")%N then
            match s' with
            | c1 :: s1 =>
              if (c1 =? ch "s")%N then Some (Space, g, s1)
              else if (c1 =? ch "n")%N then Some (Lit nl, g, s1)
              else if is_alnum c1 then None
              else Some (Lit c1, g, s1)
            | [] => None
            end
          else if (c =? ch "^")%N then Some (Bol, g, s')
          else if ((c =? ch ".") || (c =? ch "$") || (c =? ch "*")
                   || (c =? ch "+") || (c =? ch "?"))%N then None
          else Some (Lit c, g, s')
        in
        match atom with
        | Some (a, g1, s1) =>
          match parse_repeat a s1 with
          | Some (q, s2) =>
            match parse_seq f g1 s2 with
            | Some (r, g2, s3) => Some (Seq q r, g2, s3)
            | None => None
            end
          | None => None
          end
        | None => None
        end
    end
  end.

(** [re.compile(pattern)], with the number of groups. *)
Definition re_compile_groups (pattern : str) : option (regex * nat) :=
  match parse_alt (2 * List.length pattern + 2) 0 pattern with
  | Some (r, g, []) => Some (r, g)
  | _ => None
  end.

Definition re_compile (pattern : str) : option regex :=
  option_map fst (re_compile_groups pattern).

(** ** Replacement templates

    A template without a backslash stands for itself. After a backslash,
    one or two digits name a group, the letters of the usual escapes give
    their character, any other letter (and a digit zero, an octal escape
    or a named reference, none of which a script uses) is refused, and
    any other character stays as it is, backslash included. *)
Inductive titem : Type :=
| TLit (c : char)
| TGroup (i : nat).

Definition escape_char (c : char) : option char :=
  if (c =? ch "n")%N then Some 10%N
  else if (c =? ch "t")%N then Some 9%N
  else if (c =? ch "r")%N then Some 13%N
  else if (c =? ch "a")%N then Some 7%N
  else if (c =? ch "b")%N then Some 8%N
  else if (c =? ch "f")%N then Some 12%N
  else if (c =? ch "v")%N then Some 11%N
  else if (c =? ch "\")%N then Some (ch "\")
  else None.

Definition is_octal (c : char) : bool := ((48 <=? c) && (c <=? 55))%N.

Fixpoint parse_template (groups : nat) (fuel : nat) (s : str) {struct fuel}
  : option (list titem) :=
  match fuel with
  | O => match s with [] => Some [] | _ => None end
  | S f =>
    match s with
    | [] => Some []
    | c :: s' =>
      if (c =? ch "\")%N then
        match s' with
        | [] => None
        | e :: s1 =>
          if is_digit e then
            if (e =? ch "0")%N then None
            else
              let d1 := N.to_nat (e - 48) in
              match s1 with
              | e2 :: s2 =>
                if is_digit e2 then
                  let triple :=
                    match s2 with
                    | e3 :: _ => is_octal e && is_octal e2 && is_octal e3
                    | [] => false
                    end in
                  let i := 10 * d1 + N.to_nat (e2 - 48) in
                  if triple then None
                  else if Nat.leb i groups then
                    option_map (cons (TGroup i)) (parse_template groups f s2)
                  else None
                else if Nat.leb d1 groups then
                  option_map (cons (TGroup d1)) (parse_template groups f s1)
                else None
              | [] =>
                if Nat.leb d1 groups then Some [TGroup d1] else None
              end
          else
            match escape_char e with
            | Some x => option_map (cons (TLit x)) (parse_template groups f s1)
            | None =>
              if is_alnum e then None
              else option_map (fun t => TLit c :: TLit e :: t)
                              (parse_template groups f s1)
            end
        end
      else option_map (cons (TLit c)) (parse_template groups f s')
    end
  end.

Definition expand (t : list titem) (mo : match_obj) : str :=
  flat_map (fun i => match i with TLit c => [c] | TGroup i => group mo i end)
           t.

(** [re.sub(pattern, repl, s)] on the source texts of the pattern and of
    the template; [None] when one of them is refused. *)
Definition re_sub_src (pattern repl : str) (s : str) : option str :=
  match re_compile_groups pattern with
  | Some (r, g) =>
    match parse_template g (List.length repl) repl with
    | Some t => Some (re_sub r (expand t) s)
    | None => None
    end
  | None => None
  end.

End Re.

Import Re.

(* ===================================================================== *)
(** * The pattern-rewrite engine *)
(* ===================================================================== *)

(** A rule: a compiled pattern and what replaces a match (the expansion
    of a template, or a callable). *)
Record rule : Type := Rule {
  pat : regex;
  repl : match_obj -> str
}.

(** One rule applied to the current text; the counter goes up by the
    number of substitutions. *)
Definition apply_rule (st : str * nat) (r : rule) : str * nat :=
  let (t, k) := re_subn (pat r) (repl r) (fst st) in (t, snd st + k).

(** The rules applied one after the other, as the scripts do with
    [for old, new in replacements: content = re.sub(old, new, content)]. *)
Definition rewrite (rules : list rule) (text : str) : str * nat :=
  fold_left apply_rule rules (text, 0).

(** A table as the scripts write it: the source text of a pattern and of
    its replacement template. *)
Definition table := list (str * str).

Definition compile_rule (p : str * str) : option rule :=
  match re_compile_groups (fst p) with
  | Some (r, g) =>
    match parse_template g (List.length (snd p)) (snd p) with
    | Some t => Some (Rule r (expand t))
    | None => None
    end
  | None => None
  end.

(** The loop over a table; [None] when [re.sub] refuses a pattern or a
    template. *)
Fixpoint sub_all (tbl : table) (content : str) : option str :=
  match tbl with
  | [] => Some content
  | (old, new) :: tbl' =>
    match re_sub_src old new content with
    | Some content' => sub_all tbl' content'
    | None => None
    end
  end.

(* ===================================================================== *)
(** * Files and output *)
(* ===================================================================== *)

Inductive exn : Type :=
| FileNotFoundError (path : string)
| ReError
| AttributeError
| IndexError
| LoopBound.          (* a bounded loop of the model ran out of rounds *)

(** What a run does to the outside: lines printed and files written. *)
Inductive event : Type :=
| Print (msg : str)
| Write (path : string) (content : str).

Record world : Type := World {
  files : string -> option str;
  events : list event
}.

Inductive outcome (A : Type) : Type :=
| Return (a : A)
| Raise (e : exn).

Arguments Return {A} a.
Arguments Raise {A} e.

Definition IO (A : Type) : Type := world -> outcome A * world.

Definition ret {A : Type} (a : A) : IO A := fun w => (Return a, w).

Definition bind {A B : Type} (c : IO A) (f : A -> IO B) : IO B :=
  fun w =>
    match c w with
    | (Return a, w') => f a w'
    | (Raise e, w') => (Raise e, w')
    end.

Definition raise {A : Type} (e : exn) : IO A := fun w => (Raise e, w).

Declare Scope io_scope.
Delimit Scope io_scope with io.
Notation "x <- c ;; k" := (bind c (fun x => k))
  (at level 61, c at next level, right associativity) : io_scope.
Notation "c ;; k" := (bind c (fun _ => k))
  (at level 61, right associativity) : io_scope.
Local Open Scope io_scope.

(** [open(path, 'r').read()]: the text of the file, its line ends made
    newlines; a missing file raises. *)
Definition read_text (path : string) : IO str :=
  fun w =>
    match files w path with
    | Some content => (Return (universal_newlines content), w)
    | None => (Raise (FileNotFoundError path), w)
    end.

(** [open(path, 'w').write(content)]: the file holds the text written (on
    writing, a newline stays a newline where the line separator of the
    system is one). *)
Definition write_text (path : string) (content : str) : IO unit :=
  fun w =>
    (Return tt,
     World (fun p => if String.eqb p path then Some content else files w p)
           (events w ++ [Write path content])).

Definition print (msg : str) : IO unit :=
  fun w => (Return tt, World (files w) (events w ++ [Print msg])).

(** An [option] that stands for a call of [re]: [None] is [re.error]. *)
Definition of_re {A : Type} (o : option A) : IO A :=
  match o with
  | Some a => ret a
  | None => raise ReError
  end.

Definition is_write (e : event) : bool :=
  match e with
  | Write _ _ => true
  | Print _ => false
  end.

(** The writes of a run that starts in [w]. *)
Definition writes_of {A : Type} (c : IO A) (w : world) : list event :=
  filter is_write (skipn (List.length (events w)) (events (snd (c w)))).

(* ===================================================================== *)
(** * [scripts/python/migrate_console_to_logger.py] *)
(* ===================================================================== *)

Module MigrateConsoleToLogger.

(** The list [replacements] of [migrate_context_cache] ([migrate_console_to_logger.py]) *)
Definition context_cache_replacements : table :=
  [ (u "console\.log\(`\[ContextCache\] Invalidation persistante par tags: \$\{tags\.join\(', '\)\}`\);",
     py "logger.info('Invalidation persistante par tags', {
      metadata: {
        service: 'ContextCacheService',
        operation: 'invalidateFromPersistentCacheByTags',
        tags: tags.join(', ')
      }
    });");
    (u "console\.log\(`\[ContextCache\] Prewarming \$\{entityType\} avec filtres:`, filters\);",
     py "logger.info('Prewarming avec filtres', {
      metadata: {
        service: 'ContextCacheService',
        operation: 'prewarmEntityType',
        entityType,
        filters: JSON.stringify(filters)
      }
    });");
    (u "console\.log\(`\[ContextCache\] Prewarming \$\{entityType\} terminé: \$\{limit\} contextes générés`\);",
     py "logger.info('Prewarming terminé', {
      metadata: {
        service: 'ContextCacheService',
        operation: 'prewarmEntityType',
        entityType,
        contextsGenerated: limit
      }
    });");
    (u "console\.log\(`\[ContextCache\] Préchargement pattern: \$\{pattern\}`\);",
     py "logger.info('Préchargement pattern', {
      metadata: {
        service: 'ContextCacheService',
        operation: 'preloadContextForPattern',
        pattern
      }
    });");
    (u "console\.log\(`\[ContextCache\] Invalidation cascade pour \$\{entityType\} liée à \$\{entityId\}`\);",
     py "logger.info('Invalidation cascade', {
      metadata: {
        service: 'ContextCacheService',
        operation: 'invalidateRelatedEntities',
        entityType,
        relatedEntityId: entityId
      }
    });");
    (u "console\.log\('\[ContextCache\] Prewarming déjà en cours d\\'exécution'\);",
     py "logger.info('Prewarming déjà en cours', {
      metadata: {
        service: 'ContextCacheService',
        operation: 'startIntelligentPrewarming'
      }
    });");
    (u "console\.log\('\[ContextCache\] 🔥 Système de prewarming intelligent démarré avec succès'\);",
     py "logger.info('Système de prewarming intelligent démarré', {
      metadata: {
        service: 'ContextCacheService',
        operation: 'startIntelligentPrewarming'
      }
    });");
    (u "console\.log\('\[ContextCache\] Système de prewarming arrêté'\);",
     py "logger.info('Système de prewarming arrêté', {
      metadata: {
        service: 'ContextCacheService',
        operation: 'stopIntelligentPrewarming'
      }
    });");
    (u "console\.log\('\[ContextCache\] Prewarming reporté - hors période optimale'\);",
     py "logger.info('Prewarming reporté - hors période optimale', {
      metadata: {
        service: 'ContextCacheService',
        operation: 'executeIntelligentPrewarming'
      }
    });");
    (u "console\.log\(`\[ContextCache\] 🚀 Début prewarming intelligent \(période de pointe: \$\{isPeakHours\}\)`\);",
     py "logger.info('Début prewarming intelligent', {
      metadata: {
        service: 'ContextCacheService',
        operation: 'executeIntelligentPrewarming',
        isPeakHours
      }
    });");
    (u "console\.log\(`\[ContextCache\] ✅ Prewarming terminé en \$\{Date\.now\(\) - startTime\}ms - \$\{prewarmingResults\.contextsPrewarmed\} contextes`\);",
     py "logger.info('Prewarming terminé', {
      metadata: {
        service: 'ContextCacheService',
        operation: 'executeIntelligentPrewarming',
        durationMs: Date.now() - startTime,
        contextsPrewarmed: prewarmingResults.contextsPrewarmed
      }
    });");
    (u "console\.error\(`\[ContextCache\] ❌ Erreur prewarming intelligent:`, error\);",
     py "logger.error('Erreur prewarming intelligent', {
      metadata: {
        service: 'ContextCacheService',
        operation: 'executeIntelligentPrewarming',
        error: error instanceof Error ? error.message : String(error),
        stack: error instanceof Error ? error.stack : undefined
      }
    });");
    (u "console\.error\(`\[ContextCache\] Erreur prewarming \$\{entityType\}:`, error\);",
     py "logger.error('Erreur prewarming', {
      metadata: {
        service: 'ContextCacheService',
        operation: 'executePrewarmingStrategy',
        entityType,
        error: error instanceof Error ? error.message : String(error),
        stack: error instanceof Error ? error.stack : undefined
      }
    });");
    (u "console\.log\('\[ContextCache\] 🔄 Prewarming initial au démarrage\.\.\.'\);",
     py "logger.info('Prewarming initial au démarrage', {
      metadata: {
        service: 'ContextCacheService',
        operation: 'executeInitialPrewarming'
      }
    });");
    (u "console\.log\('\[ContextCache\] ✅ Prewarming initial terminé'\);",
     py "logger.info('Prewarming initial terminé', {
      metadata: {
        service: 'ContextCacheService',
        operation: 'executeInitialPrewarming'
      }
    });");
    (u "console\.log\(`\[ContextCache\] 📊 Monitoring: Hit rate prewarming: \$\{\(prewarmingHitRate \* 100\)\.toFixed\(1\)\}%, Utilisation: \$\{\(cacheUtilization \* 100\)\.toFixed\(1\)\}%`\);",
     py "logger.info('Monitoring prewarming', {
      metadata: {
        service: 'ContextCacheService',
        operation: 'monitorPrewarmingEffectiveness',
        prewarmingHitRate: (prewarmingHitRate * 100).toFixed(1) + '%',
        cacheUtilization: (cacheUtilization * 100).toFixed(1) + '%'
      }
    });");
    (u "console\.warn\('\[ContextCache\] ⚠️ Efficacité prewarming faible - révision de stratégie recommandée'\);",
     py "logger.warn('Efficacité prewarming faible - révision recommandée', {
      metadata: {
        service: 'ContextCacheService',
        operation: 'monitorPrewarmingEffectiveness'
      }
    });");
    (u "console\.log\('\[ContextCache\] Intégration PredictiveEngine activée pour preloading intelligent'\);",
     py "logger.info('Intégration PredictiveEngine activée', {
      metadata: {
        service: 'ContextCacheService',
        operation: 'integratePredictiveEngine'
      }
    });");
    (u "console\.log\('\[ContextCache\] Preloading prédictif désactivé'\);",
     py "logger.info('Preloading prédictif désactivé', {
      metadata: {
        service: 'ContextCacheService',
        operation: 'preloadContextByPrediction'
      }
    });");
    (u "console\.log\(`\[ContextCache\] Preloading prédictif: \$\{entityType\}:\$\{entityId\} \(priorité: \$\{priority\}\)`\);",
     py "logger.info('Preloading prédictif démarré', {
      metadata: {
        service: 'ContextCacheService',
        operation: 'preloadContextByPrediction',
        entityType,
        entityId,
        priority
      }
    });");
    (u "console\.log\(`\[ContextCache\] Contexte déjà en cache: \$\{entityType\}:\$\{entityId\}`\);",
     py "logger.info('Contexte déjà en cache', {
      metadata: {
        service: 'ContextCacheService',
        operation: 'preloadContextByPrediction',
        entityType,
        entityId
      }
    });");
    (u "console\.log\(`\[ContextCache\] Preloading prédictif complété: \$\{entityType\}:\$\{entityId\} en \$\{duration\}ms`\);",
     py "logger.info('Preloading prédictif complété', {
      metadata: {
        service: 'ContextCacheService',
        operation: 'preloadContextByPrediction',
        entityType,
        entityId,
        durationMs: duration
      }
    });");
    (u "console\.error\(`\[ContextCache\] Erreur preloading prédictif \$\{entityType\}:\$\{entityId\}:`, error\);",
     py "logger.error('Erreur preloading prédictif', {
      metadata: {
        service: 'ContextCacheService',
        operation: 'preloadContextByPrediction',
        entityType,
        entityId,
        error: error instanceof Error ? error.message : String(error),
        stack: error instanceof Error ? error.stack : undefined
      }
    });");
    (u "console\.log\('\[ContextCache\] PredictiveEngine non intégré'\);",
     py "logger.info('PredictiveEngine non intégré', {
      metadata: {
        service: 'ContextCacheService',
        operation: 'integrateHeatMapData'
      }
    });");
    (u "console\.log\('\[ContextCache\] Intégration heat-map pour optimisation cache\.\.\.'\);",
     py "logger.info('Intégration heat-map pour optimisation cache', {
      metadata: {
        service: 'ContextCacheService',
        operation: 'integrateHeatMapData'
      }
    });");
    (u "console\.log\('\[ContextCache\] Intégration heat-map terminée'\);",
     py "logger.info('Intégration heat-map terminée', {
      metadata: {
        service: 'ContextCacheService',
        operation: 'integrateHeatMapData'
      }
    });");
    (u "console\.error\('\[ContextCache\] Erreur intégration heat-map:', error\);",
     py "logger.error('Erreur intégration heat-map', {
      metadata: {
        service: 'ContextCacheService',
        operation: 'integrateHeatMapData',
        error: error instanceof Error ? error.message : String(error),
        stack: error instanceof Error ? error.stack : undefined
      }
    });");
    (u "console\.log\('\[ContextCache\] Optimisation LRU avec scoring prédictif\.\.\.'\);",
     py "logger.info('Optimisation LRU avec scoring prédictif', {
      metadata: {
        service: 'ContextCacheService',
        operation: 'optimizeLRUWithPredictiveScoring'
      }
    });");
    (u "console\.log\(`\[ContextCache\] Éviction prédictive: \$\{item\.key\.substring\(0, 40\)\}\.\.\. \(score: \$\{item\.predictiveScore\}\)`\);",
     py "logger.info('Éviction prédictive', {
      metadata: {
        service: 'ContextCacheService',
        operation: 'optimizeLRUWithPredictiveScoring',
        cacheKey: item.key.substring(0, 40) + '...',
        predictiveScore: item.predictiveScore
      }
    });");
    (u "console\.log\(`\[ContextCache\] Optimisation LRU terminée: \$\{evictedCount\} entrées évincées`\);",
     py "logger.info('Optimisation LRU terminée', {
      metadata: {
        service: 'ContextCacheService',
        operation: 'optimizeLRUWithPredictiveScoring',
        evictedCount
      }
    });");
    (u "console\.error\('\[ContextCache\] Erreur optimisation LRU prédictive:', error\);",
     py "logger.error('Erreur optimisation LRU prédictive', {
      metadata: {
        service: 'ContextCacheService',
        operation: 'optimizeLRUWithPredictiveScoring',
        error: error instanceof Error ? error.message : String(error),
        stack: error instanceof Error ? error.stack : undefined
      }
    });");
    (u "console\.log\(`\[ContextCache\] Preloading \$\{hotEntities\.length\} entités chaudes\.\.\.`\);",
     py "logger.info('Preloading entités chaudes', {
      metadata: {
        service: 'ContextCacheService',
        operation: 'preloadHotEntities',
        hotEntitiesCount: hotEntities.length
      }
    });");
    (u "console\.warn\(`\[ContextCache\] Erreur preloading entité chaude \$\{entity\.entityType\}:\$\{entity\.entityId\}:`, error\);",
     py "logger.warn('Erreur preloading entité chaude', {
      metadata: {
        service: 'ContextCacheService',
        operation: 'preloadHotEntities',
        entityType: entity.entityType,
        entityId: entity.entityId,
        error: error instanceof Error ? error.message : String(error),
        stack: error instanceof Error ? error.stack : undefined
      }
    });");
    (u "console\.log\(`\[ContextCache\] Éviction entité froide: \$\{entityKey\}`\);",
     py "logger.info('Éviction entité froide', {
      metadata: {
        service: 'ContextCacheService',
        operation: 'evictColdEntities',
        entityKey
      }
    });");
    (u "console\.log\(`\[ContextCache\] \$\{evictedCount\} entités froides évincées`\);",
     py "logger.info('Entités froides évincées', {
      metadata: {
        service: 'ContextCacheService',
        operation: 'evictColdEntities',
        evictedCount
      }
    });");
    (u "console\.log\('\[ContextCache\] Mode preloading agressif - heures de pointe'\);",
     py "logger.info('Mode preloading agressif - heures de pointe', {
      metadata: {
        service: 'ContextCacheService',
        operation: 'calculatePreloadingBudget'
      }
    });");
    (u "console\.log\('\[ContextCache\] Mode preloading modéré - horaires business'\);",
     py "logger.info('Mode preloading modéré - horaires business', {
      metadata: {
        service: 'ContextCacheService',
        operation: 'calculatePreloadingBudget'
      }
    });");
    (u "console\.log\('\[ContextCache\] Mode preloading conservateur - hors horaires'\);",
     py "logger.info('Mode preloading conservateur - hors horaires', {
      metadata: {
        service: 'ContextCacheService',
        operation: 'calculatePreloadingBudget'
      }
    });");
    (u "console\.warn\('\[ContextCache\] Erreur récupération score prédictif:', error\);",
     py "logger.warn('Erreur récupération score prédictif', {
      metadata: {
        service: 'ContextCacheService',
        operation: 'getPredictiveScore',
        error: error instanceof Error ? error.message : String(error),
        stack: error instanceof Error ? error.stack : undefined
      }
    });");
    (u "console\.log\(`\[ContextCache\] Contexte prédictif stocké: \$\{cacheKey\} \(TTL: \$\{ttlHours\}h, priorité: \$\{priority\}\)`\);",
     py "logger.info('Contexte prédictif stocké', {
      metadata: {
        service: 'ContextCacheService',
        operation: 'storePredictiveContext',
        cacheKey,
        ttlHours,
        priority
      }
    });");
    (u "console\.log\('\[ContextCache\] Cycles prédictifs automatiques démarrés'\);",
     py "logger.info('Cycles prédictifs automatiques démarrés', {
      metadata: {
        service: 'ContextCacheService',
        operation: 'startPredictiveCycles'
      }
    });");
    (u "console\.log\('\[ContextCache\] Cycle preloading prédictif\.\.\.'\);",
     py "logger.info('Cycle preloading prédictif démarré', {
      metadata: {
        service: 'ContextCacheService',
        operation: 'startPredictiveCycles'
      }
    });");
    (u "console\.log\(`\[ContextCache\] Cycle prédictif terminé: \$\{viablePredictions\.length\} contextes preloadés`\);",
     py "logger.info('Cycle prédictif terminé', {
      metadata: {
        service: 'ContextCacheService',
        operation: 'startPredictiveCycles',
        contextsPreloaded: viablePredictions.length
      }
    });");
    (u "console\.error\('\[ContextCache\] Erreur cycle preloading prédictif:', error\);",
     py "logger.error('Erreur cycle preloading prédictif', {
      metadata: {
        service: 'ContextCacheService',
        operation: 'startPredictiveCycles',
        error: error instanceof Error ? error.message : String(error),
        stack: error instanceof Error ? error.stack : undefined
      }
    });");
    (u "console\.log\(`\[ContextCache\] Preloading prédictif \$\{enabled \? 'ACTIVÉ' : 'DÉSACTIVÉ'\}`\);",
     py "logger.info('État preloading prédictif modifié', {
      metadata: {
        service: 'ContextCacheService',
        operation: 'togglePredictivePreloading',
        enabled
      }
    });") ].

Definition path : string := "server/services/ContextCacheService.ts".

Definition migrate_context_cache : IO unit :=
  content <- read_text path ;;
  if negb (contains (u "import { logger }") content) then
    print (u "ERREUR: Logger non importé dans ContextCacheService!")
  else
    content <- of_re (sub_all context_cache_replacements content) ;;
    write_text path content ;;
    print (u "✅ ContextCacheService.ts migré").

Definition main : IO unit :=
  migrate_context_cache ;;
  print (u "Migration terminée!").

End MigrateConsoleToLogger.

(* ===================================================================== *)
(** * Checking that no console call is left *)
(* ===================================================================== *)

(** [verify] of [migrate_remaining_console.py] and [verify_migrations] of
    [migrate_remaining_services.py] share this loop over [services]. *)
Definition services : list string :=
  [ "server/services/emailService.ts";
    "server/services/PredictiveEngineService.ts";
    "server/services/SQLEngineService.ts" ].

Definition console_pattern : str := u "console\.".

Fixpoint verify_loop (services : list string) (all_success : bool)
  : IO bool :=
  match services with
  | [] => ret all_success
  | service :: rest =>
    content <- read_text service ;;
    r <- of_re (re_compile console_pattern) ;;
    let console_count := List.length (re_findall r content) in
    if Nat.eqb console_count 0 then
      print (u "✅ " ++ u service ++ u ": 0 console.* restants") ;;
      verify_loop rest all_success
    else
      print (u "❌ " ++ u service ++ u ": " ++ str_of_nat console_count
             ++ u " console.* restants") ;;
      verify_loop rest false
  end.

(* ===================================================================== *)
(** * [scripts/python/migrate_remaining_console.py] *)
(* ===================================================================== *)

Module MigrateRemainingConsole.

(** The calls of [re.sub] in the body of [migrate_remaining_email] ([migrate_remaining_console.py]), in order, as (pattern, replacement) *)
Definition remaining_email_subs : table :=
  [ (u "console\.log\('=== FIN INVITATION FOURNISSEUR ===\\n'\);",
     py "logger.info('Fin invitation fournisseur', {
      metadata: {
        service: 'EmailService',
        operation: 'sendSupplierInvitation'
      }
    });");
    (u "console\.log\('\\n=== \[MockEmailService\] RAPPEL EXPIRATION \(Handlebars\) ==='\);",
     py "logger.info('Rappel expiration', {
      metadata: {
        service: 'EmailService',
        operation: 'sendSessionReminder',
        templateEngine: 'Handlebars'
      }
    });");
    (u "console\.log\('📧 Destinataire:', contactEmail, `\(\$\{contactName\}\)`\);",
     py "logger.info('Destinataire', {
      metadata: {
        service: 'EmailService',
        operation: 'sendSessionReminder',
        recipient: contactEmail,
        contactName
      }
    });");
    (u "console\.log\('📧 AO:', aoReference\);",
     py "logger.info('AO référence', {
      metadata: {
        service: 'EmailService',
        operation: 'sendSessionReminder',
        aoReference
      }
    });");
    (u "console\.log\('📧 Temps restant:', timeRemaining\);",
     py "logger.info('Temps restant', {
      metadata: {
        service: 'EmailService',
        operation: 'sendSessionReminder',
        timeRemaining
      }
    });");
    (u "console\.log\('📧 URL d\\'accès:', accessUrl\);",
     py "logger.info('URL accès', {
      metadata: {
        service: 'EmailService',
        operation: 'sendSessionReminder',
        accessUrl
      }
    });");
    (u "console\.log\('=== FIN RAPPEL EXPIRATION ===\\n'\);",
     py "logger.info('Fin rappel expiration', {
      metadata: {
        service: 'EmailService',
        operation: 'sendSessionReminder'
      }
    });");
    (u "console\.log\('\\n=== \[MockEmailService\] CONFIRMATION DOCUMENT \(Handlebars\) ==='\);",
     py "logger.info('Confirmation document', {
      metadata: {
        service: 'EmailService',
        operation: 'sendDocumentReceived',
        templateEngine: 'Handlebars'
      }
    });");
    (u "console\.log\('📧 Document:', documentName\);",
     py "logger.info('Document', {
      metadata: {
        service: 'EmailService',
        operation: 'sendDocumentReceived',
        documentName
      }
    });");
    (u "console\.log\('📧 Date upload:', uploadDate\);",
     py "logger.info('Date upload', {
      metadata: {
        service: 'EmailService',
        operation: 'sendDocumentReceived',
        uploadDate
      }
    });");
    (u "console\.log\('=== FIN CONFIRMATION DOCUMENT ===\\n'\);",
     py "logger.info('Fin confirmation document', {
      metadata: {
        service: 'EmailService',
        operation: 'sendDocumentReceived'
      }
    });");
    (u "console\.warn\('\[SendGridEmailService\] SendGrid API key non configurée - utiliser MockEmailService pour le développement'\);",
     py "logger.warn('SendGrid API key non configurée', {
      metadata: {
        service: 'EmailService',
        operation: 'constructor',
        provider: 'SendGrid'
      }
    });");
    (u "console\.log\('\[SendGridEmailService\] Service email SendGrid configuré avec succès'\);",
     py "logger.info('Service email SendGrid configuré', {
      metadata: {
        service: 'EmailService',
        operation: 'constructor',
        provider: 'SendGrid'
      }
    });");
    (u "console\.log\('\[SendGridEmailService\] SIMULATION - Email qui serait envoyé via SendGrid \(Handlebars\):', \{",
     py "logger.info('SIMULATION Email SendGrid', {
      metadata: {
        service: 'EmailService',
        operation: 'sendSupplierInvitation',
        provider: 'SendGrid',
        simulationData: {");
    (u "console\.log\('\[SendGridEmailService\] ✅ Instructions détectées - rendu conditionnel activé'\);",
     py "logger.info('Instructions détectées - rendu conditionnel activé', {
      metadata: {
        service: 'EmailService',
        operation: 'sendSupplierInvitation',
        provider: 'SendGrid'
      }
    });");
    (u "console\.log\('\[SendGridEmailService\] ❌ Pas d\\'instructions - bloc conditionnel masqué'\);",
     py "logger.info('Pas d\\'instructions - bloc conditionnel masqué', {
      metadata: {
        service: 'EmailService',
        operation: 'sendSupplierInvitation',
        provider: 'SendGrid'
      }
    });");
    (u "console\.error\('\[SendGridEmailService\] Erreur envoi email:', error\);",
     py "logger.error('Erreur envoi email', {
      metadata: {
        service: 'EmailService',
        operation: 'sendSupplierInvitation',
        provider: 'SendGrid',
        error: error instanceof Error ? error.message : String(error),
        stack: error instanceof Error ? error.stack : undefined
      }
    });");
    (u "console\.log\(`\[EmailServiceFactory\] Initialisation du service email: \$\{provider\}`\);",
     py "logger.info('Initialisation du service email', {
      metadata: {
        service: 'EmailService',
        operation: 'createEmailService',
        provider
      }
    });");
    (u "console\.log\(`\[EmailService\] Service actif: \$\{emailService\.constructor\.name\}`\);",
     py "logger.info('Service actif', {
      metadata: {
        service: 'EmailService',
        operation: 'init',
        serviceName: emailService.constructor.name
      }
    });") ].

(** The calls of [re.sub] in the body of [migrate_remaining_predictive] ([migrate_remaining_console.py]), in order, as (pattern, replacement) *)
Definition remaining_predictive_subs : table :=
  [ (u "console\.error\('\[PredictiveEngine\] Erreur récupération historique revenues:', error\);",
     py "logger.error('Erreur récupération historique revenues', {
      metadata: {
        service: 'PredictiveEngineService',
        operation: 'getMonthlyRevenueHistory',
        error: error instanceof Error ? error.message : String(error),
        stack: error instanceof Error ? error.stack : undefined
      }
    });");
    (u "console\.error\('\[PredictiveEngine\] Erreur récupération historique délais:', error\);",
     py "logger.error('Erreur récupération historique délais', {
      metadata: {
        service: 'PredictiveEngineService',
        operation: 'getProjectDelayHistory',
        error: error instanceof Error ? error.message : String(error),
        stack: error instanceof Error ? error.stack : undefined
      }
    });");
    (u "console\.error\('\[PredictiveEngine\] Erreur prédiction heat-map:', error\);",
     py "logger.error('Erreur prédiction heat-map', {
      metadata: {
        service: 'PredictiveEngineService',
        operation: 'predictFromHeatMap',
        error: error instanceof Error ? error.message : String(error),
        stack: error instanceof Error ? error.stack : undefined
      }
    });");
    (u "console\.error\(`\[PredictiveEngine\] Erreur tâche preloading \$\{task\.id\}:`, error\);",
     py "logger.error('Erreur tâche preloading', {
      metadata: {
        service: 'PredictiveEngineService',
        operation: 'executeHighPriorityTasks',
        taskId: task.id,
        error: error instanceof Error ? error.message : String(error),
        stack: error instanceof Error ? error.stack : undefined
      }
    });");
    (u "console\.log\(`\[PredictiveEngine\] Exécution preloading \$\{task\.entityType\}:\$\{task\.entityId\}`\);",
     py "logger.info('Exécution preloading', {
      metadata: {
        service: 'PredictiveEngineService',
        operation: 'executePreloadTask',
        entityType: task.entityType,
        entityId: task.entityId
      }
    });");
    (u "console\.log\(`\[PredictiveEngine\] Preloading complété: \$\{task\.entityType\}:\$\{task\.entityId\}`\);",
     py "logger.info('Preloading complété', {
      metadata: {
        service: 'PredictiveEngineService',
        operation: 'executePreloadTask',
        entityType: task.entityType,
        entityId: task.entityId
      }
    });");
    (u "console\.error\(`\[PredictiveEngine\] Erreur preloading \$\{task\.id\}:`, error\);",
     py "logger.error('Erreur preloading', {
      metadata: {
        service: 'PredictiveEngineService',
        operation: 'executePreloadTask',
        taskId: task.id,
        error: error instanceof Error ? error.message : String(error),
        stack: error instanceof Error ? error.stack : undefined
      }
    });");
    (u "console\.error\(`\[PredictiveEngine\] Erreur tâche différée \$\{task\.id\}:`, error\);",
     py "logger.error('Erreur tâche différée', {
      metadata: {
        service: 'PredictiveEngineService',
        operation: 'scheduleDelayedTasks',
        taskId: task.id,
        error: error instanceof Error ? error.message : String(error),
        stack: error instanceof Error ? error.stack : undefined
      }
    });");
    (u "console\.log\(`\[PredictiveEngine\] Cleanup accès entités: \$\{deletedCount\} entrées supprimées`\);",
     py "logger.info('Cleanup accès entités', {
      metadata: {
        service: 'PredictiveEngineService',
        operation: 'cleanupStaleEntityAccess',
        deletedCount
      }
    });");
    (u "console\.log\('\[PredictiveEngine\] Mise à jour patterns BTP\.\.\.'\);",
     py "logger.info('Mise à jour patterns BTP', {
      metadata: {
        service: 'PredictiveEngineService',
        operation: 'updateBTPPatterns'
      }
    });");
    (u "console\.log\('\[PredictiveEngine\] Patterns BTP mis à jour'\);",
     py "logger.info('Patterns BTP mis à jour', {
      metadata: {
        service: 'PredictiveEngineService',
        operation: 'updateBTPPatterns'
      }
    });");
    (u "console\.error\('\[PredictiveEngine\] Erreur mise à jour patterns BTP:', error\);",
     py "logger.error('Erreur mise à jour patterns BTP', {
      metadata: {
        service: 'PredictiveEngineService',
        operation: 'updateBTPPatterns',
        error: error instanceof Error ? error.message : String(error),
        stack: error instanceof Error ? error.stack : undefined
      }
    });");
    (u "console\.log\(`\[PredictiveEngine\] Preloading \$\{enabled \? 'ACTIVÉ' : 'DÉSACTIVÉ'\}`\);",
     py "logger.info('État preloading', {
      metadata: {
        service: 'PredictiveEngineService',
        operation: 'togglePredictivePreloading',
        enabled: enabled ? 'ACTIVÉ' : 'DÉSACTIVÉ'
      }
    });") ].

(** The calls of [re.sub] in the body of [migrate_remaining_sql] ([migrate_remaining_console.py]), in order, as (pattern, replacement) *)
Definition remaining_sql_subs : table :=
  [ (u "console\.log\(`\[SQLSecurity\] SQL à valider: \$\{sql\.substring\(0, 200\)\}\$\{sql\.length > 200 \? '\.\.\.': ''\}`\);",
     py "logger.info('SQL à valider', {
      metadata: {
        service: 'SQLEngineService',
        operation: 'validateSQL',
        sqlPreview: sql.substring(0, 200) + (sql.length > 200 ? '...' : '')
      }
    });");
    (u "console\.log\(`\[SQLSecurity\] ✓ SQL nettoyé \(\$\{cleanedSQL\.length\} chars\): \$\{cleanedSQL\.substring\(0, 150\)\}\$\{cleanedSQL\.length > 150 \? '\.\.\.': ''\}`\);",
     py "logger.info('SQL nettoyé', {
      metadata: {
        service: 'SQLEngineService',
        operation: 'validateSQL',
        cleanedSQLLength: cleanedSQL.length,
        cleanedSQLPreview: cleanedSQL.substring(0, 150) + (cleanedSQL.length > 150 ? '...' : '')
      }
    });");
    (u "console\.log\(`\[SQLSecurity\] Étape 4: Validation des colonnes\.\.\.`\);",
     py "logger.info('Validation des colonnes', {
      metadata: {
        service: 'SQLEngineService',
        operation: 'validateSQL',
        step: 4
      }
    });");
    (u "console\.log\(`\[SQLSecurity\] Colonnes extraites: \$\{columnsInQuery\.length\} colonne\(s\)`\);",
     py "logger.info('Colonnes extraites', {
      metadata: {
        service: 'SQLEngineService',
        operation: 'validateSQL',
        columnsCount: columnsInQuery.length
      }
    });");
    (u "console\.log\(`\[SQLSecurity\] Étape 5: Détection patterns d'injection\.\.\.`\);",
     py "logger.info('Détection patterns d\\'injection', {
      metadata: {
        service: 'SQLEngineService',
        operation: 'validateSQL',
        step: 5
      }
    });");
    (u "console\.log\(`\[SQLSecurity\] ✗ Patterns d'injection détectés: \$\{violations\.slice\(injectionViolationsBefore\)\.join\(', '\)\}`\);",
     py "logger.warn('Patterns d\\'injection détectés', {
      metadata: {
        service: 'SQLEngineService',
        operation: 'validateSQL',
        patterns: violations.slice(injectionViolationsBefore).join(', ')
      }
    });");
    (u "console\.log\(`\[SQLSecurity\] ✓ Aucun pattern d'injection détecté`\);",
     py "logger.info('Aucun pattern d\\'injection détecté', {
      metadata: {
        service: 'SQLEngineService',
        operation: 'validateSQL'
      }
    });");
    (u "console\.log\(`\[SQLSecurity\] Étape 6: Validation contraintes métier\.\.\.`\);",
     py "logger.info('Validation contraintes métier', {
      metadata: {
        service: 'SQLEngineService',
        operation: 'validateSQL',
        step: 6
      }
    });");
    (u "console\.log\(`\[SQLSecurity\] ✗ Contraintes métier violées: \$\{violations\.slice\(businessViolationsBefore\)\.join\(', '\)\}`\);",
     py "logger.warn('Contraintes métier violées', {
      metadata: {
        service: 'SQLEngineService',
        operation: 'validateSQL',
        violations: violations.slice(businessViolationsBefore).join(', ')
      }
    });");
    (u "console\.log\(`\[SQLSecurity\] ✓ Contraintes métier respectées`\);",
     py "logger.info('Contraintes métier respectées', {
      metadata: {
        service: 'SQLEngineService',
        operation: 'validateSQL'
      }
    });");
    (u "console\.log\(`\[SQLSecurity\] ✗ ERREUR PARSING: \$\{violation\}`\);",
     py "logger.error('Erreur parsing SQL', {
      metadata: {
        service: 'SQLEngineService',
        operation: 'validateSQL',
        violation
      }
    });");
    (u "console\.log\(`\[SQLSecurity\] SQL problématique: \$\{sql\}`\);",
     py "logger.error('SQL problématique', {
      metadata: {
        service: 'SQLEngineService',
        operation: 'validateSQL',
        sql
      }
    });");
    (u "console\.log\(`\[SQLSecurity\] ═══════════════════════════════════════════`\);",
     []);
    (u "console\.log\(`\[SQLSecurity\] Résultat final: \$\{isSecure \? '✓ SÉCURISÉ' : '✗ REJETÉ'\}`\);",
     py "logger.info('Résultat validation SQL', {
      metadata: {
        service: 'SQLEngineService',
        operation: 'validateSQL',
        result: isSecure ? 'SÉCURISÉ' : 'REJETÉ'
      }
    });");
    (u "console\.log\(`\[SQLSecurity\] Violations: \$\{violations\.length\}`\);",
     py "logger.info('Violations count', {
      metadata: {
        service: 'SQLEngineService',
        operation: 'validateSQL',
        violationsCount: violations.length
      }
    });");
    (u "console\.log\(`\[SQLSecurity\] Détail violations:`\);",
     py "logger.info('Détail violations', {
      metadata: {
        service: 'SQLEngineService',
        operation: 'validateSQL'
      }
    });");
    (u "violations\.forEach\(\(v, i\) => console\.log\(`\[SQLSecurity\]   \$\{i \+ 1\}\. \$\{v\}`\)\);",
     py "violations.forEach((v, i) => logger.info('Violation', {
        metadata: {
          service: 'SQLEngineService',
          operation: 'validateSQL',
          index: i + 1,
          violation: v
        }
      }));");
    (u "console\.log\('\[SQLEngine\] Note: Filtre user_id manquant, sera ajouté par RBAC'\);",
     py "logger.info('Filtre user_id manquant, sera ajouté par RBAC', {
      metadata: {
        service: 'SQLEngineService',
        operation: 'generateIntelligentContext'
      }
    });");
    (u "console\.log\('\[SQLEngine\] Query échouée après timeout \(ignorée\):', err\.message\);",
     py "logger.warn('Query échouée après timeout', {
      metadata: {
        service: 'SQLEngineService',
        operation: 'executeNaturalLanguageQuery',
        error: err.message
      }
    });");
    (u "console\.log\(`\[SQLEngine\] Query \$\{queryId\} executed in \$\{Date\.now\(\) - startTime\}ms, \$\{resultCount\} results`\);",
     py "logger.info('Query executed', {
      metadata: {
        service: 'SQLEngineService',
        operation: 'executeNaturalLanguageQuery',
        queryId,
        durationMs: Date.now() - startTime,
        resultsCount: resultCount
      }
    });");
    (u "console\.error\('\[SQLEngine\] Erreur logging:', error\);",
     py "logger.error('Erreur logging', {
      metadata: {
        service: 'SQLEngineService',
        operation: 'logQueryToAudit',
        error: error instanceof Error ? error.message : String(error),
        stack: error instanceof Error ? error.stack : undefined
      }
    });");
    (u "\n\s*\n\s*\n",
     py "\n\n") ].

(** The three functions have the same shape: read, substitute, write,
    print; none of them looks for the import of the logger. *)
Definition migrate_remaining (path : string) (subs : table) (done : str)
  : IO unit :=
  content <- read_text path ;;
  content <- of_re (sub_all subs content) ;;
  write_text path content ;;
  print done.

Definition migrate_remaining_email : IO unit :=
  migrate_remaining "server/services/emailService.ts" remaining_email_subs
    (u "✅ emailService.ts - console.* restants migrés").

Definition migrate_remaining_predictive : IO unit :=
  migrate_remaining "server/services/PredictiveEngineService.ts"
    remaining_predictive_subs
    (u "✅ PredictiveEngineService.ts - console.* restants migrés").

Definition migrate_remaining_sql : IO unit :=
  migrate_remaining "server/services/SQLEngineService.ts" remaining_sql_subs
    (u "✅ SQLEngineService.ts - console.* restants migrés").

Definition verify : IO bool := verify_loop services true.

Definition main : IO unit :=
  print (u "🚀 Migration des console.* restants...") ;;
  migrate_remaining_email ;;
  migrate_remaining_predictive ;;
  migrate_remaining_sql ;;
  print (py "\n🔍 Vérification finale...") ;;
  ok <- verify ;;
  if ok then print (py "\n🎉 Tous les console.* ont été migrés avec succès!")
  else print (py "\n⚠️  Certains console.* restent encore").

End MigrateRemainingConsole.

(* ===================================================================== *)
(** * [scripts/python/migrate_remaining_services.py] *)
(* ===================================================================== *)

Module MigrateRemainingServices.

(** The list [replacements] of [migrate_email_service] ([migrate_remaining_services.py]) *)
Definition email_service_replacements : table :=
  [ (u "console\.error\('\[HandlebarsTemplateService\] Erreur lors du rendu du template:', error\);",
     py "logger.error('Erreur rendu template', {
        metadata: {
          service: 'EmailService',
          operation: 'renderTemplate',
          error: error instanceof Error ? error.message : String(error),
          stack: error instanceof Error ? error.stack : undefined
        }
      });");
    (u "console\.error\('Template content:', templateContent\.substring\(0, 200\) \+ '\.\.\.'\);",
     py "logger.error('Template content preview', {
        metadata: {
          service: 'EmailService',
          operation: 'renderTemplate',
          templatePreview: templateContent.substring(0, 200) + '...'
        }
      });");
    (u "console\.error\('Data provided:', JSON\.stringify\(data, null, 2\)\);",
     py "logger.error('Template data provided', {
        metadata: {
          service: 'EmailService',
          operation: 'renderTemplate',
          data: JSON.stringify(data, null, 2)
        }
      });");
    (u "console\.warn\('\[HandlebarsTemplateService\] Utilisation du fallback naïf'\);",
     py "logger.warn('Utilisation du fallback naïf', {
        metadata: {
          service: 'EmailService',
          operation: 'renderTemplate'
        }
      });");
    (u "console\.log\('\[MockEmailService\] Service email MOCK initialisé pour le développement'\);",
     py "logger.info('Service email MOCK initialisé', {
        metadata: {
          service: 'EmailService',
          operation: 'constructor'
        }
      });");
    (u "console\.log\('\\n=== \[MockEmailService\] INVITATION FOURNISSEUR \(Handlebars\) ==='\);",
     py "logger.info('Envoi invitation fournisseur', {
        metadata: {
          service: 'EmailService',
          operation: 'sendSupplierInvitation',
          templateEngine: 'Handlebars'
        }
      });");
    (u "console\.log\('📧 Destinataire:', data\.contactEmail, `\(\$\{data\.contactName\}\)`\);",
     py "logger.info('Destinataire', {
        metadata: {
          service: 'EmailService',
          operation: 'sendSupplierInvitation',
          recipient: data.contactEmail,
          contactName: data.contactName
        }
      });");
    (u "console\.log\('📧 Sujet:', subject\);",
     py "logger.info('Sujet email', {
        metadata: {
          service: 'EmailService',
          operation: 'sendSupplierInvitation',
          subject
        }
      });");
    (u "console\.log\('📧 Fournisseur:', data\.supplierName\);",
     py "logger.info('Fournisseur', {
        metadata: {
          service: 'EmailService',
          operation: 'sendSupplierInvitation',
          supplierName: data.supplierName
        }
      });");
    (u "console\.log\('📧 AO:', data\.aoReference\);",
     py "logger.info('AO référence', {
        metadata: {
          service: 'EmailService',
          operation: 'sendSupplierInvitation',
          aoReference: data.aoReference
        }
      });");
    (u "console\.log\('📧 Lot:', data\.lotDescription\);",
     py "logger.info('Lot description', {
        metadata: {
          service: 'EmailService',
          operation: 'sendSupplierInvitation',
          lotDescription: data.lotDescription
        }
      });");
    (u "console\.log\('📧 URL d\\'accès:', data\.accessUrl\);",
     py "logger.info('URL accès', {
        metadata: {
          service: 'EmailService',
          operation: 'sendSupplierInvitation',
          accessUrl: data.accessUrl
        }
      });");
    (u "console\.log\('📧 Expiration:', data\.expirationDate\);",
     py "logger.info('Date expiration', {
        metadata: {
          service: 'EmailService',
          operation: 'sendSupplierInvitation',
          expirationDate: data.expirationDate
        }
      });");
    (u "console\.log\('📧 Instructions:', data\.instructions\);",
     py "logger.info('Instructions incluses', {
        metadata: {
          service: 'EmailService',
          operation: 'sendSupplierInvitation',
          instructions: data.instructions
        }
      });");
    (u "console\.log\('📧 ✅ Instructions incluses dans le rendu conditionnel'\);",
     py "logger.info('Instructions incluses dans rendu', {
        metadata: {
          service: 'EmailService',
          operation: 'sendSupplierInvitation',
          conditionalRender: true
        }
      });");
    (u "console\.log\('📧 ❌ Pas d\\'instructions - bloc conditionnel masqué'\);",
     py "logger.info('Pas d\\'instructions - bloc masqué', {
        metadata: {
          service: 'EmailService',
          operation: 'sendSupplierInvitation',
          conditionalRender: false
        }
      });");
    (u "console\.log\('📧 Template HTML rendu avec Handlebars \(', htmlContent\.length, 'caractères\)'\);",
     py "logger.info('Template HTML rendu', {
        metadata: {
          service: 'EmailService',
          operation: 'sendSupplierInvitation',
          htmlLength: htmlContent.length,
          templateEngine: 'Handlebars'
        }
      });");
    (u "console\.log\('📧 Template TEXT rendu avec Handlebars \(', textContent\.length, 'caractères\)'\);",
     py "logger.info('Template TEXT rendu', {
        metadata: {
          service: 'EmailService',
          operation: 'sendSupplierInvitation',
          textLength: textContent.length,
          templateEngine: 'Handlebars'
        }
      });");
    (u "console\.log\('📧 APERÇU RENDU HTML:'\);",
     py "logger.info('Aperçu rendu HTML', {
        metadata: {
          service: 'EmailService',
          operation: 'sendSupplierInvitation'
        }
      });");
    (u "console\.log\(htmlPreview\.substring\(0, 500\) \+ '\.\.\.'\);",
     py "logger.info('HTML preview', {
        metadata: {
          service: 'EmailService',
          operation: 'sendSupplierInvitation',
          htmlPreview: htmlPreview.substring(0, 500) + '...'
        }
      });") ].

(** The calls of [re.sub] in the body of [migrate_email_service] ([migrate_remaining_services.py]), in order, as (pattern, replacement) *)
Definition email_service_subs : table :=
  [ (u "console\.log\('=== FIN INVITATION FOURNISSEUR ==='\);",
     py "logger.info('Fin invitation fournisseur', {
      metadata: {
        service: 'EmailService',
        operation: 'sendSupplierInvitation'
      }
    });");
    (u "console\.log\(`\[MockEmailService\] 📩 SESSION REMINDER FOURNISSEUR`\);",
     py "logger.info('Session reminder fournisseur', {
      metadata: {
        service: 'EmailService',
        operation: 'sendSessionReminder'
      }
    });");
    (u "console\.log\(`\[MockEmailService\] 📄 DOCUMENT RECEIVED CONFIRMATION`\);",
     py "logger.info('Document received confirmation', {
      metadata: {
        service: 'EmailService',
        operation: 'sendDocumentReceived'
      }
    });");
    (u "console\.log\(`\[SendGridEmailService\] Email envoyé avec succès`\);",
     py "logger.info('Email envoyé avec succès', {
      metadata: {
        service: 'EmailService',
        operation: 'sendSupplierInvitation',
        provider: 'SendGrid'
      }
    });");
    (u "console\.log\(`\[SendGridEmailService\] Message ID: \$\{messageId\}`\);",
     py "logger.info('Message ID', {
      metadata: {
        service: 'EmailService',
        operation: 'sendSupplierInvitation',
        provider: 'SendGrid',
        messageId
      }
    });");
    (u "console\.error\(`\[SendGridEmailService\] Erreur lors de l'envoi:`, error\);",
     py "logger.error('Erreur envoi email', {
      metadata: {
        service: 'EmailService',
        operation: 'sendSupplierInvitation',
        provider: 'SendGrid',
        error: error instanceof Error ? error.message : String(error),
        stack: error instanceof Error ? error.stack : undefined
      }
    });");
    (u "console\.log\(`\[EmailService\] Rappels programmés pour session \$\{session\.id\}`\);",
     py "logger.info('Rappels programmés', {
      metadata: {
        service: 'EmailService',
        operation: 'scheduleSessionReminders',
        sessionId: session.id
      }
    });") ].

(** The list [replacements] of [migrate_predictive_engine] ([migrate_remaining_services.py]) *)
Definition predictive_engine_replacements : table :=
  [ (u "console\.log\('\[PredictiveEngine\] Service initialisé avec preloading prédictif activé'\);",
     py "logger.info('Service initialisé avec preloading prédictif', {
      metadata: {
        service: 'PredictiveEngineService',
        operation: 'constructor'
      }
    });");
    (u "console\.log\('\[PredictiveEngine\] Cache hit pour forecast revenue'\);",
     py "logger.info('Cache hit', {
      metadata: {
        service: 'PredictiveEngineService',
        operation: 'forecastRevenue',
        cacheHit: true
      }
    });");
    (u "console\.log\('\[PredictiveEngine\] Calcul forecast revenue:', params\);",
     py "logger.info('Calcul forecast revenue', {
      metadata: {
        service: 'PredictiveEngineService',
        operation: 'forecastRevenue',
        params
      }
    });");
    (u "console\.log\('\[PredictiveEngine\] Aucune donnée historique trouvée'\);",
     py "logger.info('Aucune donnée historique trouvée', {
      metadata: {
        service: 'PredictiveEngineService',
        operation: 'forecastRevenue'
      }
    });");
    (u "console\.log\('\[PredictiveEngine\] Forecast calculé:', results\.length, 'prévisions'\);",
     py "logger.info('Forecast calculé', {
      metadata: {
        service: 'PredictiveEngineService',
        operation: 'forecastRevenue',
        forecastCount: results.length
      }
    });");
    (u "console\.error\('\[PredictiveEngine\] Erreur calcul forecast revenue:', error\);",
     py "logger.error('Erreur calcul forecast revenue', {
      metadata: {
        service: 'PredictiveEngineService',
        operation: 'forecastRevenue',
        error: error instanceof Error ? error.message : String(error),
        stack: error instanceof Error ? error.stack : undefined
      }
    });");
    (u "console\.log\('\[PredictiveEngine\] Cache hit pour project risks'\);",
     py "logger.info('Cache hit', {
      metadata: {
        service: 'PredictiveEngineService',
        operation: 'detectProjectRisks',
        cacheHit: true
      }
    });");
    (u "console\.log\('\[PredictiveEngine\] Détection risques projets:', params\);",
     py "logger.info('Détection risques projets', {
      metadata: {
        service: 'PredictiveEngineService',
        operation: 'detectProjectRisks',
        params
      }
    });");
    (u "console\.log\('\[PredictiveEngine\] Risques détectés:', results\.length, 'projets à risque'\);",
     py "logger.info('Risques détectés', {
      metadata: {
        service: 'PredictiveEngineService',
        operation: 'detectProjectRisks',
        risksCount: results.length
      }
    });");
    (u "console\.error\('\[PredictiveEngine\] Erreur détection risques:', error\);",
     py "logger.error('Erreur détection risques', {
      metadata: {
        service: 'PredictiveEngineService',
        operation: 'detectProjectRisks',
        error: error instanceof Error ? error.message : String(error),
        stack: error instanceof Error ? error.stack : undefined
      }
    });");
    (u "console\.log\('\[PredictiveEngine\] Cache hit pour recommendations'\);",
     py "logger.info('Cache hit', {
      metadata: {
        service: 'PredictiveEngineService',
        operation: 'generateBusinessRecommendations',
        cacheHit: true
      }
    });");
    (u "console\.log\('\[PredictiveEngine\] Génération recommandations business:', context\);",
     py "logger.info('Génération recommandations business', {
      metadata: {
        service: 'PredictiveEngineService',
        operation: 'generateBusinessRecommendations',
        context
      }
    });");
    (u "console\.log\('\[PredictiveEngine\] Recommandations générées:', filteredRecs\.length, 'actions'\);",
     py "logger.info('Recommandations générées', {
      metadata: {
        service: 'PredictiveEngineService',
        operation: 'generateBusinessRecommendations',
        recommendationsCount: filteredRecs.length
      }
    });");
    (u "console\.error\('\[PredictiveEngine\] Erreur génération recommandations:', error\);",
     py "logger.error('Erreur génération recommandations', {
      metadata: {
        service: 'PredictiveEngineService',
        operation: 'generateBusinessRecommendations',
        error: error instanceof Error ? error.message : String(error),
        stack: error instanceof Error ? error.stack : undefined
      }
    });");
    (u "console\.error\('\[PredictiveEngine\] Erreur récupération KPIs:', error\);",
     py "logger.error('Erreur récupération KPIs', {
      metadata: {
        service: 'PredictiveEngineService',
        operation: 'getCurrentKPIs',
        error: error instanceof Error ? error.message : String(error),
        stack: error instanceof Error ? error.stack : undefined
      }
    });");
    (u "console\.error\('\[PredictiveEngine\] Erreur récupération benchmarks:', error\);",
     py "logger.error('Erreur récupération benchmarks', {
      metadata: {
        service: 'PredictiveEngineService',
        operation: 'getIndustryBenchmarks',
        error: error instanceof Error ? error.message : String(error),
        stack: error instanceof Error ? error.stack : undefined
      }
    });");
    (u "console\.error\('\[PredictiveEngine\] Erreur recommandations planning:', error\);",
     py "logger.error('Erreur recommandations planning', {
      metadata: {
        service: 'PredictiveEngineService',
        operation: 'generatePlanningRecommendations',
        error: error instanceof Error ? error.message : String(error),
        stack: error instanceof Error ? error.stack : undefined
      }
    });");
    (u "console\.log\(`\[PredictiveEngine\] Cache hit pour \$\{key\} \(\$\{entry\.hit_count\} hits\)`\);",
     py "logger.info('Cache hit', {
      metadata: {
        service: 'PredictiveEngineService',
        operation: 'getCachedEntry',
        cacheKey: key,
        hitCount: entry.hit_count
      }
    });");
    (u "console\.log\(`\[PredictiveEngine\] Cache set pour \$\{key\} \(TTL: \$\{ttlMinutes\}min\)`\);",
     py "logger.info('Cache set', {
      metadata: {
        service: 'PredictiveEngineService',
        operation: 'setCacheEntry',
        cacheKey: key,
        ttlMinutes
      }
    });");
    (u "console\.log\(`\[PredictiveEngine\] Cache cleanup: \$\{deletedCount\} entrées supprimées`\);",
     py "logger.info('Cache cleanup', {
      metadata: {
        service: 'PredictiveEngineService',
        operation: 'cleanupCache',
        deletedCount
      }
    });") ].

(** The calls of [re.sub] in the body of [migrate_predictive_engine] ([migrate_remaining_services.py]), in order, as (pattern, replacement) *)
Definition predictive_engine_subs : table :=
  [ (u "console\.log\('\[PredictiveEngine\] Génération heat-map entités\.\.\.'\);",
     py "logger.info('Génération heat-map entités', {
      metadata: {
        service: 'PredictiveEngineService',
        operation: 'generateEntityHeatMap'
      }
    });");
    (u "console\.log\('\[PredictiveEngine\] Cache hit pour entity heatmap'\);",
     py "logger.info('Cache hit pour entity heatmap', {
      metadata: {
        service: 'PredictiveEngineService',
        operation: 'generateEntityHeatMap',
        cacheHit: true
      }
    });");
    (u "console\.log\(`\[PredictiveEngine\] Heat-map générée: \$\{hotEntities\.length\} entités chaudes, \$\{coldEntities\.length\} froides`\);",
     py "logger.info('Heat-map générée', {
      metadata: {
        service: 'PredictiveEngineService',
        operation: 'generateEntityHeatMap',
        hotEntitiesCount: hotEntities.length,
        coldEntitiesCount: coldEntities.length
      }
    });");
    (u "console\.error\('\[PredictiveEngine\] Erreur génération heat-map:', error\);",
     py "logger.error('Erreur génération heat-map', {
      metadata: {
        service: 'PredictiveEngineService',
        operation: 'generateEntityHeatMap',
        error: error instanceof Error ? error.message : String(error),
        stack: error instanceof Error ? error.stack : undefined
      }
    });");
    (u "console\.log\('\[PredictiveEngine\] Prédiction accès entités pour utilisateur:', userId\);",
     py "logger.info('Prédiction accès entités', {
      metadata: {
        service: 'PredictiveEngineService',
        operation: 'predictNextEntityAccess',
        userId
      }
    });");
    (u "console\.log\(`\[PredictiveEngine\] \$\{filteredPredictions\.length\} prédictions générées \(confiance ≥\$\{this\.PRELOADING_CONFIDENCE_THRESHOLD\}%\)`\);",
     py "logger.info('Prédictions générées', {
      metadata: {
        service: 'PredictiveEngineService',
        operation: 'predictNextEntityAccess',
        predictionsCount: filteredPredictions.length,
        confidenceThreshold: this.PRELOADING_CONFIDENCE_THRESHOLD
      }
    });");
    (u "console\.error\('\[PredictiveEngine\] Erreur prédiction accès:', error\);",
     py "logger.error('Erreur prédiction accès', {
      metadata: {
        service: 'PredictiveEngineService',
        operation: 'predictNextEntityAccess',
        error: error instanceof Error ? error.message : String(error),
        stack: error instanceof Error ? error.stack : undefined
      }
    });");
    (u "console\.log\('\[PredictiveEngine\] Preloading désactivé ou ContextCache non disponible'\);",
     py "logger.info('Preloading désactivé ou ContextCache non disponible', {
      metadata: {
        service: 'PredictiveEngineService',
        operation: 'schedulePreloadTasks'
      }
    });");
    (u "console\.log\('\[PredictiveEngine\] Programmation tâches preloading pour', predictions\.length, 'prédictions'\);",
     py "logger.info('Programmation tâches preloading', {
      metadata: {
        service: 'PredictiveEngineService',
        operation: 'schedulePreloadTasks',
        predictionsCount: predictions.length
      }
    });");
    (u "console\.log\(`\[PredictiveEngine\] \$\{newTasks\.length\} nouvelles tâches programmées`\);",
     py "logger.info('Nouvelles tâches programmées', {
      metadata: {
        service: 'PredictiveEngineService',
        operation: 'schedulePreloadTasks',
        newTasksCount: newTasks.length
      }
    });");
    (u "console\.error\('\[PredictiveEngine\] Erreur programmation tâches preloading:', error\);",
     py "logger.error('Erreur programmation tâches preloading', {
      metadata: {
        service: 'PredictiveEngineService',
        operation: 'schedulePreloadTasks',
        error: error instanceof Error ? error.message : String(error),
        stack: error instanceof Error ? error.stack : undefined
      }
    });");
    (u "console\.log\('\[PredictiveEngine\] Intégration ContextCacheService activée pour preloading'\);",
     py "logger.info('Intégration ContextCacheService activée', {
      metadata: {
        service: 'PredictiveEngineService',
        operation: 'integrateWithContextCache'
      }
    });") ].

(** The list [replacements] of [migrate_sql_engine] ([migrate_remaining_services.py]) *)
Definition sql_engine_replacements : table :=
  [ (u "console\.log\(`\[SQLEngine\] Démarrage requête \$\{queryId\} pour utilisateur \$\{request\.userId\}`\);",
     py "logger.info('Démarrage requête', {
      metadata: {
        service: 'SQLEngineService',
        operation: 'executeNaturalLanguageQuery',
        queryId,
        userId: request.userId
      }
    });");
    (u "console\.log\(`\[SQLEngine\] ========================================`\);",
     []);
    (u "console\.log\(`\[SQLEngine\] SQL GÉNÉRÉ PAR L'IA \(longueur: \$\{generatedSQL\.length\} chars\):`\);",
     py "logger.info('SQL généré par l\\'IA', {
      metadata: {
        service: 'SQLEngineService',
        operation: 'executeNaturalLanguageQuery',
        sqlLength: generatedSQL.length,
        queryId
      }
    });");
    (u "console\.log\(`\[SQLEngine\] \$\{generatedSQL\}`\);",
     py "logger.info('SQL query', {
      metadata: {
        service: 'SQLEngineService',
        operation: 'executeNaturalLanguageQuery',
        sql: generatedSQL,
        queryId
      }
    });");
    (u "console\.error\(`\[SQLEngine\] Erreur requête \$\{queryId\}:`, error\);",
     py "logger.error('Erreur requête', {
      metadata: {
        service: 'SQLEngineService',
        operation: 'executeNaturalLanguageQuery',
        queryId,
        error: error instanceof Error ? error.message : String(error),
        stack: error instanceof Error ? error.stack : undefined
      }
    });");
    (u "console\.log\(`\[SQLEngine\] Génération contexte intelligent pour \$\{request\.userId\} \(\$\{request\.userRole\}\)`\);",
     py "logger.info('Génération contexte intelligent', {
      metadata: {
        service: 'SQLEngineService',
        operation: 'generateIntelligentContext',
        userId: request.userId,
        userRole: request.userRole
      }
    });");
    (u "console\.error\(`\[SQLEngine\] Erreur génération contexte intelligent:`, error\);",
     py "logger.error('Erreur génération contexte intelligent', {
      metadata: {
        service: 'SQLEngineService',
        operation: 'generateIntelligentContext',
        error: error instanceof Error ? error.message : String(error),
        stack: error instanceof Error ? error.stack : undefined
      }
    });");
    (u "console\.log\(`\[SQLSecurity\] Validation SQL pour \$\{userId\} \(\$\{userRole\}\)`\);",
     py "logger.info('Validation SQL', {
      metadata: {
        service: 'SQLEngineService',
        operation: 'validateSQL',
        userId,
        userRole
      }
    });");
    (u "console\.log\(`\[SQLSecurity\] SQL à valider: \$\{sql\.substring\(0, 200\)\}\$\{sql\.length > 200 \? '\.\.\.': ''\}`\);",
     py "logger.info('SQL à valider', {
      metadata: {
        service: 'SQLEngineService',
        operation: 'validateSQL',
        sqlPreview: sql.substring(0, 200) + (sql.length > 200 ? '...' : '')
      }
    });");
    (u "console\.log\(`\[SQLSecurity\] ✓ SQL nettoyé \(\$\{cleanedSQL\.length\} chars\): \$\{cleanedSQL\.substring\(0, 150\)\}\$\{cleanedSQL\.length > 150 \? '\.\.\.': ''\}`\);",
     py "logger.info('SQL nettoyé', {
      metadata: {
        service: 'SQLEngineService',
        operation: 'validateSQL',
        cleanedSQLLength: cleanedSQL.length,
        cleanedSQLPreview: cleanedSQL.substring(0, 150) + (cleanedSQL.length > 150 ? '...' : '')
      }
    });");
    (u "console\.warn\(`\[SQLSecurity\] Erreur nettoyage SQL, utilisation SQL brut: \$\{cleanError\}`\);",
     py "logger.warn('Erreur nettoyage SQL, utilisation SQL brut', {
      metadata: {
        service: 'SQLEngineService',
        operation: 'validateSQL',
        cleanError
      }
    });");
    (u "console\.log\(`\[SQLSecurity\] Étape 1: Parsing AST avec node-sql-parser\.\.\.`\);",
     py "logger.info('Parsing AST', {
      metadata: {
        service: 'SQLEngineService',
        operation: 'validateSQL',
        step: 1
      }
    });");
    (u "console\.log\(`\[SQLSecurity\] ✓ Parsing AST réussi`\);",
     py "logger.info('Parsing AST réussi', {
      metadata: {
        service: 'SQLEngineService',
        operation: 'validateSQL'
      }
    });");
    (u "console\.log\(`\[SQLSecurity\] Étape 2: Vérification READ-ONLY \(\$\{astArray\.length\} statement\(s\)\)\.\.\.`\);",
     py "logger.info('Vérification READ-ONLY', {
      metadata: {
        service: 'SQLEngineService',
        operation: 'validateSQL',
        step: 2,
        statementsCount: astArray.length
      }
    });");
    (u "console\.log\(`\[SQLSecurity\] ✗ \$\{violation\}`\);",
     py "logger.warn('Violation sécurité SQL', {
      metadata: {
        service: 'SQLEngineService',
        operation: 'validateSQL',
        violation
      }
    });");
    (u "console\.log\(`\[SQLSecurity\] ✓ Statement type: SELECT`\);",
     py "logger.info('Statement type: SELECT', {
      metadata: {
        service: 'SQLEngineService',
        operation: 'validateSQL'
      }
    });");
    (u "console\.log\(`\[SQLSecurity\] Étape 3: Validation des tables\.\.\.`\);",
     py "logger.info('Validation des tables', {
      metadata: {
        service: 'SQLEngineService',
        operation: 'validateSQL',
        step: 3
      }
    });");
    (u "console\.log\(`\[SQLSecurity\] Tables extraites: \[\$\{tablesInQuery\.join\(', '\)\}\]`\);",
     py "logger.info('Tables extraites', {
      metadata: {
        service: 'SQLEngineService',
        operation: 'validateSQL',
        tables: tablesInQuery.join(', ')
      }
    });");
    (u "console\.log\(`\[SQLSecurity\] ✓ Table autorisée: \$\{tableName\}`\);",
     py "logger.info('Table autorisée', {
      metadata: {
        service: 'SQLEngineService',
        operation: 'validateSQL',
        tableName
      }
    });") ].

(** The calls of [re.sub] in the body of [migrate_sql_engine] ([migrate_remaining_services.py]), in order, as (pattern, replacement) *)
Definition sql_engine_subs : table :=
  [ (u "\n\s*\n\s*\n",
     py "\n\n") ].

(** The three functions have the same shape: they return [False] without
    writing when the file does not import the logger; otherwise the
    [replacements] are applied in a loop (with [flags=re.MULTILINE], which
    changes nothing for patterns without anchors), then the further calls
    of [re.sub], and the file is written. *)
Definition migrate_service (start : str) (path : string) (missing : str)
    (replacements subs : table) (done : str) : IO bool :=
  print start ;;
  content <- read_text path ;;
  if negb (contains (u "import { logger }") content) then
    print missing ;;
    ret false
  else
    content <- of_re (sub_all replacements content) ;;
    content <- of_re (sub_all subs content) ;;
    write_text path content ;;
    print done ;;
    ret true.

Definition migrate_email_service : IO bool :=
  migrate_service (u "🔄 Migration emailService.ts...")
    "server/services/emailService.ts"
    (u "❌ ERREUR: Logger non importé dans emailService!")
    email_service_replacements email_service_subs
    (u "✅ emailService.ts migré").

Definition migrate_predictive_engine : IO bool :=
  migrate_service (u "🔄 Migration PredictiveEngineService.ts...")
    "server/services/PredictiveEngineService.ts"
    (u "❌ ERREUR: Logger non importé dans PredictiveEngineService!")
    predictive_engine_replacements predictive_engine_subs
    (u "✅ PredictiveEngineService.ts migré").

Definition migrate_sql_engine : IO bool :=
  migrate_service (u "🔄 Migration SQLEngineService.ts...")
    "server/services/SQLEngineService.ts"
    (u "❌ ERREUR: Logger non importé dans SQLEngineService!")
    sql_engine_replacements sql_engine_subs
    (u "✅ SQLEngineService.ts migré").

Definition verify_migrations : IO bool :=
  print (py "\n🔍 Vérification des migrations...") ;;
  verify_loop services true.

(** The exit status of the script. *)
Definition main : IO nat :=
  print (u "🚀 Démarrage migration complète...") ;;
  s1 <- migrate_email_service ;;
  s2 <- migrate_predictive_engine ;;
  s3 <- migrate_sql_engine ;;
  if s1 && s2 && s3 then
    ok <- verify_migrations ;;
    if ok then
      print (py "\n🎉 Migration complète terminée avec succès!") ;;
      ret 0
    else
      print (py "\n⚠️  Migration terminée mais certains console.* restent") ;;
      ret 1
  else
    print (py "\n❌ Erreur lors de la migration") ;;
    ret 1.

End MigrateRemainingServices.

(* ===================================================================== *)
(** * The two scripts that rebuild a metadata block *)
(* ===================================================================== *)

Definition null (s : str) : bool :=
  match s with
  | [] => true
  | _ :: _ => false
  end.

(** [[p.strip() for p in s.split(',') if p.strip()]] *)
Definition props_of (s : str) : list str :=
  map strip (filter (fun p => negb (null (strip p))) (split (ch ",") s)).

(** The body the three callables share: the newlines of the captured
    metadata become spaces, the properties are cut at the commas and put
    one on a line. *)
Definition format_metadata (metadata_content : str) : str :=
  let clean := strip (replace_char nl (ch " ") metadata_content) in
  let props := props_of clean in
  join (py ",\n          ") props.

Module FixStorageFacadePython.

Definition file_path : string := "server/storage/facade/StorageFacade.ts".

Definition pattern : str :=
  u "(\{\s*metadata:\s*\{)([^}]+?)(\}\s*\n\s+\}\s*\n\s+\);)".

Definition replace_func (mo : match_obj) : str :=
  let metadata_content := group mo 2 in
  let formatted := format_metadata metadata_content in
  py "{\n        metadata: {\n          " ++ formatted
  ++ py "\n        }\n      });".

(** [fixed_count[0]] goes up by one in every call of [replace_func]: it
    is the number of substitutions. *)
Definition main : IO unit :=
  content <- read_text file_path ;;
  let original := content in
  r <- of_re (re_compile pattern) ;;
  let (content, fixed_count) := re_subn r replace_func content in
  if negb (str_eqb content original) then
    write_text file_path content ;;
    print (u "✅ " ++ str_of_nat fixed_count ++ u " corrections appliquées")
  else
    print (u "ℹ️  Aucune correction").

End FixStorageFacadePython.

Module FixStorageFacadeFinal.

Definition file_path : string := "server/storage/facade/StorageFacade.ts".

Definition pattern1 : str :=
  u "(this\.facadeLogger\.(info|warn|error|debug)\('([^']+)',\s*\{\s*metadata:\s*\{)([^}]+?)(\}\s*\n\s+\}\s*\n\s+\);)".

Definition pattern2 : str :=
  u "(\{\s*metadata:\s*\{)([^}]+?)(\n\s+\}\s*\n\s+\}\);)".

Definition replace_func1 (mo : match_obj) : str :=
  let logger_var := group mo 1 in
  let message := group mo 3 in
  let metadata_content := group mo 4 in
  let formatted := format_metadata metadata_content in
  logger_var ++ py "'" ++ message
  ++ py "', {\n        metadata: {\n          " ++ formatted
  ++ py "\n        }\n      });".

Definition replace_func2 (mo : match_obj) : str :=
  let metadata_content := group mo 2 in
  let formatted := format_metadata metadata_content in
  py "{\n        metadata: {\n          " ++ formatted
  ++ py "\n        }\n      });".

(** The two calls of [re.sub], the second on the result of the first:
    the text after both, and [fixed_count[0]], which goes up by one in
    every call of a callable. *)
Definition apply_patterns (content : str) : option (str * nat) :=
  match re_compile pattern1, re_compile pattern2 with
  | Some r1, Some r2 =>
    let (content, n1) := re_subn r1 replace_func1 content in
    let (content, n2) := re_subn r2 replace_func2 content in
    Some (content, n1 + n2)
  | _, _ => None
  end.

Definition main : IO unit :=
  content <- read_text file_path ;;
  let original := content in
  res <- of_re (apply_patterns content) ;;
  let (content, fixed_count) := res : str * nat in
  if negb (str_eqb content original) then
    write_text file_path content ;;
    print (u "✅ " ++ str_of_nat fixed_count
           ++ u " corrections appliquées dans StorageFacade.ts")
  else
    print (u "ℹ️  Aucune correction trouvée").

End FixStorageFacadeFinal.

(* ===================================================================== *)
(** * [scripts/fix-indentation-storage-facade.py] *)
(* ===================================================================== *)

Module FixIndentation.

Definition file_path : string := "server/storage/facade/StorageFacade.ts".

(** Pure steps that may raise. *)
Definition obind {A B : Type} (c : outcome A) (f : A -> outcome B)
  : outcome B :=
  match c with
  | Return a => f a
  | Raise e => Raise e
  end.

Notation "'let!' x ':=' c 'in' k" := (obind c (fun x => k))
  (at level 10, x name, c at level 100, k at level 200).

Definition compiled (pattern : str) : outcome regex :=
  match re_compile pattern with
  | Some r => Return r
  | None => Raise ReError
  end.

(** [lines[i]] *)
Definition item (lines : list str) (i : nat) : outcome str :=
  match nth_error lines i with
  | Some l => Return l
  | None => Raise IndexError
  end.

(** [re.match(indent_pattern, line).group(1)]: the white space a line
    starts with; calling [group] on the [None] of a failed match raises. *)
Definition indent_pattern : str := u "^(\s*)".

Definition indent_of (line : str) : outcome str :=
  let! r := compiled indent_pattern in
  match re_match r line with
  | Some mo => Return (group mo 1)
  | None => Raise AttributeError
  end.

(** The backward loop [j = i - 1; while j >= 0: ...; j -= 1]: the index
    of the nearest line before [i] that is an anchor. *)
Fixpoint find_anchor (is_anchor : str -> bool) (lines : list str) (i : nat)
  : option nat :=
  match i with
  | O => None
  | S j =>
    if is_anchor (nth j lines []) then Some j
    else find_anchor is_anchor lines j
  end.

(** The indentation of the anchor, or [default] when there is none. *)
Definition base_indent_from (is_anchor : str -> bool) (default : str)
    (lines : list str) (i : nat) : outcome str :=
  match find_anchor is_anchor lines i with
  | Some j => let! l := item lines j in indent_of l
  | None => Return default
  end.

Definition is_logger_line (l : str) : bool :=
  contains (u "facadeLogger.") l || contains (u "logger.") l.

Definition is_metadata_line (l : str) : bool :=
  contains (u "metadata: {") l.

Definition default_indent : str := u "      ".

Definition metadata_pattern : str := u "metadata:\s*\{([^}]+?)\}".

Definition logger_pattern : str :=
  u "(this\.facadeLogger|logger)\.(info|warn|error|debug)\('([^']+)'".

Definition property_pattern : str :=
  u "^\s{12,}(module|operation|error|id|count|projectId|weekNumber|year|category|userId|labelId|email):".

(** The test on the two lines after a metadata line. *)
Definition closing_lines (l1 l2 : str) : bool :=
  str_eqb (strip l1) (u "}") && str_eqb (strip l2) (u ");")
  && (startswith (u "        ") l1 || startswith (u "              ") l1).

(** The lines that replace a block, from the metadata line and the base
    indentation; [None] when the line has no metadata or no logger call
    the patterns recognise. *)
Definition block_lines (base_indent : str) (line : str)
  : outcome (option (list str)) :=
  let! mr := compiled metadata_pattern in
  match re_search mr line with
  | Some metadata_match =>
    let metadata_content := strip (group metadata_match 1) in
    let props := props_of metadata_content in
    let formatted_props :=
      join (py ",\n")
           (map (fun prop => base_indent ++ u "          " ++ prop) props)
    in
    let! lr := compiled logger_pattern in
    match re_search lr line with
    | Some logger_match =>
      let logger_var := group logger_match 1 in
      let level := group logger_match 2 in
      let message := group logger_match 3 in
      Return (Some
        ([ base_indent ++ logger_var ++ u "." ++ level ++ u "('"
           ++ message ++ py "', {\n";
           base_indent ++ py "        metadata: {\n" ]
         ++ (if null formatted_props then []
             else [formatted_props ++ py "\n"])
         ++ [ base_indent ++ py "        }\n";
              base_indent ++ py "      });\n" ]))
    | None => Return None
    end
  | None => Return None
  end.

(** The first [if] of the loop body: the lines that replace the block of
    three, or [None] when the body falls through to the next [if]. The
    base indentation is that of the nearest logger line above, or the
    default when there is none or when it is empty. *)
Definition rebuild_block (lines : list str) (i : nat) (line : str)
  : outcome (option (list str)) :=
  if is_metadata_line line && Nat.ltb (i + 3) (List.length lines) then
    let! l1 := item lines (i + 1) in
    let! l2 := item lines (i + 2) in
    if closing_lines l1 l2 then
      let! found := base_indent_from is_logger_line [] lines i in
      let base_indent := if null found then default_indent else found in
      block_lines base_indent line
    else Return None
  else Return None.

(** The test of the third [if]. *)
Definition is_brace_line (line : str) : bool :=
  str_eqb (strip line) (u "}")
  && (startswith (u "              ") line || startswith (u "        }") line).

(** One round of the [while] loop at index [i]: the lines appended to
    [new_lines], what is added to [i], and what is added to [fixed]. *)
Definition step (lines : list str) (i : nat)
  : outcome (list str * nat * nat) :=
  let! line := item lines i in
  let! block := rebuild_block lines i line in
  match block with
  | Some rebuilt => Return (rebuilt, 3, 1)
  | None =>
    let! pr := compiled property_pattern in
    match re_match pr line with
    | Some _ =>
      let! base_indent :=
        base_indent_from is_metadata_line default_indent lines i in
      let prop := strip line in
      Return ([base_indent ++ u "          " ++ prop ++ py "\n"], 1, 1)
    | None =>
      if is_brace_line line then
        let! base_indent :=
          base_indent_from is_metadata_line default_indent lines i in
        Return ([base_indent ++ py "        }\n"], 1, 1)
      else Return ([line], 1, 0)
    end
  end.

(** [while i < len(lines)], with a bound on the number of rounds: [None]
    when the bound is reached before the loop is over. *)
Fixpoint loop (fuel : nat) (lines : list str) (i : nat)
    (new_lines : list str) (fixed : nat) {struct fuel}
  : option (outcome (list str * nat)) :=
  if Nat.ltb i (List.length lines) then
    match fuel with
    | O => None
    | S fuel' =>
      match step lines i with
      | Return (emitted, di, df) =>
        loop fuel' lines (i + di) (new_lines ++ emitted) (fixed + df)
      | Raise e => Some (Raise e)
      end
    end
  else Some (Return (new_lines, fixed)).

(** The indices the loop visits, each with what is added to it. *)
Fixpoint visits (fuel : nat) (lines : list str) (i : nat) {struct fuel}
  : list (nat * nat) :=
  if Nat.ltb i (List.length lines) then
    match fuel with
    | O => []
    | S fuel' =>
      match step lines i with
      | Return (_, di, _) => (i, di) :: visits fuel' lines (i + di)
      | Raise _ => []
      end
    end
  else [].

(** The repair engine: the new lines and the number of corrections.
    One round for each line is enough. *)
Definition repair (lines : list str) : option (outcome (list str * nat)) :=
  loop (List.length lines) lines 0 [] 0.

Definition main : IO unit :=
  content <- read_text file_path ;;
  let lines := readlines content in
  res <- (match repair lines with
          | Some (Return r) => ret r
          | Some (Raise e) => raise e
          | None => raise LoopBound
          end) ;;
  let (new_lines, fixed) := res : list str * nat in
  if Nat.ltb 0 fixed then
    write_text file_path (concat new_lines) ;;
    print (u "✅ " ++ str_of_nat fixed
           ++ u " corrections d'indentation appliquées")
  else
    print (u "ℹ️  Aucune correction").

End FixIndentation.

(* ===================================================================== *)
(** * Vocabulary of the statements *)
(* ===================================================================== *)

(** A table compiled as a whole. *)
Fixpoint compile_table (tbl : table) : option (list rule) :=
  match tbl with
  | [] => Some []
  | p :: tbl' =>
    match compile_rule p, compile_table tbl' with
    | Some r, Some rs => Some (r :: rs)
    | _, _ => None
    end
  end.

(** The pattern of a rule matches nowhere in the text. *)
Definition silent (text : str) (r : rule) : Prop :=
  re_search (pat r) text = None.

(** The pattern that is a plain word: one [Lit] for each character. *)
Definition word (cs : str) : regex :=
  fold_right (fun c r => Seq (Lit c) r) Eps cs.

(** The files after a run and the writes it made. *)
Definition files_after {A : Type} (c : IO A) (w : world)
  : string -> option str := files (snd (c w)).

(** What [read_text] returns for a file that holds [content]. *)
Definition as_read (content : str) : str := universal_newlines content.

(** The number of positions at which two lists of lines differ. *)
Definition altered (old new : list str) : nat :=
  List.length
    (filter (fun p => negb (str_eqb (fst p) (snd p))) (combine old new)).

Module Shape.
Import FixIndentation.

(** The first [if] of the loop body rebuilds a block at index [i]. *)
Definition block_at (lines : list str) (i : nat) : bool :=
  match nth_error lines i with
  | Some line =>
    match rebuild_block lines i line with
    | Return (Some _) => true
    | _ => false
    end
  | None => false
  end.

(** The line has the shape the second [if] tests for. *)
Definition is_property_line (line : str) : bool :=
  match re_compile property_pattern with
  | Some r => match re_match r line with Some _ => true | None => false end
  | None => false
  end.

(** A line the second or the third [if] puts out again. *)
Definition is_candidate (line : str) : bool :=
  is_property_line line || is_brace_line line.

(** The round at index [i] takes one of the three repairing branches. *)
Definition repaired_at (lines : list str) (i : nat) : bool :=
  block_at lines i
  || match nth_error lines i with
     | Some line => is_candidate line
     | None => false
     end.

(** What the round at index [i] appends and what it adds to [fixed]. *)
Definition emitted_at (lines : list str) (i : nat) : list str :=
  match step lines i with
  | Return (emitted, _, _) => emitted
  | Raise _ => []
  end.

Definition fixed_at (lines : list str) (i : nat) : nat :=
  match step lines i with
  | Return (_, _, df) => df
  | Raise _ => 0
  end.

(** The four ways through the loop body. *)
Inductive round (lines : list str) (i : nat) (line : str)
  : list str -> nat -> nat -> Prop :=
| RoundBlock (e : list str) :
    rebuild_block lines i line = Return (Some e) ->
    i + 3 < List.length lines ->
    round lines i line e 3 1
| RoundProperty (b : str) :
    rebuild_block lines i line = Return None ->
    is_property_line line = true ->
    base_indent_from is_metadata_line default_indent lines i = Return b ->
    round lines i line [b ++ u "          " ++ strip line ++ py "\n"] 1 1
| RoundBrace (b : str) :
    rebuild_block lines i line = Return None ->
    is_property_line line = false ->
    is_brace_line line = true ->
    base_indent_from is_metadata_line default_indent lines i = Return b ->
    round lines i line [b ++ py "        }\n"] 1 1
| RoundCopy :
    rebuild_block lines i line = Return None ->
    is_property_line line = false ->
    is_brace_line line = false ->
    round lines i line [line] 1 0.

(** The rounds of a run from index [i] on, and what they put out and
    count. *)
Definition trail (lines : list str) (i : nat) : list (nat * nat) :=
  visits (List.length lines - i) lines i.

Definition output (lines : list str) (vs : list (nat * nat)) : list str :=
  flat_map (fun v => emitted_at lines (fst v)) vs.

Definition corrections (lines : list str) (vs : list (nat * nat)) : nat :=
  list_sum (map (fun v => fixed_at lines (fst v)) vs).

(** No line before index [i] satisfies [is_anchor]. *)
Definition no_anchor_before (is_anchor : str -> bool) (lines : list str)
    (i : nat) : Prop :=
  forall j, j < i -> is_anchor (nth j lines []) = false.

End Shape.

(** The result of a run put aside. *)
Definition void {A : Type} (c : IO A) : IO unit :=
  fun w => (match fst (c w) with Return _ => Return tt | Raise e => Raise e end,
            snd (c w)).

(** The migration functions that test for the import of the logger, each
    with the file it migrates ... *)
Definition guarded_migrations : list (string * IO unit) :=
  [ (MigrateConsoleToLogger.path,
     MigrateConsoleToLogger.migrate_context_cache);
    ("server/services/emailService.ts",
     void MigrateRemainingServices.migrate_email_service);
    ("server/services/PredictiveEngineService.ts",
     void MigrateRemainingServices.migrate_predictive_engine);
    ("server/services/SQLEngineService.ts",
     void MigrateRemainingServices.migrate_sql_engine) ].

(** ... and those that do not. *)
Definition unguarded_migrations : list (string * IO unit) :=
  [ ("server/services/emailService.ts",
     MigrateRemainingConsole.migrate_remaining_email);
    ("server/services/PredictiveEngineService.ts",
     MigrateRemainingConsole.migrate_remaining_predictive);
    ("server/services/SQLEngineService.ts",
     MigrateRemainingConsole.migrate_remaining_sql) ].

Definition logger_import : str := u "import { logger }".

(** [len(re.findall(r'console\.', content))] for a file that holds
    [content]. *)
Definition console_count (content : str) : nat :=
  List.length (re_findall (word (u "console.")) (as_read content)).

(** A world with one file. *)
Definition one_file (path : string) (content : str) : world :=
  World (fun p => if String.eqb p path then Some content else None) [].

(** A world with the three service files. *)
Definition three_files (c1 c2 c3 : str) : world :=
  World (fun p =>
           if String.eqb p "server/services/emailService.ts" then Some c1
           else if String.eqb p "server/services/PredictiveEngineService.ts"
                then Some c2
           else if String.eqb p "server/services/SQLEngineService.ts"
                then Some c3
           else None) [].

(** The rules of a table, when it compiles. *)
Definition rules_of (tbl : table) : list rule :=
  match compile_table tbl with
  | Some rules => rules
  | None => []
  end.

(** A run that only prints: the files are as before and nothing was
    written. *)
Definition only_prints {A : Type} (c : IO A) (w : world) : Prop :=
  files_after c w = files w /\ writes_of c w = [].

(** The two rules of [fix-storage-facade-final.py], as the engine takes
    them. *)
Definition final_rules (r1 r2 : regex) : list rule :=
  [ Rule r1 FixStorageFacadeFinal.replace_func1;
    Rule r2 FixStorageFacadeFinal.replace_func2 ].

(** The text of a pattern that is a plain word. *)
Fixpoint word_of (r : regex) : option str :=
  match r with
  | Eps => Some []
  | Seq (Lit c) r' => option_map (cons c) (word_of r')
  | _ => None
  end.

(** The pattern of the rule is a plain word with [console.] in it. *)
Definition console_rule (r : rule) : bool :=
  match word_of (pat r) with
  | Some cs => contains (u "console.") cs
  | None => false
  end.

(* ===================================================================== *)
(** * Vocabulary of the further properties *)
(* ===================================================================== *)

(** The three scripts that repair [StorageFacade.ts]. *)
Definition facade_scripts : list (string * IO unit) :=
  [ (FixIndentation.file_path, FixIndentation.main);
    (FixStorageFacadePython.file_path, FixStorageFacadePython.main);
    (FixStorageFacadeFinal.file_path, FixStorageFacadeFinal.main) ].

(** Every function that reads one file and may write it back, with that
    file. *)
Definition file_editors : list (string * IO unit) :=
  guarded_migrations ++ unguarded_migrations ++ facade_scripts.

(** Every function and script, with the files it works on. *)
Definition entry_points : list (list string * IO unit) :=
  map (fun pf => ([fst pf], snd pf)) file_editors
  ++ [ ([MigrateConsoleToLogger.path], MigrateConsoleToLogger.main);
       (services, void MigrateRemainingConsole.verify);
       (services, MigrateRemainingConsole.main);
       (services, void MigrateRemainingServices.verify_migrations);
       (services, void MigrateRemainingServices.main) ].

(** The event is no write to a file outside [ps]. *)
Definition within (ps : list string) (e : event) : Prop :=
  match e with
  | Write path _ => In path ps
  | Print _ => True
  end.

(** From [w] to [w']: events were added, none a write outside [ps], and
    the files outside [ps] are as they were. *)
Definition extends (ps : list string) (w w' : world) : Prop :=
  (exists es, events w' = events w ++ es /\ Forall (within ps) es)
  /\ forall p, ~ In p ps -> files w' p = files w p.

(** The migration functions whose tables hold nothing but patterns that
    are words with [console.] in them. *)
Definition console_migrations : list (string * IO unit) :=
  [ (MigrateConsoleToLogger.path,
     MigrateConsoleToLogger.migrate_context_cache);
    ("server/services/emailService.ts",
     void MigrateRemainingServices.migrate_email_service);
    ("server/services/PredictiveEngineService.ts",
     void MigrateRemainingServices.migrate_predictive_engine);
    ("server/services/emailService.ts",
     MigrateRemainingConsole.migrate_remaining_email);
    ("server/services/PredictiveEngineService.ts",
     MigrateRemainingConsole.migrate_remaining_predictive) ].

(** The text a table makes of a text. *)
Definition rewritten (tbl : table) (text : str) : str :=
  fst (rewrite (rules_of tbl) text).

(** The files with the text of one replaced. *)
Definition with_file (path : string) (text : str)
    (fs : string -> option str) : string -> option str :=
  fun p => if String.eqb p path then Some text else fs p.

(** No match of the pattern of [verify] in the file that holds [text]. *)
Definition settled (text : str) : bool := Nat.eqb (console_count text) 0.

(** What a function of [migrate_remaining_services.py] makes of the
    content of its file: the loop over [replacements], then the further
    calls. *)
Definition serviced (reps subs : table) (content : str) : str :=
  rewritten subs (rewritten reps (as_read content)).

Definition email_path : string := "server/services/emailService.ts".
Definition predictive_path : string :=
  "server/services/PredictiveEngineService.ts".
Definition sql_path : string := "server/services/SQLEngineService.ts".

(** The white space a string starts with. *)
Fixpoint leading_space (s : str) : str :=
  match s with
  | c :: s' => if isspace c then c :: leading_space s' else []
  | [] => []
  end.

(** The rounds of a repetition: the inner loop of [m], by name. *)
Definition star_rounds (greedy : bool) (r' : regex)
    (k : nat -> str -> caps -> option (nat * caps))
  : nat -> nat -> str -> caps -> option (nat * caps) :=
  fix rounds (n : nat) (pos : nat) (s : str) (c : caps) {struct n}
    : option (nat * caps) :=
    match n with
    | O => k pos s c
    | S n' =>
      if greedy then
        m r' pos s c
          (fun pos' s' c' =>
             if Nat.ltb pos pos' then rounds n' pos' s' c' else None)
        <|> k pos s c
      else
        k pos s c
        <|> m r' pos s c
              (fun pos' s' c' =>
                 if Nat.ltb pos pos' then rounds n' pos' s' c' else None)
    end.

(** The text a property line or a closing brace line is put out as,
    after the base indentation. *)
Definition reindented (line : str) : str :=
  if Shape.is_property_line line
  then u "          " ++ strip line ++ py "\n"
  else py "        }\n".

(** Line [j] is the nearest line before line [i] that satisfies
    [is_anchor]. *)
Definition nearest_anchor (is_anchor : str -> bool) (lines : list str)
    (i j : nat) : Prop :=
  j < i /\ is_anchor (nth j lines []) = true
  /\ forall k, j < k -> k < i -> is_anchor (nth k lines []) = false.

(** The string ends with a newline. *)
Definition ends_with_newline (s : str) : Prop := last s 0%N = nl.

Arguments re_subn : simpl never.
Arguments re_sub : simpl never.
Arguments rewrite : simpl never.

(* ===================================================================== *)
(** * Substitution where nothing matches *)
(* ===================================================================== *)

Section Scan.

Variable r : regex.

Lemma search_from_none_inv (pos : nat) (c : char) (s : str) :
  search_from r pos (c :: s) = None ->
  match_at r false pos (c :: s) = None /\ search_from r (S pos) s = None.
Proof.
  simpl. destruct (match_at r false pos (c :: s)) as [[e cs]|]; [discriminate|].
  auto.
Qed.

(** With no match from [pos] on, the scan keeps every character. *)
Lemma scan_silent (s : str) :
  forall pos, search_from r pos s = None -> scan r 0 pos s = map Keep s.
Proof.
  induction s as [|c s IH]; intros pos H.
  - simpl in *. destruct (match_at r false pos []) as [[e cs]|];
      [discriminate|reflexivity].
  - destruct (search_from_none_inv _ _ _ H) as [H1 H2].
    cbn [scan map]. rewrite H1. f_equal. apply IH, H2.
Qed.

(** A scan without a hit saw no match. *)
Lemma scan_no_hit (s : str) :
  forall pos, hits (scan r 0 pos s) = [] -> search_from r pos s = None.
Proof.
  induction s as [|c s IH]; intros pos H.
  - simpl in *. destruct (match_at r false pos []) as [[e cs]|]; [|reflexivity].
    destruct (Nat.ltb pos e); discriminate.
  - cbn [scan] in H. cbn [search_from].
    destruct (match_at r false pos (c :: s)) as [[e cs]|].
    + destruct (Nat.ltb pos e); discriminate.
    + apply IH. exact H.
Qed.

Lemma flat_map_keep (f : match_obj -> str) (s : str) :
  flat_map (fun p => match p with Keep c => [c] | Hit mo => f mo end)
           (map Keep s) = s.
Proof. induction s as [|c s IH]; simpl; [reflexivity|now rewrite IH]. Qed.

Lemma hits_keep (s : str) : hits (map Keep s) = [].
Proof. induction s as [|c s IH]; simpl; auto. Qed.

Lemma re_subn_silent (f : match_obj -> str) (s : str) :
  re_search r s = None -> re_subn r f s = (s, 0).
Proof.
  intros H. unfold re_subn, pieces. rewrite (scan_silent _ _ H).
  now rewrite flat_map_keep, hits_keep.
Qed.

(** No substitution counted: the text is as it was. *)
Lemma re_subn_zero (f : match_obj -> str) (s : str) :
  snd (re_subn r f s) = 0 -> re_subn r f s = (s, 0).
Proof.
  intros H. apply re_subn_silent. unfold re_search.
  apply scan_no_hit. unfold re_subn, pieces in H. simpl in H.
  now apply length_zero_iff_nil.
Qed.

Lemma re_findall_nil_iff (s : str) :
  re_findall r s = [] <-> re_search r s = None.
Proof.
  unfold re_findall, re_search, pieces. split.
  - apply scan_no_hit.
  - intros H. rewrite (scan_silent _ _ H). apply hits_keep.
Qed.

End Scan.

(* ===================================================================== *)
(** * The rewrite engine *)
(* ===================================================================== *)

Lemma fold_apply_rule_count (rules : list rule) :
  forall t n,
    fold_left apply_rule rules (t, n)
    = (fst (fold_left apply_rule rules (t, 0)),
       n + snd (fold_left apply_rule rules (t, 0))).
Proof.
  induction rules as [|r rules IH]; intros t n; simpl.
  - now rewrite Nat.add_0_r.
  - assert (E : forall j, apply_rule (t, j) r
                         = (fst (re_subn (pat r) (repl r) t),
                            j + snd (re_subn (pat r) (repl r) t))).
    { intros j. unfold apply_rule. cbn [fst snd].
      now destruct (re_subn (pat r) (repl r) t). }
    rewrite !E. rewrite IH. rewrite (IH _ (0 + _)). simpl. f_equal. lia.
Qed.

Lemma rewrite_nil (text : str) : rewrite [] text = (text, 0).
Proof. reflexivity. Qed.

Lemma rewrite_cons (r : rule) (rules : list rule) (text : str) :
  rewrite (r :: rules) text
  = (fst (rewrite rules (re_sub (pat r) (repl r) text)),
     snd (re_subn (pat r) (repl r) text)
     + snd (rewrite rules (re_sub (pat r) (repl r) text))).
Proof.
  unfold rewrite, re_sub. cbn [fold_left].
  assert (E : apply_rule (text, 0) r = re_subn (pat r) (repl r) text).
  { unfold apply_rule. cbn [fst snd]. now destruct (re_subn (pat r) (repl r) text). }
  rewrite E. destruct (re_subn (pat r) (repl r) text) as [t k]. simpl.
  apply fold_apply_rule_count.
Qed.

Lemma rewrite_app (rs1 rs2 : list rule) (text : str) :
  rewrite (rs1 ++ rs2) text
  = (fst (rewrite rs2 (fst (rewrite rs1 text))),
     snd (rewrite rs1 text) + snd (rewrite rs2 (fst (rewrite rs1 text)))).
Proof.
  unfold rewrite. rewrite fold_left_app.
  destruct (fold_left apply_rule rs1 (text, 0)) as [t n]. simpl.
  apply fold_apply_rule_count.
Qed.

Lemma rewrite_silent (rules : list rule) (text : str) :
  Forall (silent text) rules -> rewrite rules text = (text, 0).
Proof.
  induction 1 as [|r rules Hr _ IH].
  - reflexivity.
  - rewrite rewrite_cons. unfold re_sub.
    rewrite (@re_subn_silent (pat r) (repl r) text Hr). cbn [fst snd].
    now rewrite IH.
Qed.

(** Silence can be computed. *)
Lemma silent_forallb (text : str) (rules : list rule) :
  forallb (fun r => match re_search (pat r) text with
                    | None => true
                    | Some _ => false
                    end) rules = true ->
  Forall (silent text) rules.
Proof.
  induction rules as [|r rules IH]; intros H; constructor.
  - simpl in H. apply andb_true_iff in H as [H _]. unfold silent.
    now destruct (re_search (pat r) text).
  - simpl in H. apply andb_true_iff in H as [_ H]. auto.
Qed.

(** No change counted by the engine: every rule was silent on the text it
    saw, and the text is as it was. *)
Lemma rewrite_zero (rules : list rule) :
  forall text, snd (rewrite rules text) = 0 -> rewrite rules text = (text, 0).
Proof.
  induction rules as [|r rules IH]; intros text H.
  - reflexivity.
  - rewrite rewrite_cons in *. cbn [snd] in H.
    assert (H1 : snd (re_subn (pat r) (repl r) text) = 0) by lia.
    assert (H2 : snd (rewrite rules (re_sub (pat r) (repl r) text)) = 0) by lia.
    unfold re_sub in *. rewrite (@re_subn_zero (pat r) (repl r) text H1) in *.
    cbn [fst snd] in *.
    now rewrite (IH _ H2).
Qed.

(** The loop over a table is the engine on the compiled table. *)
Lemma sub_all_rewrite (tbl : table) :
  forall text,
    sub_all tbl text
    = option_map (fun rules => fst (rewrite rules text)) (compile_table tbl).
Proof.
  induction tbl as [|[old new] tbl IH]; intros text.
  - reflexivity.
  - cbn [sub_all compile_table]. unfold re_sub_src, compile_rule.
    cbn [fst snd].
    destruct (re_compile_groups old) as [[r g]|].
    2:{ reflexivity. }
    destruct (parse_template g (List.length new) new) as [t|].
    2:{ reflexivity. }
    rewrite IH. destruct (compile_table tbl) as [rules|]; [|reflexivity].
    simpl. now rewrite rewrite_cons.
Qed.

Lemma sub_all_app (t1 t2 : table) :
  forall text,
    sub_all (t1 ++ t2) text
    = match sub_all t1 text with
      | Some text' => sub_all t2 text'
      | None => None
      end.
Proof.
  induction t1 as [|[old new] t1 IH]; intros text; simpl.
  - reflexivity.
  - destruct (re_sub_src old new text); [apply IH|reflexivity].
Qed.

(* ===================================================================== *)
(** * Runs *)
(* ===================================================================== *)

Lemma skipn_length_app {A : Type} (l l' : list A) :
  skipn (List.length l) (l ++ l') = l'.
Proof. induction l as [|x l IH]; simpl; auto. Qed.

Lemma read_text_some (w : world) (path : string) (content : str) :
  files w path = Some content ->
  read_text path w = (Return (as_read content), w).
Proof. intros H. unfold read_text. now rewrite H. Qed.

Lemma str_eqb_refl (s : str) : str_eqb s s = true.
Proof. induction s as [|c s IH]; simpl; [|rewrite N.eqb_refl]; auto. Qed.

Lemma str_eqb_eq (a b : str) : str_eqb a b = true <-> a = b.
Proof.
  split; [|intros ->; apply str_eqb_refl].
  revert b. induction a as [|x a IH]; destruct b as [|y b]; simpl;
    try discriminate; auto.
  intros H. apply andb_true_iff in H as [H1 H2].
  apply N.eqb_eq in H1. subst. f_equal. auto.
Qed.

(** ** The migration functions *)

Lemma migrate_service_guard (start : str) (path : string) (missing : str)
    (reps subs : table) (done : str) (w : world) (content : str) :
  files w path = Some content ->
  contains logger_import (as_read content) = false ->
  MigrateRemainingServices.migrate_service start path missing reps subs done w
  = (Return false, World (files w) (events w ++ [Print start; Print missing])).
Proof.
  intros Hf Hg. unfold MigrateRemainingServices.migrate_service, bind, print.
  cbn [files events]. unfold read_text. cbn [files]. rewrite Hf.
  fold logger_import. unfold as_read in Hg. rewrite Hg. cbn.
  now rewrite <- app_assoc.
Qed.

Lemma migrate_service_pass (start : str) (path : string) (missing : str)
    (reps subs : table) (done : str) (w : world) (content c1 c2 : str) :
  files w path = Some content ->
  contains logger_import (as_read content) = true ->
  sub_all reps (as_read content) = Some c1 ->
  sub_all subs c1 = Some c2 ->
  MigrateRemainingServices.migrate_service start path missing reps subs done w
  = (Return true,
     World (fun p => if String.eqb p path then Some c2 else files w p)
           (events w ++ [Print start; Write path c2; Print done])).
Proof.
  intros Hf Hg H1 H2.
  unfold MigrateRemainingServices.migrate_service, bind, print.
  cbn [files events]. unfold read_text. cbn [files]. rewrite Hf.
  fold logger_import. unfold as_read in *. rewrite Hg. cbn [negb].
  rewrite H1. cbn. rewrite H2. cbn. now rewrite <- !app_assoc.
Qed.

Lemma migrate_context_cache_guard (w : world) (content : str) :
  files w MigrateConsoleToLogger.path = Some content ->
  contains logger_import (as_read content) = false ->
  MigrateConsoleToLogger.migrate_context_cache w
  = (Return tt,
     World (files w)
           (events w
            ++ [Print (u "ERREUR: Logger non importé dans ContextCacheService!")])).
Proof.
  intros Hf Hg. unfold MigrateConsoleToLogger.migrate_context_cache, bind, print.
  unfold read_text. rewrite Hf. fold logger_import. unfold as_read in Hg.
  rewrite Hg. reflexivity.
Qed.

Lemma migrate_context_cache_pass (w : world) (content c1 : str) :
  files w MigrateConsoleToLogger.path = Some content ->
  contains logger_import (as_read content) = true ->
  sub_all MigrateConsoleToLogger.context_cache_replacements (as_read content)
  = Some c1 ->
  MigrateConsoleToLogger.migrate_context_cache w
  = (Return tt,
     World (fun p => if String.eqb p MigrateConsoleToLogger.path
                     then Some c1 else files w p)
           (events w
            ++ [Write MigrateConsoleToLogger.path c1;
                Print (u "✅ ContextCacheService.ts migré")])).
Proof.
  intros Hf Hg H1.
  unfold MigrateConsoleToLogger.migrate_context_cache, bind, print.
  unfold read_text. rewrite Hf. fold logger_import. unfold as_read in *.
  rewrite Hg. cbn [negb]. rewrite H1. cbn. now rewrite <- !app_assoc.
Qed.

Lemma migrate_remaining_run (path : string) (subs : table) (done : str)
    (w : world) (content c1 : str) :
  files w path = Some content ->
  sub_all subs (as_read content) = Some c1 ->
  MigrateRemainingConsole.migrate_remaining path subs done w
  = (Return tt,
     World (fun p => if String.eqb p path then Some c1 else files w p)
           (events w ++ [Write path c1; Print done])).
Proof.
  intros Hf H1. unfold MigrateRemainingConsole.migrate_remaining, bind, print.
  unfold read_text. rewrite Hf. unfold as_read in *. rewrite H1. cbn.
  now rewrite <- !app_assoc.
Qed.

Lemma only_prints_intro {A : Type} (c : IO A) (w : world) (a : outcome A)
    (msgs : list str) :
  c w = (a, World (files w) (events w ++ map Print msgs)) ->
  only_prints c w.
Proof.
  intros H. unfold only_prints, files_after, writes_of. rewrite H.
  cbn [snd files events]. split; [reflexivity|]. rewrite skipn_length_app.
  clear H. induction msgs as [|x msgs IH]; simpl; auto.
Qed.

Lemma only_prints_void {A : Type} (c : IO A) (w : world) :
  only_prints c w -> only_prints (void c) w.
Proof. unfold only_prints, files_after, writes_of, void. now cbn. Qed.

(** ** The tables compile *)

Ltac table_compiles :=
  unfold rules_of;
  match goal with
  | |- compile_table ?t = Some _ =>
    let E := fresh "E" in
    destruct (compile_table t) eqn:E;
    [reflexivity | vm_compute in E; discriminate E]
  end.

Lemma context_cache_compiles :
  compile_table MigrateConsoleToLogger.context_cache_replacements
  = Some (rules_of MigrateConsoleToLogger.context_cache_replacements).
Proof. table_compiles. Qed.

Lemma remaining_email_compiles :
  compile_table MigrateRemainingConsole.remaining_email_subs
  = Some (rules_of MigrateRemainingConsole.remaining_email_subs).
Proof. table_compiles. Qed.

Lemma remaining_predictive_compiles :
  compile_table MigrateRemainingConsole.remaining_predictive_subs
  = Some (rules_of MigrateRemainingConsole.remaining_predictive_subs).
Proof. table_compiles. Qed.

Lemma remaining_sql_compiles :
  compile_table MigrateRemainingConsole.remaining_sql_subs
  = Some (rules_of MigrateRemainingConsole.remaining_sql_subs).
Proof. table_compiles. Qed.

Lemma sql_engine_replacements_compile :
  compile_table MigrateRemainingServices.sql_engine_replacements
  = Some (rules_of MigrateRemainingServices.sql_engine_replacements).
Proof. table_compiles. Qed.

Lemma sql_engine_subs_compile :
  compile_table MigrateRemainingServices.sql_engine_subs
  = Some (rules_of MigrateRemainingServices.sql_engine_subs).
Proof. table_compiles. Qed.

Lemma email_service_replacements_compile :
  compile_table MigrateRemainingServices.email_service_replacements
  = Some (rules_of MigrateRemainingServices.email_service_replacements).
Proof. table_compiles. Qed.

Lemma email_service_subs_compile :
  compile_table MigrateRemainingServices.email_service_subs
  = Some (rules_of MigrateRemainingServices.email_service_subs).
Proof. table_compiles. Qed.

Lemma predictive_engine_replacements_compile :
  compile_table MigrateRemainingServices.predictive_engine_replacements
  = Some (rules_of MigrateRemainingServices.predictive_engine_replacements).
Proof. table_compiles. Qed.

Lemma predictive_engine_subs_compile :
  compile_table MigrateRemainingServices.predictive_engine_subs
  = Some (rules_of MigrateRemainingServices.predictive_engine_subs).
Proof. table_compiles. Qed.

(** A table that compiles never makes the loop raise. *)
Lemma sub_all_compiled (tbl : table) (text : str) :
  compile_table tbl = Some (rules_of tbl) ->
  sub_all tbl text = Some (fst (rewrite (rules_of tbl) text)).
Proof. intros H. now rewrite sub_all_rewrite, H. Qed.

(** ** Words *)

Lemma m_word (cs : str) :
  forall pos s c k,
    m (word cs) pos s c k
    = if startswith cs s
      then k (pos + List.length cs) (skipn (List.length cs) s) c
      else None.
Proof.
  induction cs as [|a cs IH]; intros pos s c k.
  - simpl. now rewrite Nat.add_0_r.
  - destruct s as [|x s]; [reflexivity|].
    cbn [word fold_right m startswith]. rewrite (N.eqb_sym x a).
    destruct (N.eqb a x); [|reflexivity].
    fold (word cs). rewrite IH. cbn [andb List.length skipn].
    now rewrite Nat.add_succ_r.
Qed.

Lemma match_at_word (cs : str) (pos : nat) (s : str) :
  match_at (word cs) false pos s
  = if startswith cs s then Some (pos + List.length cs, []) else None.
Proof. unfold match_at. now rewrite m_word. Qed.

Lemma search_word (cs : str) (s : str) :
  forall pos, search_from (word cs) pos s = None <-> contains cs s = false.
Proof.
  induction s as [|x s IH]; intros pos; cbn [search_from contains];
    rewrite match_at_word.
  - destruct (startswith cs []); simpl; split; congruence.
  - destruct (startswith cs (x :: s)); simpl.
    + split; congruence.
    + apply IH.
Qed.

(** No match of the pattern of [verify]: no [console.] in the text. *)
Lemma console_count_zero (content : str) :
  console_count content = 0
  <-> contains (u "console.") (as_read content) = false.
Proof.
  unfold console_count. rewrite length_zero_iff_nil, re_findall_nil_iff.
  apply search_word.
Qed.

Lemma console_pattern_compiles :
  re_compile console_pattern = Some (word (u "console.")).
Proof. reflexivity. Qed.

(** ** The loop of [verify] *)

Lemma verify_loop_spec (ps : list string) :
  forall (ok : bool) (w : world) (cs : list str),
    Forall2 (fun p c => files w p = Some c) ps cs ->
    exists msgs,
      verify_loop ps ok w
      = (Return (ok && forallb (fun c => Nat.eqb (console_count c) 0) cs),
         World (files w) (events w ++ map Print msgs)).
Proof.
  induction ps as [|p ps IH]; intros ok w cs H; inversion H as [|? c ? cs' Hp Hps];
    subst.
  - exists []. simpl. unfold ret. rewrite andb_true_r, app_nil_r.
    now destruct w.
  - cbn [verify_loop]. unfold bind at 1. rewrite (read_text_some _ _ Hp).
    unfold bind at 1. rewrite console_pattern_compiles. cbn [of_re ret].
    fold (console_count c). cbn [forallb].
    destruct (Nat.eqb (console_count c) 0) eqn:E.
    + unfold bind, print.
      match goal with
      | |- context [verify_loop ps ok ?w'] =>
        destruct (IH ok w' cs' Hps) as [msgs Hm]; rewrite Hm
      end.
      cbn [files events]. rewrite <- app_assoc.
      eexists (_ :: msgs). cbn [map app andb]. reflexivity.
    + unfold bind, print.
      match goal with
      | |- context [verify_loop ps false ?w'] =>
        destruct (IH false w' cs' Hps) as [msgs Hm]; rewrite Hm
      end.
      cbn [files events]. rewrite <- app_assoc.
      eexists (_ :: msgs). cbn [map app andb]. now rewrite andb_false_r.
Qed.

(** ** Guarded and unguarded migrations *)

Lemma guarded_service (start : str) (path : string) (missing : str)
    (reps subs : table) (done : str) (w : world) (content : str) :
  files w path = Some content ->
  contains logger_import (as_read content) = false ->
  only_prints
    (void (MigrateRemainingServices.migrate_service start path missing
             reps subs done)) w
  /\ fst (void (MigrateRemainingServices.migrate_service start path missing
                  reps subs done) w) = Return tt.
Proof.
  intros Hf Hg.
  pose proof (@migrate_service_guard start path missing reps subs done
                w content Hf Hg) as Hm.
  split.
  - apply only_prints_void.
    eapply only_prints_intro with (msgs := [start; missing]). exact Hm.
  - unfold void. now rewrite Hm.
Qed.

Lemma unguarded_remaining (path : string) (subs : table) (done : str)
    (w : world) (content : str) :
  compile_table subs = Some (rules_of subs) ->
  files w path = Some content ->
  exists text,
    writes_of (MigrateRemainingConsole.migrate_remaining path subs done) w
    = [Write path text].
Proof.
  intros Hc Hf.
  pose proof (@sub_all_compiled subs (as_read content) Hc) as Hs.
  pose proof (@migrate_remaining_run path subs done w content _ Hf Hs) as Hm.
  eexists. unfold writes_of. rewrite Hm. cbn [snd events].
  rewrite skipn_length_app. reflexivity.
Qed.



(* ===================================================================== *)
(** * Texts without a console call *)
(* ===================================================================== *)

Lemma startswith_iff (p s : str) :
  startswith p s = true <-> exists q, s = p ++ q.
Proof.
  revert s. induction p as [|x p IH]; intros s; simpl.
  - split; eauto.
  - destruct s as [|y s].
    + split; [discriminate|]. intros [q H]. discriminate.
    + rewrite andb_true_iff, N.eqb_eq, IH. split.
      * intros [-> [q ->]]. eauto.
      * intros [q H]. injection H as -> ->. eauto.
Qed.

Lemma contains_iff (sub s : str) :
  contains sub s = true <-> exists a b, s = a ++ sub ++ b.
Proof.
  induction s as [|y s IH]; cbn [contains]; rewrite orb_true_iff.
  - rewrite startswith_iff. split.
    + intros [[q H]|H]; [|discriminate]. exists [], q. exact H.
    + intros [a [b H]]. left. destruct a; [|discriminate]. eauto.
  - rewrite startswith_iff, IH. split.
    + intros [[q H]|[a [b H]]].
      * exists [], q. exact H.
      * exists (y :: a), b. now rewrite H.
    + intros [a [b H]]. destruct a as [|x a].
      * left. eauto.
      * right. injection H as _ H. eauto.
Qed.

Lemma contains_trans (a b c : str) :
  contains a b = true -> contains b c = true -> contains a c = true.
Proof.
  rewrite !contains_iff. intros [p [q ->]] [p' [q' ->]].
  exists (p' ++ p), (q ++ q'). now rewrite <- !app_assoc.
Qed.

Lemma word_of_sound (r : regex) :
  forall cs, word_of r = Some cs -> r = word cs.
Proof.
  induction r as [| | | | |r1 _ r2 IH| | |]; intros ws H; try discriminate.
  - injection H as <-. reflexivity.
  - destruct r1; try discriminate. simpl in H.
    destruct (word_of r2) as [ws'|]; [|discriminate].
    injection H as <-. simpl. now rewrite (IH ws').
Qed.

(** A word with [console.] in it matches nowhere in a text without
    [console.]. *)
Lemma console_rule_silent (r : rule) (text : str) :
  console_rule r = true ->
  contains (u "console.") text = false ->
  silent text r.
Proof.
  unfold console_rule, silent, re_search. intros Hr Ht.
  destruct (word_of (pat r)) as [cs|] eqn:E; [|discriminate].
  rewrite (word_of_sound _ E). apply search_word.
  destruct (contains cs text) eqn:Ec; [|reflexivity].
  rewrite (contains_trans _ _ _ Hr Ec) in Ht. discriminate.
Qed.

(** A table of such rules leaves a text without [console.] as it is: once
    a run has left no console call, which is what [verify] looks for,
    further runs of the table change nothing. *)
Lemma console_table_settles (tbl : table) (text : str) :
  compile_table tbl = Some (rules_of tbl) ->
  forallb console_rule (rules_of tbl) = true ->
  contains (u "console.") text = false ->
  rewrite (rules_of tbl) text = (text, 0) /\ sub_all tbl text = Some text.
Proof.
  intros Hc Hr Ht.
  assert (Hs : Forall (silent text) (rules_of tbl)).
  { apply Forall_forall. intros r Hin. apply console_rule_silent; [|exact Ht].
    rewrite forallb_forall in Hr. now apply Hr. }
  split; [now apply rewrite_silent|].
  rewrite sub_all_rewrite, Hc. cbn [option_map]. now rewrite (rewrite_silent Hs).
Qed.

(** This is so for every table but the two of the SQL engine, which end
    with the rule for blank lines. *)
Lemma console_tables :
  forallb (fun tbl => forallb console_rule (rules_of tbl))
    [ MigrateConsoleToLogger.context_cache_replacements;
      MigrateRemainingConsole.remaining_email_subs;
      MigrateRemainingConsole.remaining_predictive_subs;
      MigrateRemainingServices.email_service_replacements;
      MigrateRemainingServices.email_service_subs;
      MigrateRemainingServices.predictive_engine_replacements;
      MigrateRemainingServices.predictive_engine_subs;
      MigrateRemainingServices.sql_engine_replacements ]
  = true.
Proof. vm_compute. reflexivity. Qed.

(* ===================================================================== *)
(** * The pattern-rewrite engine: properties *)
(* ===================================================================== *)

(** C2. No-op stability: on a document in which none of the patterns of
    the rules matches, the rewrite engine returns the text as it was and a
    change count of 0; so does the loop of the scripts over any table
    whose compiled rules these are. *)
Theorem no_op_stability (rules : list rule) (text : str) :
  Forall (silent text) rules ->
  rewrite rules text = (text, 0)
  /\ forall tbl, compile_table tbl = Some rules -> sub_all tbl text = Some text.
Proof.
  intros Hs. split.
  - now apply rewrite_silent.
  - intros tbl Hc. rewrite sub_all_rewrite, Hc. cbn [option_map].
    now rewrite (rewrite_silent Hs).
Qed.

Lemma no_op_stability_witness :
  let rules := rules_of MigrateRemainingConsole.remaining_sql_subs in
  let text := py "import { logger } from './logger';\nconst x = 1;\n" in
  rewrite rules text = (text, 0)
  /\ forall tbl, compile_table tbl = Some rules -> sub_all tbl text = Some text.
Proof.
  apply no_op_stability.
  apply silent_forallb. vm_compute. reflexivity.
Defined.

(** The same on the two rules of [fix-storage-facade-final.py], whose
    replacements are callables. *)
Example no_op_callables :
  let text := py "const a = { b: 1 };\n" in
  FixStorageFacadeFinal.apply_patterns text = Some (text, 0).
Proof. vm_compute. reflexivity. Qed.

(** C5. Sequential application: the rules are applied in the order of the
    list, each to the text the rules before it produced. Cutting the list
    anywhere, the second part works on the result of the first (and the
    counts add up); the same holds of the loop of the scripts over a
    table. *)
Theorem rules_apply_in_order (rs1 rs2 : list rule) (t1 t2 : table)
    (text : str) :
  rewrite (rs1 ++ rs2) text
  = (fst (rewrite rs2 (fst (rewrite rs1 text))),
     snd (rewrite rs1 text) + snd (rewrite rs2 (fst (rewrite rs1 text))))
  /\ rewrite (rs1 ++ rs2) text
     = fold_left apply_rule rs2 (rewrite rs1 text)
  /\ sub_all (t1 ++ t2) text
     = match sub_all t1 text with
       | Some text' => sub_all t2 text'
       | None => None
       end.
Proof.
  split; [apply rewrite_app|]. split; [|apply sub_all_app].
  unfold rewrite. apply fold_left_app.
Qed.

(** The second rule sees what the first one wrote: with [A -> X(Y)] and
    then [X( -> Z(], the text [A] becomes [Z(Y)]; in the other order it
    becomes [X(Y)]. *)
Example order_matters :
  sub_all [(u "A", u "X(Y)"); (u "X\(", u "Z(")] (u "A") = Some (u "Z(Y)")
  /\ sub_all [(u "X\(", u "Z("); (u "A", u "X(Y)")] (u "A") = Some (u "X(Y)").
Proof. split; reflexivity. Qed.

(** C3, as the code has it. A second application changes nothing and
    counts 0 when the text the first application produced holds no match
    of any pattern of the rule set. *)
Theorem second_pass_when_settled (rules : list rule) (text : str) :
  Forall (silent (fst (rewrite rules text))) rules ->
  rewrite rules (fst (rewrite rules text)) = (fst (rewrite rules text), 0).
Proof. intros H. now apply rewrite_silent. Qed.

Lemma second_pass_when_settled_witness :
  let rules := rules_of MigrateRemainingServices.sql_engine_replacements in
  let text := u "console.log(`[SQLEngine] ${generatedSQL}`);" in
  rewrite rules (fst (rewrite rules text)) = (fst (rewrite rules text), 0).
Proof.
  apply second_pass_when_settled.
  apply silent_forallb. vm_compute. reflexivity.
Defined.

(** C3, as stated, fails on [migrate_sql_engine]: the rule that deletes a
    separator line joins the text around it, and what it joins can be a
    console statement that only the next run removes. *)
Lemma second_pass_changes_text :
  let path := "server/services/SQLEngineService.ts" in
  let separator :=
    u "console.log(`[SQLEngine] ========================================`);" in
  let doc :=
    u "import { logger }" ++ u "conso" ++ separator
    ++ u "le.log(`[SQLEngine] ========================================`);" in
  let run := MigrateRemainingServices.migrate_sql_engine in
  let w1 := snd (run (one_file path doc)) in
  let w2 := snd (run w1) in
  let rules := rules_of (MigrateRemainingServices.sql_engine_replacements
                         ++ MigrateRemainingServices.sql_engine_subs) in
  files w1 path = Some (u "import { logger }" ++ separator)
  /\ files w2 path = Some (u "import { logger }")
  /\ files w2 path <> files w1 path
  /\ rewrite rules (fst (rewrite rules doc)) = (u "import { logger }", 1).
Proof.
  cbv zeta. split; [vm_compute; reflexivity|].
  split; [vm_compute; reflexivity|].
  split; [vm_compute; discriminate|].
  vm_compute; reflexivity.
Qed.

(** In [fix-storage-facade-final.py] the second pattern matches the block
    its own callable writes: on a block already in its final form the
    text stays, and [fixed_count[0]] is 1 on every run. *)
Example final_counts_settled_block :
  let text := py "foo({\n        metadata: {\n          a: 1\n        }\n      });" in
  FixStorageFacadeFinal.apply_patterns text = Some (text, 1).
Proof. vm_compute. reflexivity. Qed.

(** The second call sees what the first one wrote: one block, rewritten
    by the first callable and then once more by the second. *)
Example final_second_call_on_first :
  FixStorageFacadeFinal.apply_patterns
    (py "this.facadeLogger.info('msg', { metadata: { a: 1 }\n        }\n      );")
  = Some (py "this.facadeLogger.info('msg', {\n        metadata: {\n          'msg',\n          {         metadata: {           a: 1\n        }\n      });",
          2).
Proof. vm_compute. reflexivity. Qed.

(* ===================================================================== *)
(** * The guard on the import of the logger *)
(* ===================================================================== *)

(** C8, as the code has it. Each migration function of
    [migrate_console_to_logger.py] and of [migrate_remaining_services.py]
    returns at once, and writes nothing, when the file it reads does not
    contain [import { logger }]: the files are as they were. The three
    functions of [migrate_remaining_console.py] make no such test: they
    write the file they read on every run. *)
Theorem guarded_migration_keeps_file (path : string) (f : IO unit)
    (w : world) (content : str) :
  files w path = Some content ->
  (In (path, f) guarded_migrations ->
   contains logger_import (as_read content) = false ->
   only_prints f w /\ fst (f w) = Return tt)
  /\ (In (path, f) unguarded_migrations ->
      exists text, writes_of f w = [Write path text]).
Proof.
  intros Hf. split.
  - intros Hin Hg. unfold guarded_migrations in Hin. cbn [In] in Hin.
    destruct Hin as [E|[E|[E|[E|[]]]]]; inversion E; subst; clear E.
    + pose proof (@migrate_context_cache_guard w content Hf Hg) as Hm.
      rewrite Hm. split; [|reflexivity].
      eapply only_prints_intro with (msgs := [_]). exact Hm.
    + unfold MigrateRemainingServices.migrate_email_service.
      apply (@guarded_service _ _ _ _ _ _ w content Hf Hg).
    + unfold MigrateRemainingServices.migrate_predictive_engine.
      apply (@guarded_service _ _ _ _ _ _ w content Hf Hg).
    + unfold MigrateRemainingServices.migrate_sql_engine.
      apply (@guarded_service _ _ _ _ _ _ w content Hf Hg).
  - intros Hin. unfold unguarded_migrations in Hin. cbn [In] in Hin.
    destruct Hin as [E|[E|[E|[]]]]; inversion E; subst; clear E.
    + unfold MigrateRemainingConsole.migrate_remaining_email.
      eapply unguarded_remaining; [exact remaining_email_compiles|exact Hf].
    + unfold MigrateRemainingConsole.migrate_remaining_predictive.
      eapply unguarded_remaining;
        [exact remaining_predictive_compiles|exact Hf].
    + unfold MigrateRemainingConsole.migrate_remaining_sql.
      eapply unguarded_remaining; [exact remaining_sql_compiles|exact Hf].
Qed.

Lemma guarded_migration_keeps_file_witness :
  let path := "server/services/emailService.ts" in
  let f := void MigrateRemainingServices.migrate_email_service in
  let w := one_file path (u "console.log('=== FIN INVITATION FOURNISSEUR ===');")
  in only_prints f w /\ fst (f w) = Return tt.
Proof.
  cbv zeta.
  refine (proj1 (@guarded_migration_keeps_file
                   "server/services/emailService.ts" _ _
                   (u "console.log('=== FIN INVITATION FOURNISSEUR ===');")
                   _) _ _).
  - reflexivity.
  - right. left. reflexivity.
  - vm_compute. reflexivity.
Defined.

(** C8, as stated, fails on the functions of
    [migrate_remaining_console.py]: they have no such test, and rewrite a
    file that does not import the logger. *)
Lemma unguarded_migration_writes :
  let path := "server/services/SQLEngineService.ts" in
  let content := u "console.error('[SQLEngine] Erreur logging:', error);" in
  let f := MigrateRemainingConsole.migrate_remaining_sql in
  let w := one_file path content in
  let new := py "logger.error('Erreur logging', {
      metadata: {
        service: 'SQLEngineService',
        operation: 'logQueryToAudit',
        error: error instanceof Error ? error.message : String(error),
        stack: error instanceof Error ? error.stack : undefined
      }
    });" in
  In (path, f) unguarded_migrations
  /\ contains logger_import (as_read content) = false
  /\ files_after f w path = Some new
  /\ files_after f w path <> files w path
  /\ writes_of f w = [Write path new].
Proof.
  cbv zeta. split; [right; right; left; reflexivity|].
  split; [vm_compute; reflexivity|].
  split; [vm_compute; reflexivity|].
  split; [vm_compute; discriminate|].
  vm_compute; reflexivity.
Qed.

(* ===================================================================== *)
(** * The verification step *)
(* ===================================================================== *)

(** C9. With the three service files in place, [verify] and
    [verify_migrations] return [True] exactly when each of the three
    files has no match of the pattern [console\.], and [False] when one
    of them has a match; they write nothing. *)
Theorem verify_succeeds_iff (w : world) (c1 c2 c3 : str) :
  files w "server/services/emailService.ts" = Some c1 ->
  files w "server/services/PredictiveEngineService.ts" = Some c2 ->
  files w "server/services/SQLEngineService.ts" = Some c3 ->
  exists ok : bool,
    fst (MigrateRemainingConsole.verify w) = Return ok
    /\ fst (MigrateRemainingServices.verify_migrations w) = Return ok
    /\ (ok = true <->
        console_count c1 = 0 /\ console_count c2 = 0 /\ console_count c3 = 0)
    /\ (ok = false <->
        0 < console_count c1 \/ 0 < console_count c2 \/ 0 < console_count c3)
    /\ only_prints MigrateRemainingConsole.verify w
    /\ only_prints MigrateRemainingServices.verify_migrations w.
Proof.
  intros H1 H2 H3.
  set (cs := [c1; c2; c3]).
  assert (HF : forall w', files w' = files w ->
               Forall2 (fun p c => files w' p = Some c) services cs).
  { intros w' E. unfold services, cs. rewrite E.
    repeat constructor; assumption. }
  exists (forallb (fun c => Nat.eqb (console_count c) 0) cs).
  destruct (@verify_loop_spec services true w cs (HF w eq_refl)) as [m1 E1].
  set (w' := World (files w)
               (events w ++ [Print (py "\n🔍 Vérification des migrations...")])).
  destruct (@verify_loop_spec services true w' cs (HF w' eq_refl)) as [m2 E2].
  assert (E3 : MigrateRemainingServices.verify_migrations w
               = (Return (forallb (fun c => Nat.eqb (console_count c) 0) cs),
                  World (files w)
                    (events w
                     ++ map Print
                          (py "\n🔍 Vérification des migrations..." :: m2)))).
  { unfold MigrateRemainingServices.verify_migrations, bind, print.
    fold w'. rewrite E2. cbn [files events andb w']. now rewrite <- app_assoc. }
  unfold MigrateRemainingConsole.verify. rewrite E1, E3. cbn [fst andb].
  assert (Ht : forallb (fun c => Nat.eqb (console_count c) 0) cs = true
               <-> console_count c1 = 0 /\ console_count c2 = 0
                   /\ console_count c3 = 0).
  { unfold cs. cbn [forallb].
    rewrite !andb_true_iff, !Nat.eqb_eq. tauto. }
  split; [reflexivity|]. split; [reflexivity|]. split; [exact Ht|].
  split.
  - rewrite <- not_true_iff_false, Ht. lia.
  - split.
    + eapply only_prints_intro. exact E1.
    + eapply only_prints_intro. exact E3.
Qed.

Lemma verify_succeeds_iff_witness :
  let w := three_files (u "logger.info('a');") (u "console.log('b');")
             (u "const c = 1;") in
  exists ok : bool,
    fst (MigrateRemainingConsole.verify w) = Return ok
    /\ fst (MigrateRemainingServices.verify_migrations w) = Return ok
    /\ (ok = true <->
        console_count (u "logger.info('a');") = 0
        /\ console_count (u "console.log('b');") = 0
        /\ console_count (u "const c = 1;") = 0)
    /\ (ok = false <->
        0 < console_count (u "logger.info('a');")
        \/ 0 < console_count (u "console.log('b');")
        \/ 0 < console_count (u "const c = 1;"))
    /\ only_prints MigrateRemainingConsole.verify w
    /\ only_prints MigrateRemainingServices.verify_migrations w.
Proof.
  cbv zeta. apply verify_succeeds_iff; reflexivity.
Defined.

(* ===================================================================== *)
(** * The indentation repair: one round *)
(* ===================================================================== *)

Section Rounds.

Import FixIndentation Shape.

Lemma compiled_indent :
  compiled indent_pattern
  = Return (Seq Bol (Seq (Group 1 (Seq (Star true Space) Eps)) Eps)).
Proof. reflexivity. Qed.

Lemma compiled_metadata : exists r, compiled metadata_pattern = Return r.
Proof. eexists. vm_compute. reflexivity. Qed.

Lemma compiled_logger : exists r, compiled logger_pattern = Return r.
Proof. eexists. vm_compute. reflexivity. Qed.

Lemma compiled_property :
  exists r, re_compile property_pattern = Some r
            /\ compiled property_pattern = Return r.
Proof. eexists. split; vm_compute; reflexivity. Qed.

(** A greedy repetition in front of a continuation that cannot fail
    cannot fail. *)
Lemma star_total (r : regex) (pos : nat) (s : str) (c : caps)
    (k : nat -> str -> caps -> option (nat * caps)) :
  (forall p s' c', k p s' c' <> None) ->
  m (Star true r) pos s c k <> None.
Proof.
  intros Hk. cbn [m]. destruct (m r pos s c _).
  - discriminate.
  - apply Hk.
Qed.

Lemma m_seq (r1 r2 : regex) (pos : nat) (s : str) (c : caps)
    (k : nat -> str -> caps -> option (nat * caps)) :
  m (Seq r1 r2) pos s c k
  = m r1 pos s c (fun pos' s' c' => m r2 pos' s' c' k).
Proof. reflexivity. Qed.

Lemma m_group (i : nat) (r : regex) (pos : nat) (s : str) (c : caps)
    (k : nat -> str -> caps -> option (nat * caps)) :
  m (Group i r) pos s c k
  = m r pos s c
      (fun pos' s' c' => k pos' s' ((i, firstn (pos' - pos) s) :: c')).
Proof. reflexivity. Qed.

Lemma m_bol (s : str) (c : caps)
    (k : nat -> str -> caps -> option (nat * caps)) :
  m Bol 0 s c k = k 0 s c.
Proof. reflexivity. Qed.

(** The pattern of the leading white space matches every line. *)
Lemma indent_of_total (line : str) : exists s, indent_of line = Return s.
Proof.
  unfold indent_of. rewrite compiled_indent. cbn [obind].
  unfold re_match, match_at.
  rewrite m_seq, m_bol, m_seq, m_group, m_seq.
  destruct (m (Star true Space) 0 line [] _) as [[e cs]|] eqn:E.
  - eexists. reflexivity.
  - exfalso. revert E. apply star_total. intros p s' c'. cbn [m].
    discriminate.
Qed.

Lemma find_anchor_some (f : str -> bool) (lines : list str) (i j : nat) :
  find_anchor f lines i = Some j -> j < i.
Proof.
  induction i as [|i IH]; simpl; [discriminate|].
  destruct (f (nth i lines [])).
  - intros [= <-]. lia.
  - intros H. specialize (IH H). lia.
Qed.

Lemma find_anchor_none (f : str -> bool) (lines : list str) (i : nat) :
  no_anchor_before f lines i -> find_anchor f lines i = None.
Proof.
  unfold no_anchor_before. induction i as [|i IH]; intros H; simpl.
  - reflexivity.
  - rewrite (H i) by lia. apply IH. intros j Hj. apply H. lia.
Qed.

Lemma item_some (lines : list str) (i : nat) :
  i < List.length lines -> exists l, nth_error lines i = Some l
                                     /\ item lines i = Return l.
Proof.
  intros H. unfold item.
  destruct (nth_error lines i) as [l|] eqn:E.
  - eauto.
  - apply nth_error_None in E. lia.
Qed.

Lemma base_indent_total (f : str -> bool) (d : str) (lines : list str)
    (i : nat) :
  i <= List.length lines ->
  exists b, base_indent_from f d lines i = Return b.
Proof.
  intros Hi. unfold base_indent_from.
  destruct (find_anchor f lines i) as [j|] eqn:E.
  - apply find_anchor_some in E.
    destruct (@item_some lines j) as [l [_ Hl]]; [lia|].
    rewrite Hl. cbn [obind]. apply indent_of_total.
  - eauto.
Qed.

Lemma base_indent_default (f : str -> bool) (d : str) (lines : list str)
    (i : nat) :
  no_anchor_before f lines i -> base_indent_from f d lines i = Return d.
Proof.
  intros H. unfold base_indent_from. now rewrite (find_anchor_none H).
Qed.

Lemma block_lines_total (base_indent line : str) :
  exists o, block_lines base_indent line = Return o.
Proof.
  unfold block_lines.
  destruct compiled_metadata as [mr Hmr]. rewrite Hmr. cbn [obind].
  destruct (re_search mr line) as [mm|]; [|eauto].
  destruct compiled_logger as [lr Hlr]. rewrite Hlr. cbn [obind].
  destruct (re_search lr line) as [lm|]; eauto.
Qed.

(** The first [if] never raises, and it rebuilds a block only when three
    more lines follow. *)
Lemma rebuild_block_total (lines : list str) (i : nat) (line : str) :
  i < List.length lines ->
  exists o, rebuild_block lines i line = Return o
            /\ (o <> None -> is_metadata_line line = true
                             /\ i + 3 < List.length lines).
Proof.
  intros Hi. unfold rebuild_block.
  destruct (is_metadata_line line) eqn:Em; cbn [andb].
  2:{ exists None. split; [reflexivity|congruence]. }
  destruct (Nat.ltb (i + 3) (List.length lines)) eqn:El.
  2:{ exists None. split; [reflexivity|congruence]. }
  apply Nat.ltb_lt in El.
  destruct (@item_some lines (i + 1)) as [l1 [_ H1]]; [lia|].
  destruct (@item_some lines (i + 2)) as [l2 [_ H2]]; [lia|].
  rewrite H1, H2. cbn [obind].
  destruct (closing_lines l1 l2).
  2:{ exists None. split; [reflexivity|congruence]. }
  destruct (@base_indent_total is_logger_line [] lines i) as [b Hb]; [lia|].
  rewrite Hb. cbn [obind].
  destruct (block_lines_total (if null b then default_indent else b) line)
    as [o Ho].
  exists o. split; [exact Ho|]. intros _. split; [reflexivity|exact El].
Qed.

Lemma block_at_iff (lines : list str) (i : nat) (line : str) :
  nth_error lines i = Some line ->
  block_at lines i = true
  <-> exists e, rebuild_block lines i line = Return (Some e).
Proof.
  intros H. unfold block_at. rewrite H.
  destruct (rebuild_block lines i line) as [[e|]|x]; split;
    try discriminate; eauto; intros [e' He']; discriminate.
Qed.

Lemma step_round (lines : list str) (i : nat) (line : str) :
  nth_error lines i = Some line ->
  exists e di df,
    step lines i = Return (e, di, df) /\ round lines i line e di df.
Proof.
  intros Hl.
  assert (Hi : i < List.length lines).
  { apply nth_error_Some. congruence. }
  unfold step, item. rewrite Hl. cbn [obind].
  destruct (@rebuild_block_total lines i line Hi) as [o [Ho Hlen]].
  rewrite Ho. cbn [obind]. destruct o as [e|].
  { exists e, 3, 1. split; [reflexivity|].
    constructor; [exact Ho|]. apply Hlen. discriminate. }
  destruct compiled_property as [pr [Hc Hpr]]. rewrite Hpr. cbn [obind].
  assert (Hp : is_property_line line
               = match re_match pr line with Some _ => true | None => false end).
  { unfold is_property_line. now rewrite Hc. }
  destruct (@base_indent_total is_metadata_line default_indent lines i)
    as [b Hb]; [lia|].
  destruct (re_match pr line) as [mo|].
  - rewrite Hb. cbn [obind]. do 3 eexists. split; [reflexivity|].
    now apply RoundProperty.
  - destruct (is_brace_line line) eqn:Eb.
    + rewrite Hb. cbn [obind]. do 3 eexists. split; [reflexivity|].
      now apply RoundBrace.
    + do 3 eexists. split; [reflexivity|]. now apply RoundCopy.
Qed.

Lemma round_bounds (lines : list str) (i : nat) (line : str)
    (e : list str) (di df : nat) :
  i < List.length lines ->
  round lines i line e di df ->
  (di = 1 \/ di = 3) /\ i + di <= List.length lines /\ df <= 1.
Proof. intros Hi H. destruct H; lia. Qed.

End Rounds.

(* ===================================================================== *)
(** * The indentation repair: the loop *)
(* ===================================================================== *)

Section Loop.

Import FixIndentation Shape.

Variable lines : list str.

Lemma sum_cons (a : nat) (l : list nat) : list_sum (a :: l) = a + list_sum l.
Proof. reflexivity. Qed.

Lemma step_at (i : nat) :
  i < List.length lines ->
  exists line e di df,
    nth_error lines i = Some line
    /\ step lines i = Return (e, di, df)
    /\ round lines i line e di df
    /\ emitted_at lines i = e /\ fixed_at lines i = df.
Proof.
  intros Hi. destruct (@item_some lines i Hi) as [line [Hl _]].
  destruct (@step_round lines i line Hl) as [e [di [df [Hs Hr]]]].
  exists line, e, di, df. unfold emitted_at, fixed_at. rewrite Hs. auto.
Qed.

(** With a round left for every line still to read, the loop ends, and
    its result is what the rounds it went through put out. *)
Lemma loop_result (fuel : nat) :
  forall i acc fx,
    List.length lines <= i + fuel ->
    loop fuel lines i acc fx
    = Some (Return (acc ++ output lines (visits fuel lines i),
                    fx + corrections lines (visits fuel lines i))).
Proof.
  induction fuel as [|fuel IH]; intros i acc fx Hf.
  - simpl. destruct (Nat.ltb i (List.length lines)) eqn:E.
    + apply Nat.ltb_lt in E. lia.
    + unfold output, corrections. simpl. now rewrite app_nil_r, Nat.add_0_r.
  - cbn [loop visits]. destruct (Nat.ltb i (List.length lines)) eqn:E.
    + apply Nat.ltb_lt in E.
      destruct (step_at E) as [line [e [di [df [_ [Hs [Hr [He Hd]]]]]]]].
      rewrite Hs. destruct (round_bounds E Hr) as [Hdi _].
      rewrite IH by lia.
      unfold output, corrections. cbn [flat_map map list_sum fst].
      rewrite He, Hd, <- app_assoc, sum_cons.
      apply f_equal, f_equal, f_equal2; [reflexivity|lia].
    + unfold output, corrections. simpl. now rewrite app_nil_r, Nat.add_0_r.
Qed.

Lemma visits_past (fuel i : nat) :
  List.length lines <= i -> visits fuel lines i = [].
Proof.
  intros H. assert (E : Nat.ltb i (List.length lines) = false).
  { apply Nat.ltb_ge. exact H. }
  destruct fuel; cbn [visits]; now rewrite E.
Qed.

(** More rounds than lines to read change nothing. *)
Lemma visits_indep (f1 : nat) :
  forall f2 i,
    List.length lines <= i + f1 -> List.length lines <= i + f2 ->
    visits f1 lines i = visits f2 lines i.
Proof.
  induction f1 as [|f1 IH]; intros f2 i H1 H2.
  - rewrite !visits_past by lia. reflexivity.
  - destruct (Nat.ltb i (List.length lines)) eqn:E.
    + pose proof E as E'. apply Nat.ltb_lt in E'.
      destruct (step_at E') as [line [e [di [df [_ [Hs [Hr _]]]]]]].
      destruct (round_bounds E' Hr) as [Hdi _].
      destruct f2 as [|f2]; [lia|].
      cbn [visits]. rewrite E, Hs. f_equal. apply IH; lia.
    + apply Nat.ltb_ge in E. rewrite !visits_past by lia. reflexivity.
Qed.

Lemma visits_enough (fuel i : nat) :
  List.length lines <= i + fuel -> visits fuel lines i = trail lines i.
Proof. intros H. unfold trail. apply visits_indep; lia. Qed.

Lemma trail_past (i : nat) : List.length lines <= i -> trail lines i = [].
Proof. intros H. unfold trail. now apply visits_past. Qed.

Lemma trail_step (i : nat) (e : list str) (di df : nat) :
  i < List.length lines ->
  step lines i = Return (e, di, df) ->
  trail lines i = (i, di) :: trail lines (i + di).
Proof.
  intros Hi Hs. unfold trail at 1.
  destruct (List.length lines - i) as [|n] eqn:En; [lia|].
  cbn [visits]. apply Nat.ltb_lt in Hi. rewrite Hi, Hs. f_equal.
  apply Nat.ltb_lt in Hi.
  destruct (step_at Hi) as [line [e' [di' [df' [_ [Hs' [Hr _]]]]]]].
  rewrite Hs in Hs'. injection Hs' as -> -> ->.
  destruct (round_bounds Hi Hr) as [Hdi _].
  apply visits_enough. lia.
Qed.

(** The engine never fails: its result is what its rounds put out. *)
Lemma repair_result :
  repair lines
  = Some (Return (output lines (trail lines 0),
                  corrections lines (trail lines 0))).
Proof.
  unfold repair. rewrite loop_result by lia.
  rewrite visits_enough by lia. reflexivity.
Qed.

(** Every line is read in exactly one round. *)
Lemma trail_covers :
  forall n i,
    List.length lines - i <= n -> i <= List.length lines ->
    flat_map (fun v => seq (fst v) (snd v)) (trail lines i)
    = seq i (List.length lines - i)
    /\ Forall (fun v => snd v = 1 \/ snd v = 3) (trail lines i).
Proof.
  induction n as [|n IH]; intros i Hn Hi.
  - rewrite trail_past by lia.
    replace (List.length lines - i) with 0 by lia. now split.
  - destruct (Nat.eq_dec i (List.length lines)) as [->|Hne].
    + rewrite trail_past by lia. rewrite Nat.sub_diag. now split.
    + assert (Hlt : i < List.length lines) by lia.
      destruct (step_at Hlt) as [line [e [di [df [_ [Hs [Hr _]]]]]]].
      destruct (round_bounds Hlt Hr) as [Hdi [Hle _]].
      rewrite (trail_step Hlt Hs).
      destruct (IH (i + di)) as [IH1 IH2]; [lia|lia|].
      split.
      * cbn [flat_map fst snd]. rewrite IH1.
        replace (List.length lines - i)
          with (di + (List.length lines - (i + di))) by lia.
        now rewrite seq_app.
      * constructor; [exact Hdi|exact IH2].
Qed.

(** A line is read as the first line of a round unless a block rebuilt
    at one of the two lines before takes it. *)
Lemma trail_reaches (i : nat) :
  i < List.length lines ->
  forall n i0,
    i - i0 <= n -> i0 <= i ->
    (forall k, i0 <= k -> k < i -> i < k + 3 -> block_at lines k = false) ->
    exists di pre post,
      trail lines i0 = pre ++ (i, di) :: post.
Proof.
  intros Hi. induction n as [|n IH]; intros i0 Hn H0 Hb.
  - assert (i0 = i) by lia. subst i0.
    destruct (step_at Hi) as [line [e [di [df [_ [Hs _]]]]]].
    exists di, [], (trail lines (i + di)). eapply trail_step; eassumption.
  - destruct (Nat.eq_dec i0 i) as [->|Hne].
    + destruct (step_at Hi) as [line [e [di [df [_ [Hs _]]]]]].
      exists di, [], (trail lines (i + di)). eapply trail_step; eassumption.
    + assert (Hlt : i0 < List.length lines) by lia.
      destruct (step_at Hlt) as [line [e [di [df [Hl [Hs [Hr _]]]]]]].
      assert (Hle : i0 + di <= i).
      { destruct Hr as [e He Hlen| | |]; try lia.
        destruct (Nat.le_gt_cases (i0 + 3) i) as [|Hgt]; [assumption|].
        assert (Hf : block_at lines i0 = false) by (apply Hb; lia).
        assert (Ht : block_at lines i0 = true).
        { apply (@block_at_iff lines i0 line Hl). eauto. }
        congruence. }
      destruct (round_bounds Hlt Hr) as [Hdi _].
      destruct (IH (i0 + di)) as [dj [pre [post Ht]]]; [lia|lia| |].
      { intros k Hk1 Hk2 Hk3. apply Hb; lia. }
      exists dj, ((i0, di) :: pre), post.
      rewrite (trail_step Hlt Hs), Ht. reflexivity.
Qed.

(** As long as no block is rebuilt, round [k] reads line [k]. *)
Lemma trail_aligned :
  forall n i0 i,
    i - i0 <= n -> i0 <= i -> i <= List.length lines ->
    (forall k, i0 <= k -> k < i -> block_at lines k = false) ->
    trail lines i0
    = map (fun k => (k, 1)) (seq i0 (i - i0)) ++ trail lines i.
Proof.
  induction n as [|n IH]; intros i0 i Hn H0 Hi Hb.
  - assert (i0 = i) by lia. subst i0. now rewrite Nat.sub_diag.
  - destruct (Nat.eq_dec i0 i) as [->|Hne].
    + now rewrite Nat.sub_diag.
    + assert (Hlt : i0 < List.length lines) by lia.
      destruct (step_at Hlt) as [line [e [di [df [Hl [Hs [Hr _]]]]]]].
      assert (Hdi : di = 1).
      { destruct Hr as [e He Hlen| | |]; try reflexivity.
        assert (Hf : block_at lines i0 = false) by (apply Hb; lia).
        assert (Ht : block_at lines i0 = true).
        { apply (@block_at_iff lines i0 line Hl). eauto. }
        congruence. }
      subst di. rewrite (trail_step Hlt Hs).
      rewrite (IH (i0 + 1) i) by (try lia; intros k ? ?; apply Hb; lia).
      replace (i - i0) with (S (i - (i0 + 1))) by lia.
      cbn [seq map app]. now rewrite Nat.add_1_r.
Qed.

End Loop.

(* ===================================================================== *)
(** * The indentation repair: properties *)
(* ===================================================================== *)

Section Repair.

Import FixIndentation Shape.

Lemma round_copy (lines : list str) (i : nat) (line : str) :
  nth_error lines i = Some line ->
  block_at lines i = false ->
  is_candidate line = false ->
  emitted_at lines i = [line] /\ fixed_at lines i = 0.
Proof.
  intros Hl Hb Hc.
  assert (Hi : i < List.length lines) by (apply nth_error_Some; congruence).
  destruct (@step_at lines i Hi) as [l [e [di [df [Hl' [_ [Hr [He Hd]]]]]]]].
  rewrite Hl in Hl'. injection Hl' as <-. rewrite He, Hd.
  unfold is_candidate in Hc. apply orb_false_iff in Hc as [Hp Hbr].
  destruct Hr as [e Hblk _|b _ Hp' _|b _ _ Hbr' _|_ _ _].
  - assert (block_at lines i = true)
      by (apply (@block_at_iff lines i line Hl); eauto).
    congruence.
  - congruence.
  - congruence.
  - auto.
Qed.

Lemma round_counts (lines : list str) (i : nat) :
  i < List.length lines ->
  fixed_at lines i = if repaired_at lines i then 1 else 0.
Proof.
  intros Hi.
  destruct (@step_at lines i Hi) as [l [e [di [df [Hl [_ [Hr [_ Hd]]]]]]]].
  rewrite Hd. unfold repaired_at, is_candidate. rewrite Hl.
  assert (Hn : rebuild_block lines i l = Return None ->
               block_at lines i = false).
  { intros H. unfold block_at. now rewrite Hl, H. }
  destruct Hr as [e Hblk _|b Hblk Hp _|b Hblk Hp Hbr _|Hblk Hp Hbr].
  - assert (Ht : block_at lines i = true)
      by (apply (@block_at_iff lines i l Hl); eauto).
    now rewrite Ht.
  - now rewrite (Hn Hblk), Hp.
  - now rewrite (Hn Hblk), Hp, Hbr.
  - now rewrite (Hn Hblk), Hp, Hbr.
Qed.

Lemma trail_in_range (lines : list str) :
  forall n i,
    List.length lines - i <= n ->
    Forall (fun v => fst v < List.length lines) (trail lines i).
Proof.
  induction n as [|n IH]; intros i Hn.
  - rewrite trail_past by lia. constructor.
  - destruct (Nat.le_gt_cases (List.length lines) i) as [Hge|Hlt].
    + rewrite trail_past by lia. constructor.
    + destruct (@step_at lines i Hlt) as [l [e [di [df [_ [Hs [Hr _]]]]]]].
      destruct (@round_bounds lines i l e di df Hlt Hr) as [Hdi _].
      rewrite (@trail_step lines i e di df Hlt Hs).
      constructor; [exact Hlt|]. apply IH. lia.
Qed.

Lemma corrections_filter (lines : list str) (vs : list (nat * nat)) :
  Forall (fun v => fst v < List.length lines) vs ->
  corrections lines vs
  = List.length (filter (fun v => repaired_at lines (fst v)) vs).
Proof.
  unfold corrections. induction 1 as [|v vs Hv _ IH].
  - reflexivity.
  - cbn [map filter]. rewrite sum_cons, IH, (@round_counts lines (fst v) Hv).
    now destruct (repaired_at lines (fst v)).
Qed.

Lemma altered_cons (a b : str) (old new : list str) :
  altered (a :: old) (b :: new)
  = (if str_eqb a b then 0 else 1) + altered old new.
Proof.
  unfold altered. cbn [combine filter fst snd].
  now destruct (str_eqb a b).
Qed.

(** Without a block to rebuild, the rounds over a suffix of the lines put
    out one line for each line, count the candidates, and change no other
    line. *)
Lemma plain_rounds (lines : list str) :
  (forall i, block_at lines i = false) ->
  forall suf pre,
    lines = pre ++ suf ->
    let out :=
      output lines
        (map (fun k => (k, 1)) (seq (List.length pre) (List.length suf))) in
    List.length out = List.length suf
    /\ corrections lines
         (map (fun k => (k, 1)) (seq (List.length pre) (List.length suf)))
       = List.length (filter is_candidate suf)
    /\ altered suf out <= List.length (filter is_candidate suf).
Proof.
  intros Hnb. induction suf as [|l suf IH]; intros pre Hl.
  - cbn. repeat split; lia.
  - assert (Hn : nth_error lines (List.length pre) = Some l).
    { rewrite Hl, nth_error_app2, Nat.sub_diag by lia. reflexivity. }
    assert (Hi : List.length pre < List.length lines)
      by (apply nth_error_Some; congruence).
    destruct (IH (pre ++ [l])) as [IH1 [IH2 IH3]].
    { now rewrite <- app_assoc. }
    rewrite length_app in IH1, IH2, IH3. cbn [List.length] in IH1, IH2, IH3.
    rewrite Nat.add_1_r in IH1, IH2, IH3.
    cbn [List.length seq map]. unfold output, corrections in *.
    cbn [flat_map map fst filter]. rewrite sum_cons.
    destruct (@step_at lines (List.length pre) Hi)
      as [l' [e [di [df [Hl' [_ [Hr [He Hd]]]]]]]].
    rewrite Hn in Hl'. injection Hl' as <-. rewrite He, Hd.
    assert (Hblk : forall e', rebuild_block lines (List.length pre) l
                              <> Return (Some e')).
    { intros e' He'. specialize (Hnb (List.length pre)).
      assert (block_at lines (List.length pre) = true)
        by (apply (@block_at_iff lines _ l Hn); eauto).
      congruence. }
    destruct Hr as [e Hb _|b _ Hp _|b _ Hp Hbr _|_ Hp Hbr].
    + exfalso. exact (Hblk e Hb).
    + assert (Hc : is_candidate l = true)
        by (unfold is_candidate; now rewrite Hp).
      rewrite !Hc. cbn [app List.length]. rewrite altered_cons.
      repeat split; try lia. destruct (str_eqb l _); lia.
    + assert (Hc : is_candidate l = true)
        by (unfold is_candidate; now rewrite Hp, Hbr).
      rewrite !Hc. cbn [app List.length]. rewrite altered_cons.
      repeat split; try lia. destruct (str_eqb l _); lia.
    + assert (Hc : is_candidate l = false)
        by (unfold is_candidate; now rewrite Hp, Hbr).
      rewrite !Hc. cbn [app List.length]. rewrite altered_cons.
      rewrite str_eqb_refl. repeat split; lia.
Qed.

(** C10. The loop over the lines ends: one round for each line is enough
    (and more rounds give the same result); every round moves the index
    on by 1 or by 3; and the lines the rounds read, taken in order, are
    the lines of the input, each one once. The result of the engine is
    what these rounds put out and count. *)
Theorem loop_terminates (lines : list str) :
  (exists out n, repair lines = Some (Return (out, n)))
  /\ (forall fuel, List.length lines <= fuel ->
                   loop fuel lines 0 [] 0 = repair lines)
  /\ Forall (fun v => snd v = 1 \/ snd v = 3)
            (visits (List.length lines) lines 0)
  /\ flat_map (fun v => seq (fst v) (snd v))
              (visits (List.length lines) lines 0)
     = seq 0 (List.length lines)
  /\ repair lines
     = Some (Return
               (output lines (visits (List.length lines) lines 0),
                corrections lines (visits (List.length lines) lines 0))).
Proof.
  rewrite (@visits_enough lines (List.length lines) 0) by lia.
  destruct (@trail_covers lines (List.length lines) 0) as [Hc Hf];
    [lia|lia|].
  rewrite Nat.sub_0_r in Hc.
  split; [|split; [|split; [exact Hf|split; [exact Hc|]]]].
  - rewrite repair_result. eauto.
  - intros fuel Hfuel. rewrite repair_result, loop_result by lia.
    now rewrite visits_enough by lia.
  - apply repair_result.
Qed.

(** C7. A line that is not of a repaired shape (it is neither a property
    line nor a closing brace line, and no block is rebuilt at it or at
    one of the two lines before it) is in the output as it is. *)
Theorem other_lines_pass_through (lines : list str) (i : nat) (line : str) :
  nth_error lines i = Some line ->
  (forall k, k <= i -> i < k + 3 -> block_at lines k = false) ->
  is_candidate line = false ->
  exists out n, repair lines = Some (Return (out, n)) /\ In line out.
Proof.
  intros Hl Hb Hc.
  assert (Hi : i < List.length lines) by (apply nth_error_Some; congruence).
  rewrite repair_result. do 2 eexists. split; [reflexivity|].
  destruct (@trail_reaches lines i Hi i 0) as [di [pre [post Ht]]];
    [lia|lia| |].
  { intros k _ Hk1 Hk2. apply Hb; lia. }
  rewrite Ht. unfold output. rewrite flat_map_app. apply in_or_app. right.
  cbn [flat_map fst]. apply in_or_app. left.
  destruct (@round_copy lines i line Hl) as [He _]; [apply Hb; lia|exact Hc|].
  rewrite He. now left.
Qed.

Lemma other_lines_pass_through_witness :
  let lines := readlines (py "const a = 1;\n              }\nreturn a;\n") in
  exists out n,
    repair lines = Some (Return (out, n)) /\ In (py "return a;\n") out.
Proof.
  cbv zeta. apply other_lines_pass_through with (i := 2).
  - reflexivity.
  - intros k Hk1 Hk2.
    destruct k as [|[|[|k]]]; try lia; vm_compute; reflexivity.
  - vm_compute. reflexivity.
Defined.

(** C6. The engine never raises. When no line before a line holds the
    anchor [metadata: {], the round for that line puts its lines at the
    place of the line, and a property line or a closing brace line gets
    the default indentation of six spaces; a block rebuilt there with no
    logger line above is built on the default indentation too. *)
Theorem missing_anchor_falls_back (lines : list str) (i : nat) (line : str) :
  nth_error lines i = Some line ->
  no_anchor_before is_metadata_line lines i ->
  exists out n post,
    repair lines = Some (Return (out, n))
    /\ skipn i out = emitted_at lines i ++ post
    /\ (block_at lines i = false -> is_property_line line = true ->
        emitted_at lines i
        = [default_indent ++ u "          " ++ strip line ++ py "\n"])
    /\ (block_at lines i = false -> is_property_line line = false ->
        is_brace_line line = true ->
        emitted_at lines i = [default_indent ++ py "        }\n"])
    /\ (block_at lines i = true ->
        no_anchor_before is_logger_line lines i ->
        block_lines default_indent line = Return (Some (emitted_at lines i))).
Proof.
  intros Hl Ha.
  assert (Hi : i < List.length lines) by (apply nth_error_Some; congruence).
  assert (Hnb : forall k, 0 <= k -> k < i -> block_at lines k = false).
  { intros k _ Hk. unfold block_at.
    destruct (nth_error lines k) as [lk|] eqn:Ek; [|reflexivity].
    assert (Hm : is_metadata_line lk = false).
    { rewrite <- (Ha k Hk). f_equal. symmetry. now apply nth_error_nth. }
    unfold rebuild_block. now rewrite Hm. }
  pose proof (@trail_aligned lines i 0 i) as Ht.
  rewrite Nat.sub_0_r in Ht. specialize (Ht (Nat.le_refl _) (Nat.le_0_l _)).
  specialize (Ht (Nat.lt_le_incl _ _ Hi) Hnb).
  destruct (@step_at lines i Hi) as [l [e [di [df [Hl' [Hs [Hr [He _]]]]]]]].
  rewrite Hl in Hl'. injection Hl' as <-.
  rewrite (@trail_step lines i e di df Hi Hs) in Ht.
  assert (Hpre : forall j,
             j <= i -> (forall k, k < j -> block_at lines k = false) ->
             List.length (output lines (map (fun k => (k, 1)) (seq 0 j))) = j).
  { clear - Hi. induction j as [|j IHj]; intros Hj Hb; [reflexivity|].
    rewrite seq_S, map_app. unfold output in *. rewrite flat_map_app, length_app.
    rewrite IHj by (try lia; intros k ?; apply Hb; lia).
    cbn [map flat_map fst Nat.add]. rewrite app_nil_r.
    assert (Hj' : j < List.length lines) by lia.
    destruct (@step_at lines j Hj') as [l [e [di [df [Hl [_ [Hr [He _]]]]]]]].
    rewrite He.
    destruct Hr as [e Hblk _| | |]; try (cbn [List.length]; lia).
    assert (block_at lines j = true)
      by (apply (@block_at_iff lines j l Hl); eauto).
    rewrite Hb in H by lia. discriminate. }
  exists (output lines (trail lines 0)), (corrections lines (trail lines 0)),
         (output lines (trail lines (i + di))).
  split; [apply repair_result|]. split.
  - rewrite Ht. unfold output at 1. rewrite flat_map_app.
    fold (output lines (map (fun k => (k, 1)) (seq 0 i))).
    rewrite skipn_app, skipn_all2 by (rewrite Hpre; [lia|lia|]; intros; apply Hnb; lia).
    rewrite Hpre by (try lia; intros; apply Hnb; lia).
    rewrite Nat.sub_diag. cbn [skipn flat_map fst app]. reflexivity.
  - rewrite He.
    assert (Hdef : base_indent_from is_metadata_line default_indent lines i
                   = Return default_indent)
      by (now apply (@base_indent_default is_metadata_line)).
    assert (Hn : rebuild_block lines i line = Return None ->
                 block_at lines i = false).
    { intros H. unfold block_at. now rewrite Hl, H. }
    destruct Hr as [e Hblk Hlen|b Hblk Hp Hb|b Hblk Hp Hbr Hb|Hblk Hp Hbr].
    + assert (Hbt : block_at lines i = true)
        by (apply (@block_at_iff lines i line Hl); eauto).
      repeat split; try (intros; congruence).
      intros _ Hlog. revert Hblk. unfold rebuild_block.
      destruct (is_metadata_line line && Nat.ltb (i + 3) (List.length lines));
        [|discriminate].
      destruct (item lines (i + 1)) as [l1|]; [|discriminate].
      destruct (item lines (i + 2)) as [l2|]; [|discriminate].
      cbn [obind]. destruct (closing_lines l1 l2); [|discriminate].
      rewrite (@base_indent_default is_logger_line [] lines i Hlog).
      cbn [obind null]. auto.
    + rewrite Hdef in Hb. injection Hb as <-. pose proof (Hn Hblk).
      repeat split; intros; congruence.
    + rewrite Hdef in Hb. injection Hb as <-. pose proof (Hn Hblk).
      repeat split; intros; congruence.
    + pose proof (Hn Hblk). repeat split; intros; congruence.
Qed.

Lemma missing_anchor_falls_back_witness :
  let lines := readlines (py "const a = {\n              }\n") in
  exists out n post,
    repair lines = Some (Return (out, n))
    /\ skipn 1 out = emitted_at lines 1 ++ post
    /\ (block_at lines 1 = false ->
        is_property_line (py "              }\n") = true ->
        emitted_at lines 1
        = [default_indent ++ u "          " ++ strip (py "              }\n")
           ++ py "\n"])
    /\ (block_at lines 1 = false ->
        is_property_line (py "              }\n") = false ->
        is_brace_line (py "              }\n") = true ->
        emitted_at lines 1 = [default_indent ++ py "        }\n"])
    /\ (block_at lines 1 = true ->
        no_anchor_before is_logger_line lines 1 ->
        block_lines default_indent (py "              }\n")
        = Return (Some (emitted_at lines 1))).
Proof.
  cbv zeta. apply missing_anchor_falls_back.
  - reflexivity.
  - intros j Hj. destruct j as [|j]; [vm_compute; reflexivity|lia].
Defined.

(** C4, as the code has it. The count of corrections is the number of
    rounds that took a repairing branch: one for each block rebuilt and
    one for each property line or closing brace line put out again,
    whether or not the text put out differs from the line read. When no
    block is rebuilt, the output has a line for each line of the input,
    the count is the number of property and closing brace lines, and the
    number of lines that differ is at most the count. *)
Theorem corrections_count_rounds (lines : list str) :
  exists out n,
    repair lines = Some (Return (out, n))
    /\ n = List.length
             (filter (fun v => repaired_at lines (fst v))
                     (visits (List.length lines) lines 0))
    /\ ((forall i, block_at lines i = false) ->
        List.length out = List.length lines
        /\ n = List.length (filter is_candidate lines)
        /\ altered lines out <= n).
Proof.
  rewrite (@visits_enough lines (List.length lines) 0) by lia.
  exists (output lines (trail lines 0)), (corrections lines (trail lines 0)).
  split; [apply repair_result|]. split.
  - apply corrections_filter. apply (@trail_in_range lines (List.length lines)).
    lia.
  - intros Hnb.
    pose proof (@trail_aligned lines (List.length lines) 0 (List.length lines))
      as Ht.
    rewrite Nat.sub_0_r in Ht.
    rewrite Ht by (try lia; intros; apply Hnb).
    rewrite (@trail_past lines (List.length lines)) by lia.
    rewrite app_nil_r.
    destruct (@plain_rounds lines Hnb lines [] eq_refl) as [H1 [H2 H3]].
    cbn [List.length] in H1, H2, H3. rewrite H2. auto.
Qed.

(** Without a block: a brace line at sixteen spaces under no anchor is
    moved to the default depth of fourteen, and counted. *)
Example repair_brace :
  let lines := readlines (py "const a = {\n                }\n") in
  repair lines
  = Some (Return ([py "const a = {\n"; py "              }\n"], 1))
  /\ (forall i, i < 3 -> block_at lines i = false)
  /\ altered lines [py "const a = {\n"; py "              }\n"] = 1.
Proof.
  cbv zeta. split; [vm_compute; reflexivity|]. split.
  - intros i Hi. destruct i as [|[|[|i]]]; try lia; vm_compute; reflexivity.
  - vm_compute. reflexivity.
Qed.

(** A block of three lines under a logger call, then a brace and a
    property at the depth of that call: five lines for the block, and
    three corrections. *)
Example repair_block :
  repair
    (readlines
       (py "    this.facadeLogger.info('Hello', { metadata: { id: 1, x: y }\n        }\n      );\nnext\n              }\n            module: 'a',\n"))
  = Some (Return
            ([ py "      this.facadeLogger.info('Hello', {\n";
               py "              metadata: {\n";
               py "                id: 1,\n                x: y\n";
               py "              }\n";
               py "            });\n";
               py "next\n";
               py "            }\n";
               py "              module: 'a',\n" ], 3)).
Proof. vm_compute. reflexivity. Qed.

(** C4, as stated, fails: a closing brace line that already has the
    indentation the engine gives it is put out as it was, and counted. *)
Lemma count_includes_unchanged_line :
  let lines := readlines (py "metadata: {\n        }\n") in
  repair lines = Some (Return (lines, 1))
  /\ altered lines lines = 0.
Proof. split; vm_compute; reflexivity. Qed.

End Repair.

(* ===================================================================== *)
(** * Writing the file back *)
(* ===================================================================== *)

Lemma writes_of_run {A : Type} (c : IO A) (w : world) (a : outcome A)
    (fs : string -> option str) (es : list event) :
  c w = (a, World fs (events w ++ es)) ->
  files_after c w = fs /\ writes_of c w = filter is_write es.
Proof.
  intros H. unfold files_after, writes_of. rewrite H. cbn [snd files events].
  now rewrite skipn_length_app.
Qed.

Lemma indentation_main (w : world) (content : str) :
  files w FixIndentation.file_path = Some content ->
  let lines := readlines (as_read content) in
  let out := Shape.output lines (Shape.trail lines 0) in
  let n := Shape.corrections lines (Shape.trail lines 0) in
  FixIndentation.main w
  = if Nat.ltb 0 n then
      (Return tt,
       World (fun p => if String.eqb p FixIndentation.file_path
                       then Some (concat out) else files w p)
             (events w
              ++ [Write FixIndentation.file_path (concat out);
                  Print (u "✅ " ++ str_of_nat n
                         ++ u " corrections d'indentation appliquées")]))
    else
      (Return tt,
       World (files w) (events w ++ [Print (u "ℹ️  Aucune correction")])).
Proof.
  intros Hf lines out n. unfold FixIndentation.main, bind.
  rewrite (@read_text_some w _ content Hf). fold lines.
  rewrite (repair_result lines). fold out n. unfold ret.
  destruct (Nat.ltb 0 n); unfold write_text, print; cbn [files events].
  - now rewrite <- app_assoc.
  - reflexivity.
Qed.

Lemma facade_python_pattern :
  exists r, re_compile FixStorageFacadePython.pattern = Some r.
Proof. eexists. vm_compute. reflexivity. Qed.

Lemma facade_final_patterns :
  exists r1 r2,
    re_compile FixStorageFacadeFinal.pattern1 = Some r1
    /\ re_compile FixStorageFacadeFinal.pattern2 = Some r2.
Proof. do 2 eexists. split; vm_compute; reflexivity. Qed.

(** The two calls of [fix-storage-facade-final.py] are the engine on its
    two rules. *)
Lemma final_is_rewrite (r1 r2 : regex) (content : str) :
  re_compile FixStorageFacadeFinal.pattern1 = Some r1 ->
  re_compile FixStorageFacadeFinal.pattern2 = Some r2 ->
  FixStorageFacadeFinal.apply_patterns content
  = Some (rewrite (final_rules r1 r2) content).
Proof.
  intros H1 H2. unfold FixStorageFacadeFinal.apply_patterns.
  rewrite H1, H2. unfold final_rules.
  rewrite rewrite_cons, rewrite_cons, rewrite_nil. cbn [pat repl fst snd].
  unfold re_sub.
  destruct (re_subn r1 FixStorageFacadeFinal.replace_func1 content)
    as [c1 n1].
  cbn [fst snd].
  destruct (re_subn r2 FixStorageFacadeFinal.replace_func2 c1) as [c2 n2].
  cbn [fst snd]. now rewrite Nat.add_0_r.
Qed.

(** The shape the two storage facade scripts share after the
    substitutions: write when the text differs. *)
Lemma write_if_differs (path : string) (text original : str) (count : nat)
    (done none : str) (w : world) :
  (count = 0 -> text = original) ->
  let run : IO unit :=
    if negb (str_eqb text original) then
      (write_text path text ;; print done)%io
    else print none in
  (count = 0 -> only_prints run w)
  /\ (writes_of run w <> [] ->
      0 < count /\ writes_of run w = [Write path text]).
Proof.
  intros H0 run. unfold run.
  destruct (str_eqb text original) eqn:E; cbn [negb].
  - assert (Hp : only_prints (print none) w).
    { eapply only_prints_intro with (msgs := [none]). reflexivity. }
    split; [auto|]. intros Hw. destruct Hp as [_ Hp]. congruence.
  - assert (Hc : 0 < count).
    { destruct count; [|lia]. rewrite H0 in E by reflexivity.
      rewrite str_eqb_refl in E. discriminate. }
    split; [lia|]. intros _. split; [exact Hc|].
    unfold writes_of, bind, write_text, print. cbn [snd files events].
    rewrite <- app_assoc, skipn_length_app. reflexivity.
Qed.

(** C1, as the code has it. The three scripts that repair
    [StorageFacade.ts] write the file only after a change: the indentation
    repair writes exactly when its count of corrections is above 0, and
    the two scripts that rebuild metadata blocks write only when the text
    differs, which needs a substitution; with a count of 0 they print and
    leave the files as they are. The migration functions keep no count:
    [migrate_context_cache] writes the file on every run that passes its
    test for the import. *)
Theorem write_only_after_change (w : world) (content : str) :
  files w "server/storage/facade/StorageFacade.ts" = Some content ->
  (exists new_lines fixed,
      FixIndentation.repair (readlines (as_read content))
      = Some (Return (new_lines, fixed))
      /\ (fixed = 0 -> only_prints FixIndentation.main w)
      /\ (0 < fixed ->
          writes_of FixIndentation.main w
          = [Write FixIndentation.file_path (concat new_lines)]))
  /\ (exists r text count,
      re_compile FixStorageFacadePython.pattern = Some r
      /\ re_subn r FixStorageFacadePython.replace_func (as_read content)
         = (text, count)
      /\ (count = 0 -> only_prints FixStorageFacadePython.main w)
      /\ (writes_of FixStorageFacadePython.main w <> [] ->
          0 < count
          /\ writes_of FixStorageFacadePython.main w
             = [Write FixStorageFacadePython.file_path text]))
  /\ (exists text count,
      FixStorageFacadeFinal.apply_patterns (as_read content)
      = Some (text, count)
      /\ (count = 0 -> only_prints FixStorageFacadeFinal.main w)
      /\ (writes_of FixStorageFacadeFinal.main w <> [] ->
          0 < count
          /\ writes_of FixStorageFacadeFinal.main w
             = [Write FixStorageFacadeFinal.file_path text]))
  /\ (forall c,
      files w MigrateConsoleToLogger.path = Some c ->
      contains logger_import (as_read c) = true ->
      writes_of MigrateConsoleToLogger.migrate_context_cache w
      = [Write MigrateConsoleToLogger.path
           (fst (rewrite
                   (rules_of MigrateConsoleToLogger.context_cache_replacements)
                   (as_read c)))]).
Proof.
  intros Hf. split; [|split; [|split]].
  - pose proof (@indentation_main w content Hf) as Hm. cbv zeta in Hm.
    rewrite (repair_result (readlines (as_read content))).
    do 2 eexists. split; [reflexivity|].
    set (n := Shape.corrections _ _) in *. split; intros Hn.
    + rewrite Hn in Hm. cbn [Nat.ltb Nat.leb] in Hm.
      eapply only_prints_intro with (msgs := [_]). exact Hm.
    + apply Nat.ltb_lt in Hn. rewrite Hn in Hm.
      apply writes_of_run in Hm. now destruct Hm as [_ ->].
  - destruct facade_python_pattern as [r Hr].
    destruct (re_subn r FixStorageFacadePython.replace_func (as_read content))
      as [text count] eqn:E.
    exists r, text, count. split; [exact Hr|]. split; [exact E|].
    assert (H0 : count = 0 -> text = as_read content).
    { intros ->. 
      pose proof (@re_subn_zero r FixStorageFacadePython.replace_func
                    (as_read content)) as Hz.
      rewrite E in Hz. specialize (Hz eq_refl). congruence. }
    pose proof (@write_if_differs FixStorageFacadePython.file_path text
                  (as_read content) count
                  (u "✅ " ++ str_of_nat count ++ u " corrections appliquées")
                  (u "ℹ️  Aucune correction") w H0) as Hw.
    cbv zeta in Hw.
    assert (Hm : FixStorageFacadePython.main w
                 = (if negb (str_eqb text (as_read content))
                    then (write_text FixStorageFacadePython.file_path text ;;
                          print (u "✅ " ++ str_of_nat count
                                 ++ u " corrections appliquées"))%io
                    else print (u "ℹ️  Aucune correction")) w).
    { unfold FixStorageFacadePython.main. unfold bind at 1.
      rewrite (@read_text_some w FixStorageFacadePython.file_path content Hf).
      unfold bind at 1.
      rewrite Hr. cbn [of_re ret]. now rewrite E. }
    unfold only_prints, files_after, writes_of in *. rewrite Hm. exact Hw.
  - destruct facade_final_patterns as [r1 [r2 [Hr1 Hr2]]].
    destruct (rewrite (final_rules r1 r2) (as_read content))
      as [text count] eqn:E.
    exists text, count.
    assert (Ha : FixStorageFacadeFinal.apply_patterns (as_read content)
                 = Some (text, count)).
    { rewrite (@final_is_rewrite r1 r2 (as_read content) Hr1 Hr2).
      now rewrite E. }
    split; [exact Ha|].
    assert (H0 : count = 0 -> text = as_read content).
    { intros ->.
      pose proof (@rewrite_zero (final_rules r1 r2) (as_read content)) as Hz.
      rewrite E in Hz. specialize (Hz eq_refl). congruence. }
    pose proof (@write_if_differs FixStorageFacadeFinal.file_path text
                  (as_read content) count
                  (u "✅ " ++ str_of_nat count
                   ++ u " corrections appliquées dans StorageFacade.ts")
                  (u "ℹ️  Aucune correction trouvée") w H0) as Hw.
    cbv zeta in Hw.
    assert (Hm : FixStorageFacadeFinal.main w
                 = (if negb (str_eqb text (as_read content))
                    then (write_text FixStorageFacadeFinal.file_path text ;;
                          print (u "✅ " ++ str_of_nat count
                                 ++ u " corrections appliquées dans StorageFacade.ts"))%io
                    else print (u "ℹ️  Aucune correction trouvée")) w).
    { unfold FixStorageFacadeFinal.main. unfold bind at 1.
      rewrite (@read_text_some w FixStorageFacadeFinal.file_path content Hf).
      unfold bind at 1.
      rewrite Ha. reflexivity. }
    unfold only_prints, files_after, writes_of in *. rewrite Hm. exact Hw.
  - intros c Hc Hg.
    pose proof (@sub_all_compiled
                  MigrateConsoleToLogger.context_cache_replacements
                  (as_read c) context_cache_compiles) as Hs.
    pose proof (@migrate_context_cache_pass w c _ Hc Hg Hs) as Hm.
    apply writes_of_run in Hm. now destruct Hm as [_ ->].
Qed.

Lemma write_only_after_change_witness :
  let content := py "const a = {\n              }\n" in
  let w := one_file "server/storage/facade/StorageFacade.ts" content in
  (exists new_lines fixed,
      FixIndentation.repair (readlines (as_read content))
      = Some (Return (new_lines, fixed))
      /\ (fixed = 0 -> only_prints FixIndentation.main w)
      /\ (0 < fixed ->
          writes_of FixIndentation.main w
          = [Write FixIndentation.file_path (concat new_lines)]))
  /\ (exists r text count,
      re_compile FixStorageFacadePython.pattern = Some r
      /\ re_subn r FixStorageFacadePython.replace_func (as_read content)
         = (text, count)
      /\ (count = 0 -> only_prints FixStorageFacadePython.main w)
      /\ (writes_of FixStorageFacadePython.main w <> [] ->
          0 < count
          /\ writes_of FixStorageFacadePython.main w
             = [Write FixStorageFacadePython.file_path text]))
  /\ (exists text count,
      FixStorageFacadeFinal.apply_patterns (as_read content)
      = Some (text, count)
      /\ (count = 0 -> only_prints FixStorageFacadeFinal.main w)
      /\ (writes_of FixStorageFacadeFinal.main w <> [] ->
          0 < count
          /\ writes_of FixStorageFacadeFinal.main w
             = [Write FixStorageFacadeFinal.file_path text]))
  /\ (forall c,
      files w MigrateConsoleToLogger.path = Some c ->
      contains logger_import (as_read c) = true ->
      writes_of MigrateConsoleToLogger.migrate_context_cache w
      = [Write MigrateConsoleToLogger.path
           (fst (rewrite
                   (rules_of MigrateConsoleToLogger.context_cache_replacements)
                   (as_read c)))]).
Proof.
  cbv zeta. apply write_only_after_change. reflexivity.
Defined.

(** C1, as stated, fails on [migrate_context_cache]: on a file that
    imports the logger and has no console statement, no rule of the table
    matches and the change count of the engine is 0, and yet the file is
    written. *)
Lemma migration_writes_without_change :
  let content := py "import { logger } from '../utils/logger';\n" in
  let w := one_file MigrateConsoleToLogger.path content in
  rewrite (rules_of MigrateConsoleToLogger.context_cache_replacements)
          (as_read content)
  = (as_read content, 0)
  /\ writes_of MigrateConsoleToLogger.migrate_context_cache w
     = [Write MigrateConsoleToLogger.path content].
Proof. cbv zeta. split; vm_compute; reflexivity. Qed.

(* ===================================================================== *)
(** * Further properties: files *)
(* ===================================================================== *)

Lemma extends_refl (ps : list string) (w : world) : extends ps w w.
Proof.
  split; [|reflexivity]. exists []. now rewrite app_nil_r.
Qed.

Lemma extends_trans (ps : list string) (w1 w2 w3 : world) :
  extends ps w1 w2 -> extends ps w2 w3 -> extends ps w1 w3.
Proof.
  intros [[e1 [E1 F1]] G1] [[e2 [E2 F2]] G2]. split.
  - exists (e1 ++ e2). rewrite E2, E1, app_assoc. split; [reflexivity|].
    apply Forall_app. now split.
  - intros p Hp. now rewrite G2, G1.
Qed.

Lemma extends_print (ps : list string) (msg : str) (w : world) :
  extends ps w (snd (print msg w)).
Proof.
  split; [|reflexivity]. exists [Print msg]. split; [reflexivity|].
  now repeat constructor.
Qed.

Lemma extends_write (ps : list string) (path : string) (text : str)
    (w : world) :
  In path ps -> extends ps w (snd (write_text path text w)).
Proof.
  intros Hin. split.
  - exists [Write path text]. split; [reflexivity|]. now repeat constructor.
  - intros p Hp. cbn. destruct (String.eqb_spec p path); [|reflexivity].
    subst. contradiction.
Qed.

Lemma read_keeps_world (path : string) (w : world) :
  snd (read_text path w) = w.
Proof. unfold read_text. now destruct (files w path). Qed.

(** A computation keeps to [ps] when every run of it does. *)
Lemma keeps_bind {A B : Type} (ps : list string) (c : IO A) (f : A -> IO B) :
  (forall w, extends ps w (snd (c w))) ->
  (forall a w, extends ps w (snd (f a w))) ->
  forall w, extends ps w (snd (bind c f w)).
Proof.
  intros Hc Hf w. unfold bind. specialize (Hc w).
  destruct (c w) as [[a|e] w']; cbn [snd] in *.
  - eapply extends_trans; [exact Hc|apply Hf].
  - exact Hc.
Qed.

Lemma keeps_of_re {A : Type} (ps : list string) (o : option A) (w : world) :
  extends ps w (snd (of_re o w)).
Proof. destruct o; apply extends_refl. Qed.

Lemma keeps_read (ps : list string) (path : string) (w : world) :
  extends ps w (snd (read_text path w)).
Proof. rewrite read_keeps_world. apply extends_refl. Qed.

Lemma keeps_void {A : Type} (ps : list string) (c : IO A) :
  (forall w, extends ps w (snd (c w))) ->
  forall w, extends ps w (snd (void c w)).
Proof. intros H w. apply H. Qed.

Ltac keeps_step :=
  match goal with
  | |- extends _ ?w ?w => apply extends_refl
  | |- extends _ _ (snd (ret _ _)) => apply extends_refl
  | |- extends _ _ (snd (raise _ _)) => apply extends_refl
  | |- extends _ _ (snd (print _ _)) => apply extends_print
  | |- extends _ _ (snd (read_text _ _)) => apply keeps_read
  | |- extends _ _ (snd (of_re _ _)) => apply keeps_of_re
  | |- extends _ _ (snd (write_text _ _ _)) =>
    apply extends_write; cbn; tauto
  | |- extends _ _ (snd (bind _ _ _)) => apply keeps_bind; intros
  | |- extends _ _ (snd (void _ _)) => apply keeps_void; intros
  | |- extends _ _ (snd ((if ?b then _ else _) _)) => destruct b
  | |- extends _ _ (snd ((let (_, _) := ?p in _) _)) => destruct p
  | |- extends _ _ (snd (match ?o with Some _ => _ | None => _ end _)) =>
    destruct o
  | |- extends _ _ (snd (match ?o with Return _ => _ | Raise _ => _ end _)) =>
    destruct o
  end.

Ltac keeps := repeat keeps_step.

Lemma keeps_verify_loop (ps : list string) (l : list string) :
  forall ok w, extends ps w (snd (verify_loop l ok w)).
Proof.
  induction l as [|p l IH]; intros ok w; cbn [verify_loop].
  - apply extends_refl.
  - keeps; apply IH.
Qed.

Lemma keeps_migrate_service (ps : list string) (start : str) (path : string)
    (missing : str) (reps subs : table) (done : str) :
  In path ps ->
  forall w,
    extends ps w
      (snd (MigrateRemainingServices.migrate_service start path missing reps
              subs done w)).
Proof.
  intros Hin w. unfold MigrateRemainingServices.migrate_service. keeps.
Qed.

Lemma keeps_migrate_remaining (ps : list string) (path : string)
    (subs : table) (done : str) :
  In path ps ->
  forall w,
    extends ps w
      (snd (MigrateRemainingConsole.migrate_remaining path subs done w)).
Proof.
  intros Hin w. unfold MigrateRemainingConsole.migrate_remaining. keeps.
Qed.

Lemma keeps_context_cache (ps : list string) :
  In MigrateConsoleToLogger.path ps ->
  forall w,
    extends ps w (snd (MigrateConsoleToLogger.migrate_context_cache w)).
Proof.
  intros Hin w. unfold MigrateConsoleToLogger.migrate_context_cache. keeps.
Qed.

Lemma keeps_entry_points (ps : list string) (run : IO unit) :
  In (ps, run) entry_points -> forall w, extends ps w (snd (run w)).
Proof.
  unfold entry_points, file_editors, guarded_migrations,
    unguarded_migrations, facade_scripts.
  cbn [map app fst snd In]. intros H.
  repeat (destruct H as [H|H]; [injection H as <- <-|]); try contradiction.
  - apply keeps_context_cache. now left.
  - apply keeps_void, keeps_migrate_service. now left.
  - apply keeps_void, keeps_migrate_service. now left.
  - apply keeps_void, keeps_migrate_service. now left.
  - apply keeps_migrate_remaining. now left.
  - apply keeps_migrate_remaining. now left.
  - apply keeps_migrate_remaining. now left.
  - intros w. unfold FixIndentation.main. keeps.
  - intros w. unfold FixStorageFacadePython.main. keeps.
  - intros w. unfold FixStorageFacadeFinal.main. keeps.
  - intros w. unfold MigrateConsoleToLogger.main. keeps.
    apply keeps_context_cache. now left.
  - apply keeps_void. unfold MigrateRemainingConsole.verify.
    apply keeps_verify_loop.
  - intros w. unfold MigrateRemainingConsole.main. keeps.
    + apply keeps_migrate_remaining. cbn. tauto.
    + apply keeps_migrate_remaining. cbn. tauto.
    + apply keeps_migrate_remaining. cbn. tauto.
    + apply keeps_verify_loop.
  - apply keeps_void. intros w.
    unfold MigrateRemainingServices.verify_migrations. keeps.
    apply keeps_verify_loop.
  - apply keeps_void. intros w. unfold MigrateRemainingServices.main. keeps.
    + apply keeps_migrate_service. cbn. tauto.
    + apply keeps_migrate_service. cbn. tauto.
    + apply keeps_migrate_service. cbn. tauto.
    + unfold MigrateRemainingServices.verify_migrations. keeps.
      apply keeps_verify_loop.
Qed.

(** X1. No function and no script writes a file other than the ones it
    works on: after a run, whether it returns or raises, every other file
    is as it was, and every write of the run went to one of its files. *)
Theorem only_own_files (ps : list string) (run : IO unit) (w : world) :
  In (ps, run) entry_points ->
  (forall p, ~ In p ps -> files_after run w p = files w p)
  /\ Forall (within ps) (writes_of run w).
Proof.
  intros Hin. destruct (@keeps_entry_points ps run Hin w) as [[es [He Hf]] Hg].
  split; [exact Hg|].
  unfold writes_of. rewrite He, skipn_length_app.
  clear He. induction Hf as [|e es He _ IH]; cbn [filter]; [constructor|].
  destruct (is_write e); [constructor; assumption|assumption].
Qed.

Lemma only_own_files_witness :
  let ps := services in
  let run := MigrateRemainingConsole.main in
  let w := three_files (u "console.log('=== FIN RAPPEL EXPIRATION ===\n');")
             (u "b") (u "c") in
  (forall p, ~ In p ps -> files_after run w p = files w p)
  /\ Forall (within ps) (writes_of run w).
Proof.
  cbv zeta. apply only_own_files.
  unfold entry_points. apply in_or_app. right. cbn. tauto.
Defined.

Lemma read_text_none (w : world) (path : string) :
  files w path = None ->
  read_text path w = (Raise (FileNotFoundError path), w).
Proof. intros H. unfold read_text. now rewrite H. Qed.

Lemma only_prints_same {A : Type} (c : IO A) (w : world) (a : outcome A) :
  c w = (a, w) -> only_prints c w.
Proof.
  intros H. unfold only_prints, files_after, writes_of. rewrite H.
  cbn [snd]. split; [reflexivity|]. now rewrite skipn_all.
Qed.

(** A run that raises in its first read. *)
Lemma raises_in_read {A : Type} (path : string) (k : str -> IO A)
    (w : world) :
  files w path = None ->
  fst (bind (read_text path) k w) = Raise (FileNotFoundError path)
  /\ only_prints (bind (read_text path) k) w.
Proof.
  intros H.
  assert (E : bind (read_text path) k w = (Raise (FileNotFoundError path), w)).
  { unfold bind. now rewrite (@read_text_none w path H). }
  split; [now rewrite E|]. eapply only_prints_same. exact E.
Qed.

Lemma service_raises (start : str) (path : string) (missing : str)
    (reps subs : table) (done : str) (w : world) :
  files w path = None ->
  let run := void (MigrateRemainingServices.migrate_service start path missing
                     reps subs done) in
  fst (run w) = Raise (FileNotFoundError path) /\ only_prints run w.
Proof.
  intros H run.
  assert (E : MigrateRemainingServices.migrate_service start path missing
                reps subs done w
              = (Raise (FileNotFoundError path),
                 World (files w) (events w ++ map Print [start]))).
  { unfold MigrateRemainingServices.migrate_service, bind, print.
    unfold read_text. cbn [files]. now rewrite H. }
  split.
  - unfold run, void. now rewrite E.
  - apply only_prints_void. eapply only_prints_intro. exact E.
Qed.

(** X2. When the file a function or script is to edit is not there, the
    run raises [FileNotFoundError] for that file and writes nothing; the
    files are as they were. *)
Theorem missing_file_raises (path : string) (run : IO unit) (w : world) :
  In (path, run) file_editors ->
  files w path = None ->
  fst (run w) = Raise (FileNotFoundError path) /\ only_prints run w.
Proof.
  unfold file_editors, guarded_migrations, unguarded_migrations,
    facade_scripts.
  cbn [app In]. intros H Hf.
  repeat (destruct H as [H|H]; [injection H as <- <-|]); try contradiction.
  - now apply raises_in_read.
  - now apply service_raises.
  - now apply service_raises.
  - now apply service_raises.
  - now apply raises_in_read.
  - now apply raises_in_read.
  - now apply raises_in_read.
  - now apply raises_in_read.
  - now apply raises_in_read.
  - now apply raises_in_read.
Qed.

Lemma missing_file_raises_witness :
  let path := "server/storage/facade/StorageFacade.ts" in
  let run := FixIndentation.main in
  let w := one_file "server/services/emailService.ts" (u "x") in
  fst (run w) = Raise (FileNotFoundError path) /\ only_prints run w.
Proof.
  cbv zeta. apply missing_file_raises.
  - unfold file_editors. apply in_or_app. right. apply in_or_app. right.
    left. reflexivity.
  - reflexivity.
Defined.

(* ===================================================================== *)
(** * Further properties: the scripts as a whole *)
(* ===================================================================== *)

Lemma with_file_other (path p : string) (text : str)
    (fs : string -> option str) :
  p <> path -> with_file path text fs p = fs p.
Proof.
  intros H. unfold with_file. now destruct (String.eqb_spec p path).
Qed.

Lemma with_file_same (path : string) (text : str)
    (fs : string -> option str) :
  with_file path text fs path = Some text.
Proof. unfold with_file. now rewrite String.eqb_refl. Qed.

(** One function of [migrate_remaining_services.py], in full. *)
Lemma service_run (start : str) (path : string) (missing : str)
    (reps subs : table) (done : str) (w : world) (content : str) :
  compile_table reps = Some (rules_of reps) ->
  compile_table subs = Some (rules_of subs) ->
  files w path = Some content ->
  let g := contains logger_import (as_read content) in
  let text := serviced reps subs content in
  MigrateRemainingServices.migrate_service start path missing reps subs done w
  = (Return g,
     World (if g then with_file path text (files w) else files w)
           (events w
            ++ Print start
               :: (if g then [Write path text; Print done]
                   else [Print missing]))).
Proof.
  intros Hr Hs Hf g text. unfold g.
  destruct (contains logger_import (as_read content)) eqn:Hg.
  - pose proof (@sub_all_compiled reps (as_read content) Hr) as H1.
    pose proof (@sub_all_compiled subs
                  (fst (rewrite (rules_of reps) (as_read content))) Hs) as H2.
    apply (@migrate_service_pass start path missing reps subs done w
             content _ _ Hf Hg H1 H2).
  - apply (@migrate_service_guard start path missing reps subs done w
             content Hf Hg).
Qed.

Lemma remaining_run (path : string) (subs : table) (done : str)
    (w : world) (content : str) :
  compile_table subs = Some (rules_of subs) ->
  files w path = Some content ->
  MigrateRemainingConsole.migrate_remaining path subs done w
  = (Return tt,
     World (with_file path (rewritten subs (as_read content)) (files w))
           (events w
            ++ [Write path (rewritten subs (as_read content)); Print done])).
Proof.
  intros Hc Hf.
  pose proof (@sub_all_compiled subs (as_read content) Hc) as Hs.
  apply (@migrate_remaining_run path subs done w content _ Hf Hs).
Qed.

Lemma last_append {A : Type} (l es : list A) (d : A) :
  es <> [] -> last (l ++ es) d = last es d.
Proof.
  intros H. induction l as [|a l IH]; [reflexivity|].
  cbn [app]. rewrite <- IH. cbn [last].
  destruct (l ++ es) eqn:E; [|reflexivity].
  apply app_eq_nil in E. now destruct E.
Qed.

Lemma filter_prints (msgs : list str) : filter is_write (map Print msgs) = [].
Proof. induction msgs; simpl; auto. Qed.

Lemma verify_three (w : world) (d1 d2 d3 : str) :
  files w email_path = Some d1 ->
  files w predictive_path = Some d2 ->
  files w sql_path = Some d3 ->
  exists msgs,
    verify_loop services true w
    = (Return (settled d1 && settled d2 && settled d3),
       World (files w) (events w ++ map Print msgs)).
Proof.
  intros H1 H2 H3.
  destruct (@verify_loop_spec services true w [d1; d2; d3]) as [msgs E].
  { unfold services. repeat constructor; assumption. }
  exists msgs. rewrite E. cbn [forallb andb]. unfold settled.
  now rewrite andb_true_r, andb_assoc.
Qed.

(** X3. [main] of [migrate_remaining_services.py], with the three service
    files in place: the three migrations all run, also after one of them
    has returned [False], so every file that imports the logger is
    written, once; the exit status is 0 exactly when all three files
    import the logger and none of the texts written has a match of
    [console\.] left, and 1 otherwise. *)
Theorem services_main_status (w : world) (c1 c2 c3 : str) :
  files w email_path = Some c1 ->
  files w predictive_path = Some c2 ->
  files w sql_path = Some c3 ->
  let g1 := contains logger_import (as_read c1) in
  let g2 := contains logger_import (as_read c2) in
  let g3 := contains logger_import (as_read c3) in
  let m1 := serviced MigrateRemainingServices.email_service_replacements
              MigrateRemainingServices.email_service_subs c1 in
  let m2 := serviced MigrateRemainingServices.predictive_engine_replacements
              MigrateRemainingServices.predictive_engine_subs c2 in
  let m3 := serviced MigrateRemainingServices.sql_engine_replacements
              MigrateRemainingServices.sql_engine_subs c3 in
  fst (MigrateRemainingServices.main w)
  = Return (if g1 && g2 && g3 && settled m1 && settled m2 && settled m3
            then 0 else 1)
  /\ writes_of MigrateRemainingServices.main w
     = (if g1 then [Write email_path m1] else [])
       ++ (if g2 then [Write predictive_path m2] else [])
       ++ (if g3 then [Write sql_path m3] else []).
Proof.
  intros H1 H2 H3 g1 g2 g3 m1 m2 m3.
  enough (Run : exists fs es,
             MigrateRemainingServices.main w
             = (Return (if g1 && g2 && g3 && settled m1 && settled m2
                           && settled m3 then 0 else 1),
                World fs (events w ++ es))
             /\ filter is_write es
                = (if g1 then [Write email_path m1] else [])
                  ++ (if g2 then [Write predictive_path m2] else [])
                  ++ (if g3 then [Write sql_path m3] else [])).
  { destruct Run as [fs [es [E Wr]]]. unfold writes_of. rewrite E.
    cbn [fst snd events]. now rewrite skipn_length_app. }
  unfold MigrateRemainingServices.main.
  unfold bind at 1. unfold print at 1.
  set (w0 := World (files w) (events w ++ [Print _])).
  unfold bind at 1.
  unfold MigrateRemainingServices.migrate_email_service.
  rewrite (@service_run _ _ _ _ _ _ w0 c1 email_service_replacements_compile
             email_service_subs_compile H1).
  fold g1 m1. cbv zeta.
  set (w1 := World _ _).
  assert (F1 : forall p, p <> email_path -> files w1 p = files w p).
  { intros p Hp. unfold w1. cbn [files]. destruct g1; [|reflexivity].
    now apply with_file_other. }
  unfold bind at 1.
  unfold MigrateRemainingServices.migrate_predictive_engine.
  assert (H2' : files w1 predictive_path = Some c2).
  { rewrite F1; [exact H2|discriminate]. }
  rewrite (@service_run _ _ _ _ _ _ w1 c2
             predictive_engine_replacements_compile
             predictive_engine_subs_compile H2').
  fold g2 m2. cbv zeta.
  set (w2 := World _ _).
  assert (F2 : forall p, p <> predictive_path -> files w2 p = files w1 p).
  { intros p Hp. unfold w2. cbn [files]. destruct g2; [|reflexivity].
    now apply with_file_other. }
  unfold bind at 1.
  unfold MigrateRemainingServices.migrate_sql_engine.
  assert (H3' : files w2 sql_path = Some c3).
  { rewrite F2, F1; [exact H3|discriminate|discriminate]. }
  rewrite (@service_run _ _ _ _ _ _ w2 c3 sql_engine_replacements_compile
             sql_engine_subs_compile H3').
  fold g3 m3. cbv zeta.
  set (w3 := World _ _).
  assert (F3 : forall p, p <> sql_path -> files w3 p = files w2 p).
  { intros p Hp. unfold w3. cbn [files]. destruct g3; [|reflexivity].
    now apply with_file_other. }
  assert (Ev : exists es,
             events w3 = events w ++ es
             /\ filter is_write es
                = (if g1 then [Write email_path m1] else [])
                  ++ (if g2 then [Write predictive_path m2] else [])
                  ++ (if g3 then [Write sql_path m3] else [])).
  { unfold w3, w2, w1, w0. cbn [events]. rewrite <- !app_assoc.
    eexists. split; [reflexivity|].
    rewrite !filter_app. destruct g1, g2, g3; reflexivity. }
  destruct Ev as [es [Ev Wr]].
  assert (D1 : files w3 email_path = Some (if g1 then m1 else c1)).
  { rewrite F3, F2 by discriminate. unfold w1. cbn [files].
    destruct g1; [apply with_file_same | exact H1]. }
  assert (D2 : files w3 predictive_path = Some (if g2 then m2 else c2)).
  { rewrite F3 by discriminate. unfold w2. cbn [files].
    destruct g2; [apply with_file_same | exact H2']. }
  assert (D3 : files w3 sql_path = Some (if g3 then m3 else c3)).
  { unfold w3. cbn [files].
    destruct g3; [apply with_file_same | exact H3']. }
  clearbody w3. clear F3.
  destruct (g1 && g2 && g3) eqn:G.
  - apply andb_true_iff in G as [G G3]. apply andb_true_iff in G as [G1 G2].
    rewrite G1 in D1. rewrite G2 in D2. rewrite G3 in D3.
    cbn [andb].
    unfold bind at 1. unfold MigrateRemainingServices.verify_migrations.
    unfold bind at 1. unfold print at 1.
    set (w4 := World (files w3) _).
    destruct (@verify_three w4 m1 m2 m3 D1 D2 D3) as [msgs E].
    rewrite E. rewrite <- !andb_assoc.
    unfold w4. cbn [files events]. rewrite Ev.
    destruct (settled m1 && (settled m2 && settled m3)) eqn:S.
    + unfold bind, print, ret. cbn [fst snd files events].
      rewrite <- !app_assoc. do 2 eexists. split; [reflexivity|].
      rewrite !filter_app, Wr, filter_prints. cbn [filter is_write app].
      now rewrite !app_nil_r.
    + unfold bind, print, ret. cbn [fst snd files events].
      rewrite <- !app_assoc. do 2 eexists. split; [reflexivity|].
      rewrite !filter_app, Wr, filter_prints. cbn [filter is_write app].
      now rewrite !app_nil_r.
  - cbn [andb].
    unfold bind, print, ret. cbn [fst snd files events]. rewrite Ev.
    rewrite <- !app_assoc. do 2 eexists. split; [reflexivity|].
    rewrite !filter_app, Wr. cbn [filter is_write app].
    now rewrite !app_nil_r.
Qed.

Lemma services_main_status_witness :
  let c1 := u "import { logger } from './logger'; console.log(1);" in
  let w := three_files c1 (u "const b = 2;") (u "const c = 3;") in
  let m1 := serviced MigrateRemainingServices.email_service_replacements
              MigrateRemainingServices.email_service_subs c1 in
  fst (MigrateRemainingServices.main w) = Return 1
  /\ writes_of MigrateRemainingServices.main w = [Write email_path m1].
Proof.
  cbv zeta.
  exact (@services_main_status
           (three_files
              (u "import { logger } from './logger'; console.log(1);")
              (u "const b = 2;") (u "const c = 3;"))
           _ _ _ eq_refl eq_refl eq_refl).
Defined.




(** X5. The script [migrate_remaining_console.py] is not all or nothing:
    when [emailService.ts] is there and [PredictiveEngineService.ts] is
    not, the run raises [FileNotFoundError] for the latter after it has
    written [emailService.ts]; the file keeps the migrated text, and
    nothing else is written. *)
Theorem remaining_main_partial (w : world) (c1 : str) :
  files w email_path = Some c1 ->
  files w predictive_path = None ->
  let m1 := rewritten MigrateRemainingConsole.remaining_email_subs
              (as_read c1) in
  fst (MigrateRemainingConsole.main w)
  = Raise (FileNotFoundError predictive_path)
  /\ writes_of MigrateRemainingConsole.main w = [Write email_path m1]
  /\ files_after MigrateRemainingConsole.main w email_path = Some m1.
Proof.
  intros H1 H2 m1.
  assert (E : MigrateRemainingConsole.main w
              = (Raise (FileNotFoundError predictive_path),
                 World (with_file email_path m1 (files w))
                   (events w
                    ++ [Print (u "🚀 Migration des console.* restants...");
                        Write email_path m1;
                        Print (u "✅ emailService.ts - console.* restants migrés")]))).
  { unfold MigrateRemainingConsole.main.
    unfold bind at 1. unfold print at 1.
    set (w0 := World (files w) (events w ++ [Print _])).
    unfold bind at 1.
    unfold MigrateRemainingConsole.migrate_remaining_email.
    rewrite (@remaining_run _ _ _ w0 c1 remaining_email_compiles H1).
    fold m1. set (w1 := World _ _).
    unfold bind at 1.
    unfold MigrateRemainingConsole.migrate_remaining_predictive.
    unfold MigrateRemainingConsole.migrate_remaining.
    unfold bind at 1.
    assert (H2' : files w1 predictive_path = None).
    { unfold w1. cbn [files]. rewrite with_file_other by discriminate.
      exact H2. }
    rewrite (@read_text_none w1 "server/services/PredictiveEngineService.ts" H2').
    unfold w1, w0. cbn [files events]. now rewrite <- app_assoc. }
  unfold writes_of, files_after. rewrite E. cbn [fst snd events files].
  split; [reflexivity|]. split.
  - now rewrite skipn_length_app.
  - apply with_file_same.
Qed.

Lemma remaining_main_partial_witness :
  let w := one_file "server/services/emailService.ts"
             (u "console.log('a');") in
  let m1 := rewritten MigrateRemainingConsole.remaining_email_subs
              (as_read (u "console.log('a');")) in
  fst (MigrateRemainingConsole.main w)
  = Raise (FileNotFoundError predictive_path)
  /\ writes_of MigrateRemainingConsole.main w = [Write email_path m1]
  /\ files_after MigrateRemainingConsole.main w email_path = Some m1.
Proof.
  cbv zeta. apply remaining_main_partial; reflexivity.
Defined.






(* ===================================================================== *)
(** * Further properties: the indentation repair *)
(* ===================================================================== *)

Section Indentation.

Import FixIndentation Shape.

Lemma m_star (greedy : bool) (r : regex) (pos : nat) (s : str) (c : caps)
    (k : nat -> str -> caps -> option (nat * caps)) :
  m (Star greedy r) pos s c k
  = star_rounds greedy r k (S (List.length s)) pos s c.
Proof. reflexivity. Qed.

Lemma star_rounds_S (r : regex)
    (k : nat -> str -> caps -> option (nat * caps)) (n pos : nat) (s : str)
    (c : caps) :
  star_rounds true r k (S n) pos s c
  = match m r pos s c
            (fun pos' s' c' =>
               if Nat.ltb pos pos' then star_rounds true r k n pos' s' c'
               else None)
    with
    | Some x => Some x
    | None => k pos s c
    end.
Proof. reflexivity. Qed.

(** A greedy repetition of the white space class in front of a
    continuation that cannot fail takes all the white space there is. *)
Lemma star_space (k : nat -> str -> caps -> option (nat * caps)) :
  (forall p s' c', k p s' c' <> None) ->
  forall n pos s c,
    List.length (leading_space s) <= n ->
    star_rounds true Space k n pos s c
    = k (pos + List.length (leading_space s))
        (skipn (List.length (leading_space s)) s) c.
Proof.
  intros Hk. induction n as [|n IH]; intros pos s c Hn.
  - destruct (leading_space s); [|cbn in Hn; lia].
    cbn [List.length skipn]. rewrite Nat.add_0_r. reflexivity.
  - rewrite star_rounds_S. destruct s as [|x s].
    + cbn [m leading_space List.length skipn]. now rewrite Nat.add_0_r.
    + cbn [m leading_space]. cbn [leading_space] in Hn.
      destruct (isspace x).
      * cbn [List.length] in Hn |- *.
        assert (Hlt : Nat.ltb pos (S pos) = true) by (apply Nat.ltb_lt; lia).
        rewrite Hlt, IH by lia. cbn [skipn].
        replace (S pos + List.length (leading_space s))
          with (pos + S (List.length (leading_space s))) by lia.
        destruct (k _ _ c) eqn:E; [reflexivity|]. now apply Hk in E.
      * cbn [List.length skipn]. now rewrite Nat.add_0_r.
Qed.

Lemma leading_space_length (s : str) :
  List.length (leading_space s) <= List.length s.
Proof.
  induction s as [|x s IH]; [reflexivity|]. cbn [leading_space].
  destruct (isspace x); cbn [List.length]; lia.
Qed.

Lemma firstn_leading_space (s : str) :
  firstn (List.length (leading_space s)) s = leading_space s.
Proof.
  induction s as [|x s IH]; [reflexivity|]. cbn [leading_space].
  destruct (isspace x); [|reflexivity]. cbn [List.length firstn].
  now rewrite IH.
Qed.

(** The first group of [re.match] on [indent_pattern] is the white space
    the line starts with. *)
Lemma indent_of_leading (line : str) :
  indent_of line = Return (leading_space line).
Proof.
  unfold indent_of. rewrite compiled_indent. cbn [obind].
  unfold re_match, match_at.
  rewrite m_seq, m_bol, m_seq, m_group, m_seq, m_star.
  rewrite star_space.
  - cbn [m andb Nat.add]. unfold group, mk_match. cbn [m_caps lookup Nat.eqb].
    now rewrite Nat.sub_0_r, firstn_leading_space.
  - intros p s' c'. cbn [m]. discriminate.
  - pose proof (leading_space_length line). lia.
Qed.

(** The backward loop stops at the nearest anchor. *)
Lemma find_anchor_nearest (f : str -> bool) (lines : list str) (i j : nat) :
  j < i ->
  f (nth j lines []) = true ->
  (forall k, j < k -> k < i -> f (nth k lines []) = false) ->
  find_anchor f lines i = Some j.
Proof.
  intros Hj Hf Hn. induction i as [|i IH]; [lia|].
  cbn [find_anchor]. destruct (Nat.eq_dec i j) as [->|Hne].
  - now rewrite Hf.
  - rewrite (Hn i) by lia. apply IH; [lia|]. intros k H1 H2. apply Hn; lia.
Qed.

Lemma base_indent_anchor (f : str -> bool) (d : str) (lines : list str)
    (i j : nat) (anchor : str) :
  j < i ->
  nth_error lines j = Some anchor ->
  f anchor = true ->
  (forall k, j < k -> k < i -> f (nth k lines []) = false) ->
  base_indent_from f d lines i = Return (leading_space anchor).
Proof.
  intros Hj Ha Hf Hn. unfold base_indent_from.
  rewrite (@find_anchor_nearest f lines i j Hj); [|
    now rewrite (nth_error_nth _ _ _ Ha) | exact Hn].
  unfold item. rewrite Ha. cbn [obind]. apply indent_of_leading.
Qed.

Lemma output_app (lines : list str) (vs ws : list (nat * nat)) :
  output lines (vs ++ ws) = output lines vs ++ output lines ws.
Proof. unfold output. apply flat_map_app. Qed.

(** What the round at a line that is read puts out is in the result, in
    one piece. *)
Lemma round_in_output (lines : list str) (i : nat) :
  i < List.length lines ->
  (forall k, k < i -> i < k + 3 -> block_at lines k = false) ->
  exists pre post,
    output lines (trail lines 0) = pre ++ emitted_at lines i ++ post.
Proof.
  intros Hi Hb.
  destruct (@trail_reaches lines i Hi i 0) as [di [pre [post Ht]]];
    [lia|lia| |].
  { intros k _ Hk1 Hk2. apply Hb; lia. }
  rewrite Ht, output_app. unfold output at 2. cbn [flat_map fst].
  fold (output lines post). eauto.
Qed.

(** X8. A property line or a closing brace line with a line holding
    [metadata: {] above it is put out at the depth of the nearest such
    line: the white space that line starts with, then ten spaces and the
    stripped property, or eight spaces and the brace. The white space of
    the anchor is taken as it is, also when there is none. *)
Theorem anchored_indentation (lines : list str) (i j : nat)
    (line anchor : str) :
  nth_error lines i = Some line ->
  (forall k, k <= i -> i < k + 3 -> block_at lines k = false) ->
  is_candidate line = true ->
  j < i ->
  nth_error lines j = Some anchor ->
  is_metadata_line anchor = true ->
  (forall k, j < k -> k < i -> is_metadata_line (nth k lines []) = false) ->
  exists out n pre post,
    repair lines = Some (Return (out, n))
    /\ emitted_at lines i = [leading_space anchor ++ reindented line]
    /\ out = pre ++ [leading_space anchor ++ reindented line] ++ post.
Proof.
  intros Hl Hb Hc Hj Ha Hm Hn.
  assert (Hi : i < List.length lines) by (apply nth_error_Some; congruence).
  assert (He : emitted_at lines i = [leading_space anchor ++ reindented line]).
  { destruct (@step_at lines i Hi) as [l [e [di [df [Hl' [_ [Hr [He _]]]]]]]].
    rewrite Hl in Hl'. injection Hl' as <-. rewrite He.
    pose proof (@base_indent_anchor is_metadata_line default_indent lines i j
                  anchor Hj Ha Hm Hn) as Hbase.
    unfold reindented.
    destruct Hr as [e Hblk _|b _ Hp Hb'|b _ Hp Hbr Hb'|_ Hp Hbr].
    - assert (block_at lines i = true)
        by (apply (@block_at_iff lines i line Hl); eauto).
      rewrite Hb in H by lia. discriminate.
    - rewrite Hbase in Hb'. injection Hb' as <-. now rewrite Hp.
    - rewrite Hbase in Hb'. injection Hb' as <-. now rewrite Hp.
    - unfold is_candidate in Hc. rewrite Hp, Hbr in Hc. discriminate. }
  destruct (@round_in_output lines i Hi) as [pre [post Ho]].
  { intros k Hk1 Hk2. apply Hb; lia. }
  rewrite repair_result. do 4 eexists. split; [reflexivity|].
  split; [exact He|]. rewrite Ho, He. reflexivity.
Qed.

Lemma anchored_indentation_witness :
  let lines :=
    readlines (py "  metadata: {\n                  module: 'a',\n") in
  exists out n pre post,
    repair lines = Some (Return (out, n))
    /\ emitted_at lines 1
       = [leading_space (py "  metadata: {\n")
          ++ reindented (py "                  module: 'a',\n")]
    /\ out = pre ++ [leading_space (py "  metadata: {\n")
                     ++ reindented (py "                  module: 'a',\n")]
             ++ post.
Proof.
  cbv zeta.
  apply (@anchored_indentation _ 1 0 (py "                  module: 'a',\n")
           (py "  metadata: {\n")).
  - reflexivity.
  - intros k Hk1 Hk2.
    destruct k as [|[|k]]; try lia; vm_compute; reflexivity.
  - vm_compute. reflexivity.
  - lia.
  - reflexivity.
  - vm_compute. reflexivity.
  - intros k H1 H2. lia.
Defined.

End Indentation.

Section Quiet.

Import FixIndentation Shape.

Lemma skipn_nth_error {A : Type} (l : list A) (i : nat) (a : A) :
  nth_error l i = Some a -> skipn i l = a :: skipn (S i) l.
Proof.
  revert l. induction i as [|i IH]; intros [|x l] H; try discriminate.
  - now injection H as ->.
  - cbn [nth_error] in H. cbn [skipn]. now rewrite (IH l H).
Qed.

(** Rounds that count nothing copy their lines. *)
Lemma quiet_trail (lines : list str) :
  forall n i,
    List.length lines - i <= n ->
    corrections lines (trail lines i) = 0 ->
    output lines (trail lines i) = skipn i lines.
Proof.
  induction n as [|n IH]; intros i Hn Hc.
  - rewrite trail_past by lia. rewrite skipn_all2 by lia. reflexivity.
  - destruct (Nat.le_gt_cases (List.length lines) i) as [Hge|Hlt].
    + rewrite trail_past by lia. rewrite skipn_all2 by lia. reflexivity.
    + destruct (@step_at lines i Hlt)
        as [line [e [di [df [Hl [Hs [Hr [He Hd]]]]]]]].
      rewrite (@trail_step lines i e di df Hlt Hs) in Hc |- *.
      unfold corrections in Hc. cbn [map fst] in Hc.
      rewrite sum_cons, Hd in Hc.
      unfold output. cbn [flat_map fst]. rewrite He.
      destruct Hr as [e' _ _|b _ _ _|b _ _ _ _|_ _ _]; try lia.
      cbn [app]. rewrite (@skipn_nth_error _ lines i line Hl). f_equal.
      replace (S i) with (i + 1) by lia. apply IH; [lia|].
      unfold corrections. lia.
Qed.

Lemma concat_readlines (s : str) : concat (readlines s) = s.
Proof.
  induction s as [|c s IH]; [reflexivity|]. cbn [readlines].
  destruct (c =? nl)%N.
  - cbn [concat app]. now rewrite IH.
  - destruct (readlines s) as [|l ls].
    + cbn [concat] in IH. subst s. reflexivity.
    + cbn [concat app] in IH |- *. now rewrite IH.
Qed.

(** X7. When the indentation repair counts no correction, the lines it
    has put out are the lines it read, and joined they are the text of
    the file: not writing on a count of 0 loses no change. *)
Theorem zero_corrections_same_text (text : str) (out : list str) :
  repair (readlines text) = Some (Return (out, 0)) ->
  out = readlines text /\ concat out = text.
Proof.
  rewrite repair_result. intros [= Ho Hc].
  assert (E : out = readlines text).
  { rewrite <- Ho.
    apply (@quiet_trail (readlines text) (List.length (readlines text)) 0);
      [lia|exact Hc]. }
  split; [exact E|]. rewrite E. apply concat_readlines.
Qed.

Lemma zero_corrections_same_text_witness :
  let text := py "const a = {\n  b: 1\n};" in
  [py "const a = {\n"; py "  b: 1\n"; py "};"] = readlines text
  /\ concat [py "const a = {\n"; py "  b: 1\n"; py "};"] = text.
Proof.
  cbv zeta. apply zero_corrections_same_text. vm_compute. reflexivity.
Defined.

(** ** Blocks do not overlap *)

Lemma contains_head (c : char) (sub s : str) :
  contains (c :: sub) s = true -> In c s.
Proof.
  induction s as [|x s IH]; cbn [contains startswith].
  - discriminate.
  - intros H. apply orb_true_iff in H as [H|H].
    + apply andb_true_iff in H as [H _]. apply N.eqb_eq in H. now left.
    + right. now apply IH.
Qed.

Lemma lstrip_keeps (c : char) (s : str) :
  isspace c = false -> In c s -> In c (lstrip s).
Proof.
  intros Hc. induction s as [|x s IH]; [easy|]. cbn [lstrip].
  destruct (isspace x) eqn:Ex.
  - intros [->|H]; [congruence|]. now apply IH.
  - auto.
Qed.

Lemma strip_keeps (c : char) (s : str) :
  isspace c = false -> In c s -> In c (strip s).
Proof.
  intros Hc H. unfold strip, rstrip. apply in_rev. rewrite rev_involutive.
  apply lstrip_keeps; [exact Hc|]. apply -> in_rev.
  now apply lstrip_keeps.
Qed.

(** A line that holds [metadata: {] is neither a brace nor the end of a
    call once stripped. *)
Lemma metadata_not_closing (l : str) :
  is_metadata_line l = true ->
  str_eqb (strip l) (u "}") = false /\ str_eqb (strip l) (u ");") = false.
Proof.
  intros H. unfold is_metadata_line in H.
  assert (Hm : In 109%N (strip l)).
  { apply strip_keeps; [reflexivity|].
    apply (@contains_head 109%N (u "etadata: {") l). exact H. }
  split.
  - destruct (str_eqb (strip l) (u "}")) eqn:E; [|reflexivity].
    apply str_eqb_eq in E. rewrite E in Hm. cbn in Hm.
    destruct Hm as [Hm|[]]. discriminate Hm.
  - destruct (str_eqb (strip l) (u ");")) eqn:E; [|reflexivity].
    apply str_eqb_eq in E. rewrite E in Hm. cbn in Hm.
    destruct Hm as [Hm|[Hm|[]]]; discriminate Hm.
Qed.

(** What a block rebuilt at index [k] says of the lines at and after
    [k]. *)
Lemma block_at_shape (lines : list str) (k : nat) :
  block_at lines k = true ->
  exists l0 l1 l2,
    nth_error lines k = Some l0 /\ nth_error lines (k + 1) = Some l1
    /\ nth_error lines (k + 2) = Some l2
    /\ is_metadata_line l0 = true /\ closing_lines l1 l2 = true.
Proof.
  unfold block_at. destruct (nth_error lines k) as [l0|] eqn:E0;
    [|discriminate].
  unfold rebuild_block.
  destruct (is_metadata_line l0) eqn:Em; cbn [andb]; [|discriminate].
  destruct (Nat.ltb (k + 3) (List.length lines)); [|discriminate].
  unfold item.
  destruct (nth_error lines (k + 1)) as [l1|]; cbn [obind]; [|discriminate].
  destruct (nth_error lines (k + 2)) as [l2|]; cbn [obind]; [|discriminate].
  destruct (closing_lines l1 l2) eqn:Ec; [|discriminate].
  intros _. exists l0, l1, l2. auto.
Qed.

Lemma blocks_apart (lines : list str) (i k : nat) :
  block_at lines i = true -> k < i -> i < k + 3 -> block_at lines k = false.
Proof.
  intros Hi H1 H2. destruct (block_at lines k) eqn:Hk; [|reflexivity].
  destruct (@block_at_shape lines i Hi) as [l0 [_ [_ [E0 [_ [_ [Em _]]]]]]].
  destruct (@block_at_shape lines k Hk) as [_ [l1 [l2 [_ [E1 [E2 [_ Ec]]]]]]].
  destruct (@metadata_not_closing l0 Em) as [N1 N2].
  unfold closing_lines in Ec.
  apply andb_true_iff in Ec as [Ec _]. apply andb_true_iff in Ec as [C1 C2].
  assert (Hk' : i = k + 1 \/ i = k + 2) by lia.
  destruct Hk' as [->| ->]; congruence.
Qed.

Lemma visits_step (lines : list str) (fuel : nat) :
  forall i0 i di,
    In (i, di) (visits fuel lines i0) ->
    exists e df, step lines i = Return (e, di, df).
Proof.
  induction fuel as [|fuel IH]; intros i0 i di; cbn [visits].
  - now destruct (Nat.ltb i0 (List.length lines)).
  - destruct (Nat.ltb i0 (List.length lines)); [|easy].
    destruct (step lines i0) as [[[e0 d0] f0]|x] eqn:E; [|easy].
    intros [H|H]; [|exact (IH _ _ _ H)].
    injection H as -> ->. eauto.
Qed.

(** X9. Blocks do not overlap, and every block is rebuilt: where the
    first test of the loop body holds at a line, it holds at neither of
    the two lines before nor of the two lines after, the loop reads the
    line as the first of a round, and the rebuilt lines are in the result
    in one piece, with a count above 0. *)
Theorem blocks_all_rebuilt (lines : list str) (i : nat) :
  block_at lines i = true ->
  (forall k, k <> i -> k < i + 3 -> i < k + 3 -> block_at lines k = false)
  /\ exists line e out n pre post,
       nth_error lines i = Some line
       /\ rebuild_block lines i line = Return (Some e)
       /\ repair lines = Some (Return (out, n))
       /\ out = pre ++ e ++ post
       /\ In (i, 3) (visits (List.length lines) lines 0)
       /\ 0 < n.
Proof.
  intros Hb. split.
  { intros k Hne H1 H2. destruct (Nat.lt_ge_cases k i) as [Hlt|Hge].
    - now apply (@blocks_apart lines i k).
    - destruct (block_at lines k) eqn:Hk; [|reflexivity].
      assert (Hf : block_at lines i = false)
        by (apply (@blocks_apart lines k i Hk); lia).
      congruence. }
  destruct (@block_at_shape lines i Hb) as [line [_ [_ [Hl _]]]].
  assert (Hi : i < List.length lines) by (apply nth_error_Some; congruence).
  destruct (proj1 (@block_at_iff lines i line Hl) Hb) as [e He].
  assert (Hs : step lines i = Return (e, 3, 1)).
  { unfold step, item. rewrite Hl. cbn [obind]. now rewrite He. }
  destruct (@trail_reaches lines i Hi i 0) as [di [pre [post Ht]]];
    [lia|lia| |].
  { intros k _ Hk1 Hk2. now apply (@blocks_apart lines i k). }
  assert (Hdi : di = 3).
  { destruct (@visits_step lines (List.length lines - 0) 0 i di)
      as [e' [df' Hs']].
    - fold (trail lines 0). rewrite Ht. apply in_elt.
    - rewrite Hs in Hs'. now injection Hs'. }
  subst di.
  exists line, e, (output lines (trail lines 0)),
    (corrections lines (trail lines 0)),
    (output lines pre), (output lines post).
  split; [exact Hl|]. split; [exact He|]. split; [apply repair_result|].
  rewrite (@visits_enough lines (List.length lines) 0) by lia.
  assert (Hem : emitted_at lines i = e) by (unfold emitted_at; now rewrite Hs).
  assert (Hfx : fixed_at lines i = 1) by (unfold fixed_at; now rewrite Hs).
  split; [|split].
  - rewrite Ht, output_app. unfold output at 2. cbn [flat_map fst].
    now rewrite Hem.
  - rewrite Ht. apply in_elt.
  - rewrite Ht. unfold corrections. rewrite map_app, list_sum_app.
    cbn [map fst]. rewrite sum_cons, Hfx. lia.
Qed.

Lemma blocks_all_rebuilt_witness :
  let lines :=
    readlines
      (py "logger.info('Hi', { metadata: { id: 1 }\n        }\n      );\nnext\n") in
  (forall k, k <> 0 -> k < 0 + 3 -> 0 < k + 3 -> block_at lines k = false)
  /\ exists line e out n pre post,
       nth_error lines 0 = Some line
       /\ rebuild_block lines 0 line = Return (Some e)
       /\ repair lines = Some (Return (out, n))
       /\ out = pre ++ e ++ post
       /\ In (0, 3) (visits (List.length lines) lines 0)
       /\ 0 < n.
Proof.
  cbv zeta. apply blocks_all_rebuilt. vm_compute. reflexivity.
Defined.

End Quiet.

(* ===================================================================== *)
(** * Further properties: the properties of a metadata block *)
(* ===================================================================== *)

Lemma lstrip_head (s : str) :
  match lstrip s with
  | [] => True
  | c :: _ => isspace c = false
  end.
Proof.
  induction s as [|x s IH]; [exact I|]. cbn [lstrip].
  destruct (isspace x) eqn:E; [exact IH|exact E].
Qed.

Lemma lstrip_fixed (s : str) :
  match s with [] => True | c :: _ => isspace c = false end ->
  lstrip s = s.
Proof. destruct s as [|c s]; [reflexivity|]. cbn [lstrip]. now intros ->. Qed.

Lemma lstrip_lstrip (s : str) : lstrip (lstrip s) = lstrip s.
Proof. apply lstrip_fixed, lstrip_head. Qed.

Lemma lstrip_snoc (s : str) (c : char) :
  isspace c = false -> lstrip (s ++ [c]) = lstrip s ++ [c].
Proof.
  intros Hc. induction s as [|x s IH]; cbn [app lstrip].
  - now rewrite Hc.
  - destruct (isspace x); [exact IH|reflexivity].
Qed.

Lemma rstrip_cons (c : char) (s : str) :
  isspace c = false -> rstrip (c :: s) = c :: rstrip s.
Proof.
  intros Hc. unfold rstrip. cbn [rev].
  now rewrite (@lstrip_snoc (rev s) c Hc), rev_app_distr.
Qed.

Lemma rstrip_rstrip (s : str) : rstrip (rstrip s) = rstrip s.
Proof. unfold rstrip. now rewrite rev_involutive, lstrip_lstrip. Qed.

(** Stripping twice is stripping once. *)
Lemma strip_strip (s : str) : strip (strip s) = strip s.
Proof.
  unfold strip. pose proof (lstrip_head s) as H.
  destruct (lstrip s) as [|c t].
  - reflexivity.
  - rewrite (@rstrip_cons c t H). cbn [lstrip]. rewrite H.
    rewrite <- (@rstrip_cons c t H). apply rstrip_rstrip.
Qed.

Lemma lstrip_incl (c : char) (s : str) : In c (lstrip s) -> In c s.
Proof.
  induction s as [|x s IH]; [easy|]. cbn [lstrip].
  destruct (isspace x); [|easy]. intros H. right. now apply IH.
Qed.

Lemma strip_incl (c : char) (s : str) : In c (strip s) -> In c s.
Proof.
  unfold strip, rstrip. intros H. apply in_rev in H.
  apply lstrip_incl in H. apply in_rev in H. now apply lstrip_incl.
Qed.

Lemma strip_ends (s : str) :
  isspace (hd 0%N (strip s)) = false
  /\ isspace (last (strip s) 0%N) = false.
Proof.
  assert (Hh : forall t, isspace (hd 0%N (lstrip t)) = false).
  { intros t. pose proof (lstrip_head t). now destruct (lstrip t). }
  split.
  - rewrite <- strip_strip. unfold strip at 1.
    pose proof (lstrip_head (strip s)) as H.
    destruct (lstrip (strip s)) as [|c t]; [reflexivity|].
    now rewrite (@rstrip_cons c t H).
  - unfold strip, rstrip.
    rewrite <- (rev_involutive (rev (lstrip (rev (lstrip s))))).
    rewrite rev_involutive.
    destruct (lstrip (rev (lstrip s))) as [|c t] eqn:E; [reflexivity|].
    cbn [rev]. rewrite last_last. specialize (Hh (rev (lstrip s))).
    now rewrite E in Hh.
Qed.

(** No field of [s.split(sep)] holds the separator. *)
Lemma split_fields (sep : char) (s : str) :
  Forall (fun f => ~ In sep f) (split sep s).
Proof.
  induction s as [|c s IH]; cbn [split].
  - constructor; [easy|constructor].
  - destruct (c =? sep)%N eqn:E.
    + constructor; [easy|exact IH].
    + destruct (split sep s) as [|w ws]; constructor.
      * intros [H|[]]. subst c. now rewrite N.eqb_refl in E.
      * constructor.
      * inversion IH as [|? ? Hw _]; subst. intros [H|H].
        -- subst c. now rewrite N.eqb_refl in E.
        -- now apply Hw.
      * now inversion IH.
Qed.

Lemma props_of_fields (s p : str) :
  In p (props_of s) ->
  exists field, In field (split (ch ",") s) /\ p = strip field.
Proof.
  unfold props_of. intros H. apply in_map_iff in H as [q [<- Hq]].
  apply filter_In in Hq as [Hin _]. eauto.
Qed.

(** X10. The properties cut out of a metadata block, in all three
    scripts that rebuild one: each is a field between two commas,
    stripped; none is empty, none holds a comma, and none starts or ends
    with white space. Fields of white space only are dropped. *)
Theorem props_of_clean (s p : str) :
  In p (props_of s) ->
  p <> []
  /\ ~ In (ch ",") p
  /\ strip p = p
  /\ isspace (hd 0%N p) = false
  /\ isspace (last p 0%N) = false
  /\ exists field, In field (split (ch ",") s) /\ p = strip field.
Proof.
  unfold props_of. intros H. apply in_map_iff in H as [q [<- Hq]].
  apply filter_In in Hq as [Hin Hne].
  split; [|split; [|split; [|split; [|split]]]].
  - intros E. now rewrite E in Hne.
  - intros Hc. apply strip_incl in Hc.
    pose proof (split_fields (ch ",") s) as Hf.
    rewrite Forall_forall in Hf. exact (Hf q Hin Hc).
  - apply strip_strip.
  - apply strip_ends.
  - apply strip_ends.
  - eauto.
Qed.

Lemma props_of_clean_witness :
  let p := u "id: 1" in
  p <> []
  /\ ~ In (ch ",") p
  /\ strip p = p
  /\ isspace (hd 0%N p) = false
  /\ isspace (last p 0%N) = false
  /\ exists field,
       In field (split (ch ",") (u " id: 1 , ,  module: 'a' ,"))
       /\ p = strip field.
Proof.
  cbv zeta. apply props_of_clean. vm_compute. left. reflexivity.
Defined.

(* ===================================================================== *)
(** * Further properties: a file that is migrated already *)
(* ===================================================================== *)

Lemma universal_newlines_clean :
  forall n s, List.length s <= n -> ~ In cr (universal_newlines s).
Proof.
  induction n as [|n IH]; intros s Hn.
  - destruct s; [easy|cbn in Hn; lia].
  - destruct s as [|c s]; [easy|]. cbn [List.length] in Hn.
    cbn [universal_newlines]. destruct (c =? cr)%N eqn:E.
    + destruct s as [|d s].
      * intros [H|[]]. discriminate H.
      * cbn [List.length] in Hn. destruct (d =? nl)%N.
        -- intros [H|H]; [discriminate H|]. revert H. apply IH. lia.
        -- intros [H|H]; [discriminate H|]. revert H. apply IH.
           cbn [List.length]. lia.
    + intros [H|H].
      * subst c. now rewrite N.eqb_refl in E.
      * revert H. apply IH. lia.
Qed.

Lemma universal_newlines_fixed (s : str) :
  ~ In cr s -> universal_newlines s = s.
Proof.
  induction s as [|c s IH]; [reflexivity|]. intros H.
  cbn [universal_newlines]. destruct (c =? cr)%N eqn:E.
  - apply N.eqb_eq in E. subst c. exfalso. apply H. now left.
  - rewrite IH; [reflexivity|]. intros Hin. apply H. now right.
Qed.

(** A text as read is read again as it is. *)
Lemma as_read_as_read (s : str) : as_read (as_read s) = as_read s.
Proof.
  unfold as_read. apply universal_newlines_fixed.
  apply (@universal_newlines_clean (List.length s) s). lia.
Qed.

Lemma quiet_table (tbl : table) (content : str) :
  compile_table tbl = Some (rules_of tbl) ->
  forallb console_rule (rules_of tbl) = true ->
  console_count content = 0 ->
  rewritten tbl (as_read content) = as_read content.
Proof.
  intros Hc Hr H0. apply console_count_zero in H0. unfold rewritten.
  now rewrite (proj1 (@console_table_settles tbl (as_read content) Hc Hr H0)).
Qed.

Lemma quiet_service (start : str) (path : string) (missing : str)
    (reps subs : table) (done : str) (w : world) (content : str) :
  compile_table reps = Some (rules_of reps) ->
  compile_table subs = Some (rules_of subs) ->
  forallb console_rule (rules_of reps) = true ->
  forallb console_rule (rules_of subs) = true ->
  files w path = Some content ->
  console_count content = 0 ->
  let run := void (MigrateRemainingServices.migrate_service start path missing
                     reps subs done) in
  fst (run w) = Return tt
  /\ (exists c', files_after run w path = Some c'
                 /\ as_read c' = as_read content)
  /\ Forall (fun e => e = Write path (as_read content)) (writes_of run w).
Proof.
  intros Hr Hs Cr Cs Hf H0 run.
  pose proof (@service_run start path missing reps subs done w content
                Hr Hs Hf) as E.
  cbv zeta in E.
  assert (Ht : serviced reps subs content = as_read content).
  { unfold serviced. rewrite (@quiet_table reps content Hr Cr H0).
    apply (@quiet_table subs content Hs Cs H0). }
  rewrite Ht in E.
  unfold run, void, files_after, writes_of. rewrite E.
  cbn [fst snd files events]. rewrite skipn_length_app.
  split; [reflexivity|].
  destruct (contains logger_import (as_read content)).
  - split.
    + exists (as_read content). split; [apply with_file_same|].
      apply as_read_as_read.
    + cbn. repeat constructor.
  - split; [eauto|]. cbn. constructor.
Qed.

Lemma quiet_remaining (path : string) (subs : table) (done : str)
    (w : world) (content : str) :
  compile_table subs = Some (rules_of subs) ->
  forallb console_rule (rules_of subs) = true ->
  files w path = Some content ->
  console_count content = 0 ->
  let run := MigrateRemainingConsole.migrate_remaining path subs done in
  fst (run w) = Return tt
  /\ (exists c', files_after run w path = Some c'
                 /\ as_read c' = as_read content)
  /\ Forall (fun e => e = Write path (as_read content)) (writes_of run w).
Proof.
  intros Hs Cs Hf H0 run.
  pose proof (@remaining_run path subs done w content Hs Hf) as E.
  rewrite (@quiet_table subs content Hs Cs H0) in E.
  unfold run, files_after, writes_of. rewrite E.
  cbn [fst snd files events]. rewrite skipn_length_app.
  split; [reflexivity|]. split.
  - exists (as_read content). split; [apply with_file_same|].
    apply as_read_as_read.
  - cbn. repeat constructor.
Qed.

Lemma quiet_context_cache (w : world) (content : str) :
  files w MigrateConsoleToLogger.path = Some content ->
  console_count content = 0 ->
  let run := MigrateConsoleToLogger.migrate_context_cache in
  let path := MigrateConsoleToLogger.path in
  fst (run w) = Return tt
  /\ (exists c', files_after run w path = Some c'
                 /\ as_read c' = as_read content)
  /\ Forall (fun e => e = Write path (as_read content)) (writes_of run w).
Proof.
  intros Hf H0 run path. unfold run, path, files_after, writes_of.
  destruct (contains logger_import (as_read content)) eqn:Hg.
  - pose proof (@sub_all_compiled
                  MigrateConsoleToLogger.context_cache_replacements
                  (as_read content) context_cache_compiles) as Hs.
    pose proof (@quiet_table MigrateConsoleToLogger.context_cache_replacements
                  content context_cache_compiles eq_refl H0) as Hq.
    unfold rewritten in Hq. rewrite Hq in Hs.
    rewrite (@migrate_context_cache_pass w content _ Hf Hg Hs).
    cbn [fst snd files events]. rewrite skipn_length_app.
    split; [reflexivity|]. split.
    + exists (as_read content). rewrite String.eqb_refl.
      split; [reflexivity|apply as_read_as_read].
    + cbn. repeat constructor.
  - rewrite (@migrate_context_cache_guard w content Hf Hg).
    cbn [fst snd files events]. rewrite skipn_length_app.
    split; [reflexivity|]. split; [eauto|]. cbn. constructor.
Qed.

(** X11. A file without a match of [console\.] is left as it is by the
    migrations of the context cache, of the email service and of the
    predictive engine: every pattern of their tables is a plain word
    that holds [console.], so nothing is substituted. The run returns,
    what it writes (if it writes) is the text it read, and the file reads
    as before. *)
Theorem console_free_untouched (path : string) (run : IO unit) (w : world)
    (content : str) :
  In (path, run) console_migrations ->
  files w path = Some content ->
  console_count content = 0 ->
  fst (run w) = Return tt
  /\ (exists c', files_after run w path = Some c'
                 /\ as_read c' = as_read content)
  /\ Forall (fun e => e = Write path (as_read content)) (writes_of run w).
Proof.
  unfold console_migrations. cbn [In]. intros H Hf H0.
  destruct H as [H|[H|[H|[H|[H|[]]]]]]; injection H as <- <-.
  - exact (@quiet_context_cache w content Hf H0).
  - exact (@quiet_service _ _ _ _ _ _ w content
             email_service_replacements_compile email_service_subs_compile
             eq_refl eq_refl Hf H0).
  - exact (@quiet_service _ _ _ _ _ _ w content
             predictive_engine_replacements_compile
             predictive_engine_subs_compile eq_refl eq_refl Hf H0).
  - exact (@quiet_remaining _ _ _ w content remaining_email_compiles
             eq_refl Hf H0).
  - exact (@quiet_remaining _ _ _ w content remaining_predictive_compiles
             eq_refl Hf H0).
Qed.

Lemma console_free_untouched_witness :
  let path := "server/services/emailService.ts" in
  let run := MigrateRemainingConsole.migrate_remaining_email in
  let content := py "logger.info('a');\r\nconst b = 2;\n" in
  let w := one_file path content in
  fst (run w) = Return tt
  /\ (exists c', files_after run w path = Some c'
                 /\ as_read c' = as_read content)
  /\ Forall (fun e => e = Write path (as_read content)) (writes_of run w).
Proof.
  cbv zeta. apply console_free_untouched.
  - unfold console_migrations. right. right. right. left. reflexivity.
  - reflexivity.
  - vm_compute. reflexivity.
Defined.

(* ===================================================================== *)
(** * Further properties: the script of the context cache *)
(* ===================================================================== *)



(* ===================================================================== *)
(** * Further properties: the lines of a rebuilt block *)
(* ===================================================================== *)

Section Blocks.

Import FixIndentation Shape.

Lemma find_anchor_spec (f : str -> bool) (lines : list str) (i j : nat) :
  find_anchor f lines i = Some j -> nearest_anchor f lines i j.
Proof.
  unfold nearest_anchor. induction i as [|i IH]; cbn [find_anchor];
    [discriminate|].
  destruct (f (nth i lines [])) eqn:E.
  - intros [= <-]. split; [lia|]. split; [exact E|]. intros k H1 H2. lia.
  - intros H. destruct (IH H) as [H1 [H2 H3]].
    split; [lia|]. split; [exact H2|]. intros k Hk1 Hk2.
    destruct (Nat.eq_dec k i) as [->|Hne]; [exact E|]. apply H3; lia.
Qed.

Lemma find_anchor_absent (f : str -> bool) (lines : list str) (i : nat) :
  find_anchor f lines i = None -> no_anchor_before f lines i.
Proof.
  unfold no_anchor_before. induction i as [|i IH]; cbn [find_anchor].
  - intros _ j Hj. lia.
  - destruct (f (nth i lines [])) eqn:E; [discriminate|].
    intros H j Hj. destruct (Nat.eq_dec j i) as [->|Hne]; [exact E|].
    apply IH; [exact H|lia].
Qed.

Lemma startswith_app (b x : str) : startswith b (b ++ x) = true.
Proof.
  induction b as [|c b IH]; [reflexivity|]. cbn [app startswith].
  now rewrite N.eqb_refl.
Qed.

Lemma startswith_app_assoc (b x y : str) :
  startswith b (x ++ y) = true -> forall z, startswith b ((x ++ y) ++ z) = true.
Proof.
  intros H z. apply startswith_iff in H as [t Ht]. rewrite Ht, <- app_assoc.
  apply startswith_app.
Qed.

Lemma ends_with_newline_app (x y : str) :
  y <> [] -> ends_with_newline y -> ends_with_newline (x ++ y).
Proof.
  unfold ends_with_newline. intros Hy H.
  now rewrite (@last_append _ x y 0%N Hy).
Qed.

Lemma join_cons (sep x : str) (l : list str) :
  join sep (x :: l)
  = x ++ match l with [] => [] | _ :: _ => sep ++ join sep l end.
Proof. destruct l; cbn [join]; [now rewrite app_nil_r|reflexivity]. Qed.

Lemma block_shape (b head : str) (props : list str) :
  let formatted_props :=
    join (py ",\n") (map (fun prop => b ++ u "          " ++ prop) props) in
  let e :=
    [ b ++ head; b ++ py "        metadata: {\n" ]
    ++ (if null formatted_props then [] else [formatted_props ++ py "\n"])
    ++ [ b ++ py "        }\n"; b ++ py "      });\n" ] in
  ends_with_newline (b ++ head) ->
  (List.length e = 4 \/ List.length e = 5)
  /\ Forall (fun l => startswith b l = true) e
  /\ Forall ends_with_newline e.
Proof.
  intros fp e. unfold e, fp. clear e fp. intros Hh.
  destruct props as [|p ps].
  - cbn [map join null app List.length]. split; [now left|]. split.
    + repeat constructor; apply startswith_app.
    + repeat constructor; try exact Hh; rewrite ?app_assoc;
        (apply ends_with_newline_app; [now vm_compute|reflexivity]).
  - assert (Hj : exists t,
               join (py ",\n") (map (fun prop => b ++ u "          " ++ prop)
                                    (p :: ps))
               = b ++ u "          " ++ t).
    { cbn [map]. rewrite join_cons. eexists.
      rewrite <- !app_assoc. reflexivity. }
    destruct Hj as [t Ht]. rewrite Ht.
    assert (Hn : null (b ++ u "          " ++ t) = false)
      by (now destruct b).
    rewrite Hn. cbn [app List.length]. split; [now right|]. split.
    + repeat constructor; rewrite <- ?app_assoc; apply startswith_app.
    + repeat constructor; try exact Hh; rewrite ?app_assoc;
        (apply ends_with_newline_app; [now vm_compute|reflexivity]).
Qed.

(** What [block_lines] builds: four or five lines on the base
    indentation, each ending in a newline. *)
Lemma block_lines_shape (b line : str) (e : list str) :
  block_lines b line = Return (Some e) ->
  (List.length e = 4 \/ List.length e = 5)
  /\ Forall (fun l => startswith b l = true) e
  /\ Forall ends_with_newline e.
Proof.
  unfold block_lines.
  destruct compiled_metadata as [mr Hmr]. rewrite Hmr. cbn [obind].
  destruct (re_search mr line) as [mm|]; [|discriminate].
  destruct compiled_logger as [lr Hlr]. rewrite Hlr. cbn [obind].
  destruct (re_search lr line) as [lm|]; [|discriminate].
  intros H. injection H as <-.
  apply (@block_shape b (group lm 1 ++ u "." ++ group lm 2 ++ u "('"
                          ++ group lm 3 ++ py "', {\n")
           (props_of (strip (group mm 1)))).
  rewrite !app_assoc. apply ends_with_newline_app; [now vm_compute|reflexivity].
Qed.

(** Where the base indentation of a rebuilt block comes from. *)
Lemma rebuild_block_base (lines : list str) (i : nat) (line : str)
    (e : list str) :
  rebuild_block lines i line = Return (Some e) ->
  exists b,
    block_lines b line = Return (Some e)
    /\ ((no_anchor_before is_logger_line lines i /\ b = default_indent)
        \/ exists j anchor,
             nearest_anchor is_logger_line lines i j
             /\ nth_error lines j = Some anchor
             /\ b = if null (leading_space anchor) then default_indent
                    else leading_space anchor).
Proof.
  unfold rebuild_block.
  destruct (is_metadata_line line && Nat.ltb (i + 3) (List.length lines));
    [|discriminate].
  destruct (item lines (i + 1)) as [l1|]; cbn [obind]; [|discriminate].
  destruct (item lines (i + 2)) as [l2|]; cbn [obind]; [|discriminate].
  destruct (closing_lines l1 l2); [|discriminate].
  unfold base_indent_from.
  destruct (find_anchor is_logger_line lines i) as [j|] eqn:Ef.
  - pose proof (@find_anchor_spec is_logger_line lines i j Ef) as Hn.
    unfold item. destruct (nth_error lines j) as [anchor|] eqn:Ea;
      cbn [obind]; [|discriminate].
    rewrite indent_of_leading. cbn [obind]. intros Hb.
    eexists. split; [exact Hb|]. right. exists j, anchor. auto.
  - cbn [obind null]. intros Hb.
    eexists. split; [exact Hb|]. left. split; [|reflexivity].
    now apply find_anchor_absent.
Qed.

(** X13. The lines of a rebuilt block: four lines, or five when the
    block has properties, each starting with the base indentation and
    ending in a newline. The base indentation is the white space in
    front of the nearest line above that holds [facadeLogger.] or
    [logger.]; the first line of the block itself is not looked at. When
    there is no such line above, or it starts with no white space, the
    base is the default of six spaces. *)
Theorem block_indentation (lines : list str) (i : nat) (line : str)
    (e : list str) :
  rebuild_block lines i line = Return (Some e) ->
  exists b,
    block_lines b line = Return (Some e)
    /\ (List.length e = 4 \/ List.length e = 5)
    /\ Forall (fun l => startswith b l = true) e
    /\ Forall ends_with_newline e
    /\ ((no_anchor_before is_logger_line lines i /\ b = default_indent)
        \/ exists j anchor,
             nearest_anchor is_logger_line lines i j
             /\ nth_error lines j = Some anchor
             /\ b = if null (leading_space anchor) then default_indent
                    else leading_space anchor).
Proof.
  intros H. destruct (@rebuild_block_base lines i line e H) as [b [Hb Ha]].
  destruct (@block_lines_shape b line e Hb) as [H1 [H2 H3]].
  exists b. auto.
Qed.

Lemma block_indentation_witness :
  let lines :=
    readlines
      (py "logger.debug('x');\n  this.facadeLogger.info('Hi', { metadata: { id: 1 }\n        }\n      );\nnext\n") in
  let line := py "  this.facadeLogger.info('Hi', { metadata: { id: 1 }\n" in
  let e := [ py "      this.facadeLogger.info('Hi', {\n";
             py "              metadata: {\n";
             py "                id: 1\n";
             py "              }\n";
             py "            });\n" ] in
  exists b,
    block_lines b line = Return (Some e)
    /\ (List.length e = 4 \/ List.length e = 5)
    /\ Forall (fun l => startswith b l = true) e
    /\ Forall ends_with_newline e
    /\ ((no_anchor_before is_logger_line lines 1 /\ b = default_indent)
        \/ exists j anchor,
             nearest_anchor is_logger_line lines 1 j
             /\ nth_error lines j = Some anchor
             /\ b = if null (leading_space anchor) then default_indent
                    else leading_space anchor).
Proof.
  cbv zeta. apply block_indentation. vm_compute. reflexivity.
Defined.

(** ** Bounds *)

Lemma trail_bounds (lines : list str) :
  forall n i,
    List.length lines - i <= n -> i <= List.length lines ->
    corrections lines (trail lines i) <= List.length lines - i
    /\ List.length lines - i <= List.length (output lines (trail lines i))
    /\ List.length (output lines (trail lines i))
       <= List.length lines - i + 2 * corrections lines (trail lines i).
Proof.
  induction n as [|n IH]; intros i Hn Hi.
  - rewrite trail_past by lia. unfold corrections, output. cbn. lia.
  - destruct (Nat.eq_dec i (List.length lines)) as [->|Hne].
    + rewrite trail_past by lia. unfold corrections, output. cbn. lia.
    + assert (Hlt : i < List.length lines) by lia.
      destruct (@step_at lines i Hlt)
        as [line [e [di [df [Hl [Hs [Hr [He Hd]]]]]]]].
      destruct (@round_bounds lines i line e di df Hlt Hr) as [Hdi [Hle Hdf]].
      rewrite (@trail_step lines i e di df Hlt Hs).
      destruct (IH (i + di)) as [I1 [I2 I3]]; [lia|lia|].
      unfold corrections, output in *. cbn [map flat_map fst].
      rewrite sum_cons, He, Hd, length_app.
      assert (Hlen : List.length e + 2 * (1 - df) <= di + 2
                     /\ di <= List.length e /\ df <= di).
      { destruct Hr as [e' Hb _|b _ _ _|b _ _ _ _|_ _ _];
          cbn [List.length]; try lia.
        destruct (@rebuild_block_base lines i line e' Hb) as [b [Hbl _]].
        destruct (@block_lines_shape b line e' Hbl) as [H45 _]. lia. }
      lia.
Qed.

(** X14. The repair drops nothing: its result has at least as many
    entries as lines were read, and at most two more for each correction
    counted; the count is at most the number of lines. *)
Theorem repair_bounds (lines : list str) :
  exists out n,
    repair lines = Some (Return (out, n))
    /\ n <= List.length lines
    /\ List.length lines <= List.length out
    /\ List.length out <= List.length lines + 2 * n.
Proof.
  rewrite repair_result. do 2 eexists. split; [reflexivity|].
  pose proof (@trail_bounds lines (List.length lines) 0) as H.
  rewrite Nat.sub_0_r in H. apply H; lia.
Qed.

End Blocks.

(* ===================================================================== *)
(** * Further properties: the block the two facade scripts write *)
(* ===================================================================== *)

Lemma split_incl (sep x : char) (s f : str) :
  In f (split sep s) -> In x f -> In x s.
Proof.
  revert f. induction s as [|c s IH]; intros f; cbn [split].
  - intros [<-|[]] [].
  - destruct (c =? sep)%N.
    + intros [<-|H] Hx; [destruct Hx|]. right. exact (IH f H Hx).
    + destruct (split sep s) as [|w ws].
      * intros [<-|[]] [<-|[]]. now left.
      * intros [<-|H] Hx.
        -- destruct Hx as [<-|Hx]; [now left|]. right.
           apply (IH w); [now left|exact Hx].
        -- right. apply (IH f); [now right|exact Hx].
Qed.

Lemma replace_char_gone (a b : char) (s : str) :
  a <> b -> ~ In a (replace_char a b s).
Proof.
  intros Hab. unfold replace_char. rewrite in_map_iff.
  intros [c [Hc _]]. destruct (c =? a)%N eqn:E.
  - congruence.
  - subst c. now rewrite N.eqb_refl in E.
Qed.

Lemma count_join (sep : str) (x : char) (props : list str) :
  Forall (fun p => ~ In x p) props ->
  count_occ N.eq_dec (join sep props) x
  = (List.length props - 1) * count_occ N.eq_dec sep x.
Proof.
  induction 1 as [|p ps Hp _ IH]; [reflexivity|].
  rewrite join_cons, count_occ_app.
  change char with N in *.
  assert (H0 : count_occ N.eq_dec p x = 0) by (now apply count_occ_not_In).
  rewrite H0.
  destruct ps as [|q qs]; [reflexivity|].
  rewrite count_occ_app. change char with N in *. rewrite IH.
  cbn [List.length]. lia.
Qed.

(** X15. The metadata the two scripts [fix-storage-facade-python.py] and
    [fix-storage-facade-final.py] write into a block: the newlines of the
    captured text are gone, so no property holds one, and the formatted
    text has one line for each property, a newline (after the comma)
    between two properties and nowhere else. *)
Theorem format_metadata_lines (metadata_content : str) :
  let props :=
    props_of (strip (replace_char nl (ch " ") metadata_content)) in
  Forall (fun p => ~ In nl p) props
  /\ format_metadata metadata_content = join (py ",\n          ") props
  /\ count_occ N.eq_dec (format_metadata metadata_content) nl
     = List.length props - 1.
Proof.
  intros props.
  assert (Hp : Forall (fun p => ~ In nl p) props).
  { apply Forall_forall. intros p Hin Hnl.
    destruct (@props_of_fields _ p Hin) as [field [Hf ->]].
    apply strip_incl in Hnl.
    pose proof (@split_incl (ch ",") nl _ field Hf Hnl) as H.
    apply strip_incl in H. revert H. now apply replace_char_gone. }
  split; [exact Hp|]. split; [reflexivity|].
  unfold format_metadata. fold props.
  rewrite (@count_join (py ",\n          ") nl props Hp).
  change (count_occ N.eq_dec (py ",\n          ") nl) with 1. lia.
Qed.

(* ===================================================================== *)
(** * Further properties: verification with a file missing *)
(* ===================================================================== *)

Lemma verify_loop_missing (pre : list string) (p : string)
    (post : list string) :
  forall (ok : bool) (w : world),
    Forall (fun q => files w q <> None) pre ->
    files w p = None ->
    exists msgs,
      verify_loop (pre ++ p :: post) ok w
      = (Raise (FileNotFoundError p),
         World (files w) (events w ++ map Print msgs)).
Proof.
  induction pre as [|q pre IH]; intros ok w Hpre Hp.
  - exists []. cbn [app verify_loop]. unfold bind.
    rewrite (@read_text_none w p Hp). cbn [map]. rewrite app_nil_r.
    now destruct w.
  - inversion Hpre as [|? ? Hq Hrest]; subst.
    destruct (files w q) as [c|] eqn:Ec; [|congruence].
    cbn [app verify_loop]. unfold bind at 1.
    rewrite (@read_text_some w q c Ec).
    unfold bind at 1. rewrite console_pattern_compiles. cbn [of_re ret].
    destruct (Nat.eqb _ 0).
    + unfold bind, print.
      match goal with
      | |- context [verify_loop _ ok ?w'] =>
        destruct (IH ok w' Hrest Hp) as [msgs Hm]; rewrite Hm
      end.
      cbn [files events]. rewrite <- app_assoc.
      eexists (_ :: msgs). cbn [map app]. reflexivity.
    + unfold bind, print.
      match goal with
      | |- context [verify_loop _ false ?w'] =>
        destruct (IH false w' Hrest Hp) as [msgs Hm]; rewrite Hm
      end.
      cbn [files events]. rewrite <- app_assoc.
      eexists (_ :: msgs). cbn [map app]. reflexivity.
Qed.

(** X16. The two verification functions read the three service files in
    order and have no test for a file that is not there: the first of
    the three that is missing makes them raise [FileNotFoundError] for
    it, after the verdicts on the files before it are printed; nothing is
    written. *)
Theorem verify_missing_file (w : world) (pre : list string) (p : string)
    (post : list string) :
  services = pre ++ p :: post ->
  Forall (fun q => files w q <> None) pre ->
  files w p = None ->
  fst (MigrateRemainingConsole.verify w) = Raise (FileNotFoundError p)
  /\ only_prints MigrateRemainingConsole.verify w
  /\ fst (MigrateRemainingServices.verify_migrations w)
     = Raise (FileNotFoundError p)
  /\ only_prints MigrateRemainingServices.verify_migrations w.
Proof.
  intros Hs Hpre Hp.
  destruct (@verify_loop_missing pre p post true w Hpre Hp) as [m1 E1].
  set (w' := World (files w)
               (events w ++ [Print (py "\n🔍 Vérification des migrations...")])).
  destruct (@verify_loop_missing pre p post true w' Hpre Hp) as [m2 E2].
  assert (E3 : MigrateRemainingServices.verify_migrations w
               = (Raise (FileNotFoundError p),
                  World (files w)
                    (events w
                     ++ map Print
                          (py "\n🔍 Vérification des migrations..." :: m2)))).
  { unfold MigrateRemainingServices.verify_migrations, bind, print.
    fold w'. rewrite Hs, E2. cbn [files events w']. now rewrite <- app_assoc. }
  unfold MigrateRemainingConsole.verify. rewrite Hs, E1, E3. cbn [fst].
  split; [reflexivity|]. split; [|split; [reflexivity|]].
  - eapply only_prints_intro. exact E1.
  - eapply only_prints_intro. exact E3.
Qed.

Lemma verify_missing_file_witness :
  let w := one_file "server/services/emailService.ts" (u "const a = 1;") in
  let p := "server/services/PredictiveEngineService.ts" in
  fst (MigrateRemainingConsole.verify w) = Raise (FileNotFoundError p)
  /\ only_prints MigrateRemainingConsole.verify w
  /\ fst (MigrateRemainingServices.verify_migrations w)
     = Raise (FileNotFoundError p)
  /\ only_prints MigrateRemainingServices.verify_migrations w.
Proof.
  cbv zeta.
  apply (@verify_missing_file _ ["server/services/emailService.ts"]
           "server/services/PredictiveEngineService.ts"
           ["server/services/SQLEngineService.ts"]).
  - reflexivity.
  - constructor; [discriminate|constructor].
  - reflexivity.
Defined.
